(** * FlexASIO: the utility layer and the driver exerciser

    A shallow embedding of
    - [FlexASIOUtil/string.h]    ([JoinStream], [Join]),
    - [FlexASIOUtil/portaudio.cpp] (the PortAudio logger reference count,
      [DescribeStreamParameters], [OpenStream], [StreamDeleter],
      [StreamStopper]),
    - [FlexASIOTest/test.cpp]    (the error renderer and the exerciser [Run]),
    followed by the properties proved about them.

    Conventions.  A C++ [long], [unsigned long], enum value or pointer is a
    [Z] (a null pointer is [0]); [size_t] is a [Z] reduced modulo
    [2 ^ size_t_bits]; a [std::string] is a [string]; a [std::optional] is an
    [option]; a [std::vector] is a [list]; code that calls the driver or the
    audio backend threads the callee's state explicitly and collects what it
    emits (calls made, log lines) in a list. *)

From Stdlib Require Import ZArith List Ascii String Bool Lia QArith.
Import ListNotations.

Local Open Scope Z_scope.

(* ===================================================================== *)
(** * Part I: the embedding *)
(* ===================================================================== *)

(** ** FlexASIOUtil/string.h *)

Module StringUtil.

(** [std::ostream], as far as [JoinStream] uses it: [insert result text] is
    the stream [result] after [result << value], for a value that [<<]
    writes as [text].  What the insertion does with the text is the
    stream's own: it may pad the text to a pending width, drop it when an
    error bit is set, or put it over what the stream holds at its put
    position. *)
Class OStream (Stream : Type) : Type := {
  insert : Stream -> string -> Stream
}.

Section Join.
Context {Item : Type}.
Context {Stream : Type} `{OStream Stream}.

(** The body of the [for (;;)] loop of [JoinStream]: [it] points at an
    item, [rest] are the items behind it, [result] is the stream so far.
    [render item] is the text of what the source's [render] returns for the
    item. *)
Fixpoint JoinStream_loop (it : Item) (rest : list Item)
    (delimiter : string) (render : Item -> string) (result : Stream)
    : Stream :=
  let result := insert result (render it) in
  match rest with
  | [] => result
  | next :: rest' =>
      JoinStream_loop next rest' delimiter render (insert result delimiter)
  end.

Definition JoinStream (items : list Item) (delimiter : string)
    (result : Stream) (render : Item -> string) : Stream :=
  match items with
  | [] => result
  | it :: rest => JoinStream_loop it rest delimiter render result
  end.
End Join.

(** The [std::stringstream] that [Join] declares and hands to [JoinStream]:
    nothing but [<<] is applied to it from its construction on, so that no
    width is pending, no error bit is set and the put position is the end,
    and an insertion adds the text at the end.  The stream is given by the
    text it holds, [str()]. *)
Record stringstream : Type := { str : string }.

#[global] Instance stringstream_OStream : OStream stringstream := {|
  insert := fun result text => {| str := str result ++ text |}
|}.

Definition Join {Item : Type} (items : list Item) (delimiter : string)
    (render : Item -> string) : string :=
  let result := {| str := EmptyString |} in
  str (JoinStream items delimiter result render).

(** [DefaultJoinRender] forwards the item to the stream unchanged. *)
Definition DefaultJoinRender {T : Type} (val : T) : T := val.

(** *** A stream with a formatting state, for concrete runs *)

(** What a [std::ostream] over a buffer carries besides its text: the put
    position, the pending field width with its fill character, and the
    error bit. *)
Record formatted_stream : Type := {
  buffer : string;
  put_position : nat;
  pending_width : nat;
  fill : Ascii.ascii;
  failbit : bool
}.

(** [text] padded on the left with [fill] up to [width] characters. *)
Definition padded (width : nat) (fill : Ascii.ascii) (text : string)
    : string :=
  string_of_list_ascii (repeat fill (width - String.length text)) ++ text.

(** [text] put over [buffer] from [position] on. *)
Definition overwrite (buffer : string) (position : nat) (text : string)
    : string :=
  let behind := (position + String.length text)%nat in
  substring 0 position buffer ++ text
  ++ substring behind (String.length buffer - behind) buffer.

(** An insertion does nothing when the error bit is set; otherwise it puts
    the text, padded to the pending width, at the put position, moves the
    position behind it and resets the width. *)
#[global] Instance formatted_stream_OStream : OStream formatted_stream := {|
  insert := fun result text =>
    if failbit result then result
    else
      let field := padded (pending_width result) (fill result) text in
      {| buffer := overwrite (buffer result) (put_position result) field;
         put_position :=
           (put_position result + String.length field)%nat;
         pending_width := 0;
         fill := fill result;
         failbit := false |}
|}.

(** A stream in the state in which an insertion adds its text at the end:
    no error bit, no pending width, the put position at the end. *)
Definition appending (result : formatted_stream) : Prop :=
  failbit result = false
  /\ pending_width result = 0%nat
  /\ put_position result = String.length (buffer result).

(** *** The vocabulary of the statements about [Join] *)

Section JoinVocabulary.
Context {Item : Type}.
Variables (delimiter : string) (render : Item -> string).

(** Every item of [rest], each one led by a delimiter. *)
Definition led_by_delimiter (rest : list Item) : string :=
  String.concat "" (map (fun item => delimiter ++ render item)%string rest).

(** Every item of [front], each one trailed by a delimiter. *)
Definition trailed_by_delimiter (front : list Item) : string :=
  String.concat "" (map (fun item => render item ++ delimiter)%string front).

(** The total length of the rendered items. *)
Definition rendered_length (items : list Item) : nat :=
  list_sum (map (fun item => String.length (render item)) items).

(** The texts [JoinStream] inserts for [items], in order: the renderings,
    with the delimiter between each two neighbours. *)
Fixpoint inserted (items : list Item) : list string :=
  match items with
  | [] => []
  | it :: rest =>
      render it
      :: match rest with
         | [] => []
         | _ :: _ => delimiter :: inserted rest
         end
  end.

(** The number of occurrences of [delimiter] in [text], counted by a search
    from the left that goes on behind each occurrence it finds, so that the
    occurrences counted do not overlap; the first [skip] characters are
    passed over. *)
Fixpoint occurrences_behind (skip : nat) (text : string) : nat :=
  match text with
  | EmptyString => 0
  | String _ text' =>
      match skip with
      | S skip' => occurrences_behind skip' text'
      | O =>
          if prefix delimiter text
          then S (occurrences_behind (String.length delimiter - 1) text')
          else occurrences_behind 0 text'
      end
  end.

Definition occurrences (text : string) : nat := occurrences_behind 0 text.

(** [text] starts with the delimiter. *)
Definition leads (text : string) : bool := prefix delimiter text.

(** [text] ends with the delimiter: the delimiter is the text from one of
    its positions to the end. *)
Fixpoint trails (text : string) : bool :=
  String.eqb delimiter text
  || match text with
     | EmptyString => false
     | String _ text' => trails text'
     end.

(** No character of the delimiter occurs in [text]. *)
Definition apart (text : string) : bool :=
  forallb
    (fun c =>
       negb (existsb (Ascii.eqb c) (list_ascii_of_string delimiter)))
    (list_ascii_of_string text).

(** The delimiter occurs in the text of [Join] between the items and
    nowhere else: [n - 1] times for [n] items, not at the front and not at
    the end. *)
Definition delimiter_only_between (items : list Item) : Prop :=
  let text := Join items delimiter render in
  occurrences text = (List.length items - 1)%nat
  /\ leads text = false
  /\ trails text = false.
End JoinVocabulary.

End StringUtil.

(** ** The ASIO SDK header (asio.h)

    [asio.h] comes with the ASIO SDK, not with this repository: the error
    codes it declares are taken as parameters.  [ASIOError] is a [long]. *)

Definition ASIOError := Z.

Class AsioHeader := {
  ASE_OK : ASIOError;
  ASE_SUCCESS : ASIOError;
  ASE_NotPresent : ASIOError;
  ASE_HWMalfunction : ASIOError;
  ASE_InvalidParameter : ASIOError;
  ASE_InvalidMode : ASIOError;
  ASE_SPNotAdvancing : ASIOError;
  ASE_NoClock : ASIOError;
  ASE_NoMemory : ASIOError
}.

(** The enumerators in the order of the header.  They are the labels of one
    [switch], so a header the exerciser compiles against has them distinct. *)
Definition asio_error_codes `{AsioHeader} : list ASIOError :=
  [ASE_OK; ASE_SUCCESS; ASE_NotPresent; ASE_HWMalfunction;
   ASE_InvalidParameter; ASE_InvalidMode; ASE_SPNotAdvancing; ASE_NoClock;
   ASE_NoMemory].

(** The values of the ASIO SDK 2.3 header, used for concrete runs. *)
Definition asio_sdk : AsioHeader := {|
  ASE_OK := 0;
  ASE_SUCCESS := 0x3f4847a0;
  ASE_NotPresent := -1000;
  ASE_HWMalfunction := -999;
  ASE_InvalidParameter := -998;
  ASE_InvalidMode := -997;
  ASE_SPNotAdvancing := -996;
  ASE_NoClock := -995;
  ASE_NoMemory := -994
|}.

(** ** FlexASIOTest/test.cpp: the error renderer *)

Module ErrorString.
Section WithHeader.
Context `{AsioHeader}.
Local Open Scope string_scope.

(** A [switch] with one [case] for each enumerator and a [default]: with the
    labels distinct, as a [switch] has them, the order of the tests does not
    matter. *)
Definition GetASIOErrorString (error : ASIOError) : string :=
  if (error =? ASE_OK)%Z then "ASE_OK"
  else if (error =? ASE_SUCCESS)%Z then "ASE_SUCCESS"
  else if (error =? ASE_NotPresent)%Z then "ASE_NotPresent"
  else if (error =? ASE_HWMalfunction)%Z then "ASE_HWMalfunction"
  else if (error =? ASE_InvalidParameter)%Z then "ASE_InvalidParameter"
  else if (error =? ASE_InvalidMode)%Z then "ASE_InvalidMode"
  else if (error =? ASE_SPNotAdvancing)%Z then "ASE_SPNotAdvancing"
  else if (error =? ASE_NoClock)%Z then "ASE_NoClock"
  else if (error =? ASE_NoMemory)%Z then "ASE_NoMemory"
  else "(unknown ASE error code)".

(** The names of the fixed vocabulary, in the order of
    [asio_error_codes]. *)
Definition asio_error_names : list string :=
  ["ASE_OK"; "ASE_SUCCESS"; "ASE_NotPresent"; "ASE_HWMalfunction";
   "ASE_InvalidParameter"; "ASE_InvalidMode"; "ASE_SPNotAdvancing";
   "ASE_NoClock"; "ASE_NoMemory"].

Definition unknown_error_name : string := "(unknown ASE error code)".
End WithHeader.
End ErrorString.

(** ** Values shared by the two programs *)

(** A C++ [double], as far as the programs use one: they print it, pass it
    on and compare it with [==].  A value is a NaN, an infinity or a rational
    (the two zeros are the same rational, as [==] has it). *)
Inductive double : Type :=
| NaN
| Infinity (negative : bool)
| Finite (q : Q).

(** [operator==] on doubles: a NaN equals nothing, not even itself. *)
Definition double_eqb (a b : double) : bool :=
  match a, b with
  | Finite p, Finite q => Qeq_bool p q
  | Infinity s, Infinity t => Bool.eqb s t
  | _, _ => false
  end.

(** The implicit conversion of an [int] to [double], which is exact. *)
Definition double_of_int (n : Z) : double := Finite (inject_Z n).

(** What a call does: it returns a value or leaves by an exception
    ([std::runtime_error] with its message). *)
Inductive Outcome (A : Type) : Type :=
| Returns (a : A)
| Throws (what : string).
Arguments Returns {A} a.
Arguments Throws {A} what.

(** ** FlexASIOUtil/portaudio.cpp *)

(** [portaudio.h] comes with PortAudio, not with this repository: the two
    enumerators the modelled functions compare against are taken as
    parameters. *)
Definition PaError := Z.

Class PortAudioHeader := {
  paNoError : PaError;
  paWASAPI : Z
}.

(** The values of the PortAudio V19 header, used for concrete runs. *)
Definition portaudio_v19 : PortAudioHeader := {|
  paNoError := 0;
  paWASAPI := 13
|}.

Module PortAudio.

(** *** The logger reference count *)

(** The argument of [PaUtil_SetDebugPrintFunction]: [NULL] or the
    [DebugPrint] function of this file. *)
Inductive PaUtilLogCallback : Type :=
  | NullCallback
  | DebugPrint.

(** What a logger constructor or destructor emits: a line on the log, or a
    call of the backend's [PaUtil_SetDebugPrintFunction]. *)
Inductive LoggerEffect : Type :=
  | LogLine (line : string)
  | SetDebugPrintFunction (cb : PaUtilLogCallback).

(** The file-level [loggerReferenceCount] and the print function the
    backend currently holds.  [loggerMutex] is held over every access, so
    a constructor or destructor is one atomic step. *)
Record LoggerState : Type := {
  loggerReferenceCount : Z;
  debugPrintFunction : PaUtilLogCallback
}.

(** Static initialisation: the count is zero, nothing is installed. *)
Definition logger_initial : LoggerState :=
  {| loggerReferenceCount := 0; debugPrintFunction := NullCallback |}.

Section Logger.

(** The width of [size_t] (32 or 64) and the backend's version text. *)
Variable size_t_bits : Z.
Variable Pa_GetVersionText : string.

Definition size_t_wrap (n : Z) : Z := n mod 2 ^ size_t_bits.

(** [PortAudioLogger::PortAudioLogger()] *)
Definition PortAudioLogger_construct (s : LoggerState)
    : LoggerState * list LoggerEffect :=
  let version := LogLine ("PortAudio version: " ++ Pa_GetVersionText) in
  let old := loggerReferenceCount s in
  let count := size_t_wrap (old + 1) in
  if old >? 0 then
    ({| loggerReferenceCount := count;
        debugPrintFunction := debugPrintFunction s |},
     [version])
  else
    ({| loggerReferenceCount := count;
        debugPrintFunction := DebugPrint |},
     [version;
      LogLine "Enabling PortAudio debug output redirection";
      SetDebugPrintFunction DebugPrint]).

(** [PortAudioLogger::~PortAudioLogger()] *)
Definition PortAudioLogger_destroy (s : LoggerState)
    : LoggerState * list LoggerEffect :=
  let count := size_t_wrap (loggerReferenceCount s - 1) in
  if count >? 0 then
    ({| loggerReferenceCount := count;
        debugPrintFunction := debugPrintFunction s |},
     [])
  else
    ({| loggerReferenceCount := count;
        debugPrintFunction := NullCallback |},
     [LogLine "Disabling PortAudio debug output redirection";
      SetDebugPrintFunction NullCallback]).

(** A program's use of the class: objects are constructed and
    destroyed. *)
Inductive LoggerOp : Type :=
  | Construct
  | Destroy.

Definition logger_step (op : LoggerOp) (s : LoggerState)
    : LoggerState * list LoggerEffect :=
  match op with
  | Construct => PortAudioLogger_construct s
  | Destroy => PortAudioLogger_destroy s
  end.

Fixpoint logger_run (ops : list LoggerOp) (s : LoggerState)
    : LoggerState * list LoggerEffect :=
  match ops with
  | [] => (s, [])
  | op :: ops' =>
      let (s1, out1) := logger_step op s in
      let (s2, out2) := logger_run ops' s1 in
      (s2, out1 ++ out2)
  end.
End Logger.

(** The number of logger objects alive after [ops], when no object is
    destroyed that was not constructed ([None] otherwise). *)
Fixpoint live_after (ops : list LoggerOp) (live : nat) : option nat :=
  match ops with
  | [] => Some live
  | Construct :: ops' => live_after ops' (S live)
  | Destroy :: ops' =>
      match live with
      | O => None
      | S live' => live_after ops' live'
      end
  end.

(** The deepest nesting [ops] reaches, started with [live] objects. *)
Fixpoint max_live (ops : list LoggerOp) (live : nat) : nat :=
  match ops with
  | [] => live
  | Construct :: ops' => Nat.max live (max_live ops' (S live))
  | Destroy :: ops' => Nat.max live (max_live ops' (Nat.pred live))
  end.

(** The calls of [PaUtil_SetDebugPrintFunction] among what was emitted. *)
Fixpoint print_function_calls (out : list LoggerEffect)
    : list PaUtilLogCallback :=
  match out with
  | [] => []
  | SetDebugPrintFunction cb :: out' => cb :: print_function_calls out'
  | LogLine _ :: out' => print_function_calls out'
  end.

(** What the count and the installed function have to do with the number of
    live loggers. *)
Definition logger_invariant (live : nat) (s : LoggerState) : Prop :=
  loggerReferenceCount s = Z.of_nat live
  /\ (debugPrintFunction s = DebugPrint <-> (0 < live)%nat).

(** *** Describing stream parameters *)

(** The fields of the block behind [hostApiSpecificStreamInfo] that the
    code names: the three of [PaUtilHostApiSpecificStreamInfoHeader], which
    every such block starts with, and those of [PaWasapiStreamInfo] that
    follow them. *)
Inductive StreamInfoField : Type :=
  | f_size
  | f_hostApiType
  | f_version
  | f_flags
  | f_channelMask
  | f_hostProcessorOutput
  | f_hostProcessorInput
  | f_threadPriority
  | f_streamCategory
  | f_streamOption.

Definition header_fields : list StreamInfoField :=
  [f_size; f_hostApiType; f_version].

Definition wasapi_body_fields : list StreamInfoField :=
  [f_flags; f_channelMask; f_hostProcessorOutput; f_hostProcessorInput;
   f_threadPriority; f_streamCategory; f_streamOption].

(** The memory the pointer refers to: at an address, the value of each
    field of the block that lives there. *)
Definition Memory : Type := Z -> StreamInfoField -> Z.

Inductive Access : Type :=
  | Load (address : Z) (field : StreamInfoField).

(** Code that works on that memory: it yields a value, the memory it
    leaves and the accesses it made, in order. *)
Definition MemM (A : Type) : Type := Memory -> A * Memory * list Access.

Definition mem_ret {A} (a : A) : MemM A := fun m => (a, m, []).

Definition mem_bind {A B} (c : MemM A) (k : A -> MemM B) : MemM B :=
  fun m =>
    let '(a, m1, t1) := c m in
    let '(b, m2, t2) := k a m1 in
    (b, m2, t1 ++ t2).

(** [pointer->field], through a pointer to const. *)
Definition load (pointer : Z) (field : StreamInfoField) : MemM Z :=
  fun m => (m pointer field, m, [Load pointer field]).

Record PaStreamParameters : Type := {
  device : Z;
  channelCount : Z;
  sampleFormat : Z;
  suggestedLatency : double;
  hostApiSpecificStreamInfo : Z
}.

(** How values reach a stream.  The [Get...String] functions format a
    value with [EnumToString] or [BitfieldToString] over tables of
    enumerators of [portaudio.h] and [pa_win_wasapi.h].  The enumerators are
    PortAudio's, and [BitfieldToString] and [Find] live in headers that are
    not modelled here, so the renderings are taken as parameters. *)
Class Renderers := {
  show_integer : Z -> string;
  show_double : double -> string;
  show_pointer : Z -> string;
  GetSampleFormatString : Z -> string;
  GetHostApiTypeIdString : Z -> string;
  GetStreamFlagsString : Z -> string;
  GetWasapiFlagsString : Z -> string;
  GetWaveFormatChannelMaskString : Z -> string;
  GetWasapiThreadPriorityString : Z -> string;
  GetWasapiStreamCategoryString : Z -> string;
  GetWasapiStreamOptionString : Z -> string
}.

Section Describe.
Context `{PortAudioHeader} `{Renderers}.
Local Open Scope string_scope.
Local Notation "x <- c ;; k" := (mem_bind c (fun x => k))
  (at level 61, c at next level, right associativity).

Definition DescribeStreamParameters (parameters : PaStreamParameters)
    : MemM string :=
  let result :=
    "PortAudio stream parameters for device index "
    ++ show_integer (device parameters) ++ ", "
    ++ show_integer (channelCount parameters)
    ++ " channels, sample format "
    ++ GetSampleFormatString (sampleFormat parameters)
    ++ ", suggested latency "
    ++ show_double (suggestedLatency parameters) ++ "s" in
  let info := hostApiSpecificStreamInfo parameters in
  if (info =? 0)%Z then mem_ret result
  else
    size <- load info f_size ;;
    type <- load info f_hostApiType ;;
    version <- load info f_version ;;
    let result :=
      result ++ ", host API specific: " ++ show_integer size
      ++ " bytes structure, type " ++ GetHostApiTypeIdString type
      ++ ", version " ++ show_integer version in
    type' <- load info f_hostApiType ;;
    if (type' =? paWASAPI)%Z then
      flags <- load info f_flags ;;
      channelMask <- load info f_channelMask ;;
      hostProcessorOutput <- load info f_hostProcessorOutput ;;
      hostProcessorInput <- load info f_hostProcessorInput ;;
      threadPriority <- load info f_threadPriority ;;
      streamCategory <- load info f_streamCategory ;;
      streamOption <- load info f_streamOption ;;
      mem_ret
        (result ++ ", WASAPI specific: flags "
         ++ GetWasapiFlagsString flags ++ ", channel mask "
         ++ GetWaveFormatChannelMaskString channelMask
         ++ ", host processor output "
         ++ show_pointer hostProcessorOutput
         ++ ", host processor input "
         ++ show_pointer hostProcessorInput ++ ", thread priority "
         ++ GetWasapiThreadPriorityString threadPriority
         ++ ", stream category "
         ++ GetWasapiStreamCategoryString streamCategory
         ++ ", stream option "
         ++ GetWasapiStreamOptionString streamOption)
    else mem_ret result.
End Describe.

(** *** Opening, starting, stopping and closing a stream *)

(** [Stream] and [ActiveStream] are [std::unique_ptr]s of a [PaStream]:
    the pointer they own, closed respectively stopped on destruction.  A
    call of the backend is one step here: how long [Pa_StopStream] or
    [Pa_CloseStream] blocks, and what the audio thread does meanwhile, is
    the backend's and has no part in the model. *)
Record Stream : Type := { stream_get : Z }.
Record ActiveStream : Type := { active_stream_get : Z }.

(** The backend, with a state of its own.  [Pa_OpenStream] answers with its
    status and with what it stored through its first argument, if it
    stored anything. *)
Record Backend (B : Type) : Type := {
  Pa_OpenStream :
    option PaStreamParameters -> option PaStreamParameters -> double ->
    Z -> Z -> Z -> Z -> B -> PaError * option Z * B;
  Pa_CloseStream : Z -> B -> PaError * B;
  Pa_StartStream : Z -> B -> PaError * B;
  Pa_StopStream : Z -> B -> PaError * B;
  Pa_GetErrorText : PaError -> string
}.
Arguments Pa_OpenStream {B}.
Arguments Pa_CloseStream {B}.
Arguments Pa_StartStream {B}.
Arguments Pa_StopStream {B}.
Arguments Pa_GetErrorText {B}.

Section Streams.
Context `{PortAudioHeader} `{Renderers}.
Context {B : Type} (backend : Backend B).
Local Open Scope string_scope.

(** The text of a possibly null parameter block, as [OpenStream] logs
    it. *)
Definition describe_optional (parameters : option PaStreamParameters)
    (m : Memory) : string :=
  match parameters with
  | None => "none"
  | Some p => fst (fst (DescribeStreamParameters p m))
  end.

(** [StreamDeleter::operator()], declared [throw()].  The result is what
    the call does, the backend's next state and the lines logged. *)
Definition StreamDeleter (stream : Z) (b : B)
    : Outcome unit * B * list string :=
  let line := "Closing PortAudio stream " ++ show_pointer stream in
  let (error, b1) := Pa_CloseStream backend stream b in
  if negb (error =? paNoError)%Z then
    (Returns tt, b1,
     [line;
      "Unable to close PortAudio stream: "
      ++ Pa_GetErrorText backend error])
  else (Returns tt, b1, [line]).

Definition OpenStream (inputParameters outputParameters
      : option PaStreamParameters)
    (sampleRate : double)
    (framesPerBuffer streamFlags streamCallback userData : Z)
    (m : Memory) (b : B)
    : Outcome Stream * B * list string :=
  let lines :=
    ["Opening PortAudio stream with...";
     "...input parameters: " ++ describe_optional inputParameters m;
     "...output parameters: " ++ describe_optional outputParameters m;
     "...sample rate: " ++ show_double sampleRate ++ " Hz";
     "...frames per buffer: " ++ show_integer framesPerBuffer;
     "...stream flags: " ++ GetStreamFlagsString streamFlags;
     "...stream callback: " ++ show_pointer streamCallback
     ++ " (user data " ++ show_pointer userData ++ ")"] in
  let '(error, stored, b1) :=
    Pa_OpenStream backend inputParameters outputParameters sampleRate
      framesPerBuffer streamFlags streamCallback userData b in
  let stream := match stored with Some p => p | None => 0%Z end in
  if negb (error =? paNoError)%Z then
    (Throws ("unable to open PortAudio stream: "
             ++ Pa_GetErrorText backend error), b1, lines)
  else if (stream =? 0)%Z then
    (Throws "Pa_OpenStream() unexpectedly returned null", b1, lines)
  else
    (Returns {| stream_get := stream |}, b1,
     app lines ["PortAudio stream opened: " ++ show_pointer stream]).

(** [StreamStopper::operator()], declared [throw()]. *)
Definition StreamStopper (stream : Z) (b : B)
    : Outcome unit * B * list string :=
  let line := "Stopping PortAudio stream " ++ show_pointer stream in
  let (error, b1) := Pa_StopStream backend stream b in
  if negb (error =? paNoError)%Z then
    (Returns tt, b1,
     [line;
      "Unable to stop PortAudio stream: "
      ++ Pa_GetErrorText backend error])
  else (Returns tt, b1, [line]).

Definition StartStream (stream : Z) (b : B)
    : Outcome ActiveStream * B * list string :=
  let line := "Starting PortAudio stream " ++ show_pointer stream in
  let (error, b1) := Pa_StartStream backend stream b in
  if negb (error =? paNoError)%Z then
    (Throws ("unable to start PortAudio stream: "
             ++ Pa_GetErrorText backend error), b1, [line])
  else
    (Returns {| active_stream_get := stream |}, b1,
     [line; "PortAudio stream started"]).
End Streams.

(** *** The vocabulary of the statements about [DescribeStreamParameters] *)

Section DescribeVocabulary.
Context `{Renderers}.
Local Open Scope string_scope.

(** The part of the description that comes from the parameters proper. *)
Definition base_description (parameters : PaStreamParameters) : string :=
  "PortAudio stream parameters for device index "
  ++ show_integer (device parameters) ++ ", "
  ++ show_integer (channelCount parameters) ++ " channels, sample format "
  ++ GetSampleFormatString (sampleFormat parameters)
  ++ ", suggested latency "
  ++ show_double (suggestedLatency parameters) ++ "s".

(** The host-API-specific section: the rendering of the header of the block
    at [info]. *)
Definition header_section (m : Memory) (info : Z) : string :=
  ", host API specific: " ++ show_integer (m info f_size)
  ++ " bytes structure, type "
  ++ GetHostApiTypeIdString (m info f_hostApiType)
  ++ ", version " ++ show_integer (m info f_version).

(** The WASAPI-specific section: the rendering of the body of the block at
    [info], read as a [PaWasapiStreamInfo]. *)
Definition wasapi_section (m : Memory) (info : Z) : string :=
  ", WASAPI specific: flags " ++ GetWasapiFlagsString (m info f_flags)
  ++ ", channel mask "
  ++ GetWaveFormatChannelMaskString (m info f_channelMask)
  ++ ", host processor output "
  ++ show_pointer (m info f_hostProcessorOutput)
  ++ ", host processor input "
  ++ show_pointer (m info f_hostProcessorInput)
  ++ ", thread priority "
  ++ GetWasapiThreadPriorityString (m info f_threadPriority)
  ++ ", stream category "
  ++ GetWasapiStreamCategoryString (m info f_streamCategory)
  ++ ", stream option "
  ++ GetWasapiStreamOptionString (m info f_streamOption).
End DescribeVocabulary.

(** The fields an access list touches. *)
Definition accessed_fields (accesses : list Access) : list StreamInfoField :=
  map (fun a => match a with Load _ field => field end) accesses.

(** The addresses an access list touches. *)
Definition accessed_addresses (accesses : list Access) : list Z :=
  map (fun a => match a with Load address _ => address end) accesses.

(** *** A backend and renderings for concrete runs *)

(** Renderings that keep only the kind of the value. *)
Definition kind_renderers : Renderers := {|
  show_integer := fun _ => "<integer>"%string;
  show_double := fun _ => "<double>"%string;
  show_pointer := fun _ => "<pointer>"%string;
  GetSampleFormatString := fun _ => "<sample format>"%string;
  GetHostApiTypeIdString := fun _ => "<host API type>"%string;
  GetStreamFlagsString := fun _ => "<stream flags>"%string;
  GetWasapiFlagsString := fun _ => "<WASAPI flags>"%string;
  GetWaveFormatChannelMaskString := fun _ => "<channel mask>"%string;
  GetWasapiThreadPriorityString := fun _ => "<thread priority>"%string;
  GetWasapiStreamCategoryString := fun _ => "<stream category>"%string;
  GetWasapiStreamOptionString := fun _ => "<stream option>"%string
|}.

(** A backend that answers every call with the status [error], stores
    [stored] when asked to open a stream, and counts the calls made. *)
Definition scripted_backend (error : PaError) (stored : option Z)
    : Backend nat := {|
  Pa_OpenStream := fun _ _ _ _ _ _ _ calls => (error, stored, S calls);
  Pa_CloseStream := fun _ calls => (error, S calls);
  Pa_StartStream := fun _ calls => (error, S calls);
  Pa_StopStream := fun _ calls => (error, S calls);
  Pa_GetErrorText := fun _ => "<error text>"%string
|}.

(** A memory with the same block at every address: a header of type
    [hostApiType], every other field zero. *)
Definition uniform_memory (hostApiType : Z) : Memory :=
  fun _ field =>
    match field with
    | f_size => 48
    | f_hostApiType => hostApiType
    | f_version => 1
    | _ => 0
    end.

End PortAudio.

(** ** FlexASIOTest/test.cpp: the exerciser *)

Module FlexASIOTest.
Export ErrorString.

(** *** The structures of asio.h the exerciser fills or reads *)

Record ASIODriverInfo : Type := {
  asioVersion : Z;
  driverVersion : Z;
  name : string;
  errorMessage : string;
  sysRef : Z
}.

Record BufferSize : Type := {
  min : Z;
  max : Z;
  preferred : Z;
  granularity : Z
}.

Record ASIOChannelInfo : Type := {
  channel : Z;
  channel_isInput : bool;
  isActive : Z;
  channelGroup : Z;
  type : Z;
  channel_name : string
}.

(** One entry of a buffer-creation request.  The [buffers] pair, which the
    driver fills and the exerciser never reads, is left out. *)
Record ASIOBufferInfo : Type := {
  isInput : bool;
  channelNum : Z
}.

(** The four callbacks handed to the driver, by what each returns. *)
Record ASIOCallbacks : Type := {
  bufferSwitch : Z -> bool -> unit;
  sampleRateDidChange : double -> unit;
  asioMessage : Z -> Z -> Z -> Z -> Z;
  bufferSwitchTimeInfo : Z -> Z -> bool -> Z
}.

(** *** The driver under test

    The driver has a state of its own, of a type [D]; each entry point of
    the ASIO host library takes that state, and answers with an error code,
    with the values left in the variables it was given to fill, and with
    the driver's next state. *)
Record Driver (D : Type) : Type := {
  ASIOInit : ASIODriverInfo -> D -> ASIOError * ASIODriverInfo * D;
  ASIOGetChannels : D -> ASIOError * (Z * Z) * D;
  ASIOGetBufferSize : D -> ASIOError * BufferSize * D;
  ASIOGetSampleRate : D -> ASIOError * double * D;
  ASIOCanSampleRate : double -> D -> ASIOError * D;
  ASIOSetSampleRate : double -> D -> ASIOError * D;
  ASIOOutputReady : D -> ASIOError * D;
  ASIOGetChannelInfo : Z -> bool -> D -> ASIOError * ASIOChannelInfo * D;
  ASIOCreateBuffers :
    list ASIOBufferInfo -> Z -> Z -> ASIOCallbacks -> D -> ASIOError * D
}.
Arguments ASIOInit {D}.
Arguments ASIOGetChannels {D}.
Arguments ASIOGetBufferSize {D}.
Arguments ASIOGetSampleRate {D}.
Arguments ASIOCanSampleRate {D}.
Arguments ASIOSetSampleRate {D}.
Arguments ASIOOutputReady {D}.
Arguments ASIOGetChannelInfo {D}.
Arguments ASIOCreateBuffers {D}.

(** A call the exerciser made, with its arguments and what came back. *)
Inductive Event : Type :=
  | CallInit (info : ASIODriverInfo) (error : ASIOError)
  | CallGetChannels (error : ASIOError) (numInput numOutput : Z)
  | CallGetBufferSize (error : ASIOError) (bufferSize : BufferSize)
  | CallGetSampleRate (error : ASIOError) (sampleRate : double)
  | CallCanSampleRate (sampleRate : double) (error : ASIOError)
  | CallSetSampleRate (sampleRate : double) (error : ASIOError)
  | CallOutputReady (error : ASIOError)
  | CallGetChannelInfo (channel : Z) (isInput : bool) (error : ASIOError)
  | CallCreateBuffers (bufferInfos : list ASIOBufferInfo)
      (numChannels bufferSize : Z) (callbacks : ASIOCallbacks)
      (error : ASIOError).

(** The exerciser's code: from the driver's state to a result, the driver's
    next state and the calls made, in order. *)
Definition Test (D A : Type) : Type := D -> A * D * list Event.

Definition ret {D A} (a : A) : Test D A := fun d => (a, d, []).

Definition bind {D A B} (c : Test D A) (k : A -> Test D B) : Test D B :=
  fun d =>
    let '(a, d1, t1) := c d in
    let '(b, d2, t2) := k a d1 in
    (b, d2, t1 ++ t2).

Declare Scope test_scope.
Delimit Scope test_scope with test.
Notation "x <- c ;; k" := (bind c (fun x => k))
  (at level 61, c at next level, right associativity) : test_scope.
Notation "c ;; k" := (bind c (fun _ => k))
  (at level 61, right associativity) : test_scope.

Definition result_of {D A} (r : A * D * list Event) : A := fst (fst r).
Definition state_of {D A} (r : A * D * list Event) : D := snd (fst r).
Definition calls_of {D A} (r : A * D * list Event) : list Event := snd r.
Arguments result_of {D A} !r /.
Arguments state_of {D A} !r /.
Arguments calls_of {D A} !r /.

(** [ASIODriverInfo asioDriverInfo = { 0 }; asioDriverInfo.asioVersion = 2;]
    as [Init] hands it to the driver. *)
Definition Init_asioDriverInfo : ASIODriverInfo :=
  {| asioVersion := 2; driverVersion := 0; name := EmptyString;
     errorMessage := EmptyString; sysRef := 0 |}.

Section Exerciser.
Context `{AsioHeader}.
Context {D : Type} (driver : Driver D).
Local Open Scope test_scope.

(** [PrintError] writes the name of the code to the standard output,
    which is not modelled, and hands the code back. *)
Definition PrintError (error : ASIOError) : ASIOError := error.

Definition Init : Test D (option ASIODriverInfo) := fun d =>
  let asioDriverInfo := Init_asioDriverInfo in
  let '(error, asioDriverInfo', d1) := ASIOInit driver asioDriverInfo d in
  let initError := PrintError error in
  (if negb (initError =? ASE_OK) then None else Some asioDriverInfo',
   d1, [CallInit asioDriverInfo initError]).

Definition GetChannels : Test D (Z * Z) := fun d =>
  let '(error, (numInputChannels, numOutputChannels), d1) :=
    ASIOGetChannels driver d in
  let error := PrintError error in
  (if negb (error =? ASE_OK) then (0, 0)
   else (numInputChannels, numOutputChannels),
   d1, [CallGetChannels error numInputChannels numOutputChannels]).

Definition GetBufferSize : Test D (option BufferSize) := fun d =>
  let '(error, bufferSize, d1) := ASIOGetBufferSize driver d in
  let error := PrintError error in
  (if negb (error =? ASE_OK) then None else Some bufferSize,
   d1, [CallGetBufferSize error bufferSize]).

Definition GetSampleRate : Test D (option double) := fun d =>
  let '(error, sampleRate, d1) := ASIOGetSampleRate driver d in
  let error := PrintError error in
  (if negb (error =? ASE_OK) then None else Some sampleRate,
   d1, [CallGetSampleRate error sampleRate]).

Definition CanSampleRate (sampleRate : double) : Test D bool := fun d =>
  let '(error, d1) := ASIOCanSampleRate driver sampleRate d in
  (PrintError error =? ASE_OK, d1, [CallCanSampleRate sampleRate error]).

Definition SetSampleRate (sampleRate : double) : Test D bool := fun d =>
  let '(error, d1) := ASIOSetSampleRate driver sampleRate d in
  (PrintError error =? ASE_OK, d1, [CallSetSampleRate sampleRate error]).

Definition OutputReady : Test D bool := fun d =>
  let '(error, d1) := ASIOOutputReady driver d in
  (PrintError error =? ASE_OK, d1, [CallOutputReady error]).

Definition GetChannelInfo (channel : Z) (isInput : bool)
    : Test D (option ASIOChannelInfo) := fun d =>
  let '(error, channelInfo, d1) :=
    ASIOGetChannelInfo driver channel isInput d in
  (if negb (PrintError error =? ASE_OK) then None else Some channelInfo,
   d1, [CallGetChannelInfo channel isInput error]).

(** [for (long channel = from; channel < count; ++channel)
       GetChannelInfo(channel, isInput);]
    [fuel] bounds the number of iterations. *)
Fixpoint GetAllChannelInfo_loop (fuel : nat) (channel count : Z)
    (isInput : bool) : Test D unit :=
  match fuel with
  | O => ret tt
  | S fuel' =>
      if channel <? count then
        GetChannelInfo channel isInput ;;
        GetAllChannelInfo_loop fuel' (channel + 1) count isInput
      else ret tt
  end.

Definition GetAllChannelInfo (ioChannelCounts : Z * Z) : Test D unit :=
  GetAllChannelInfo_loop (Z.to_nat (fst ioChannelCounts)) 0
    (fst ioChannelCounts) true ;;
  GetAllChannelInfo_loop (Z.to_nat (snd ioChannelCounts)) 0
    (snd ioChannelCounts) false.

(** [for (long channel = from; channel < count; ++channel) {
       auto& bufferInfo = bufferInfos.emplace_back();
       bufferInfo.isInput = isInput; bufferInfo.channelNum = channel; }] *)
Fixpoint CreateBuffers_loop (fuel : nat) (channel count : Z)
    (isInput : bool) (bufferInfos : list ASIOBufferInfo)
    : list ASIOBufferInfo :=
  match fuel with
  | O => bufferInfos
  | S fuel' =>
      if channel <? count then
        CreateBuffers_loop fuel' (channel + 1) count isInput
          (bufferInfos
           ++ [{| isInput := isInput; channelNum := channel |}])
      else bufferInfos
  end.

(** The request [CreateBuffers] builds before it calls the driver. *)
Definition CreateBuffers_request (ioChannelCounts : Z * Z)
    : list ASIOBufferInfo :=
  let bufferInfos :=
    CreateBuffers_loop (Z.to_nat (fst ioChannelCounts)) 0
      (fst ioChannelCounts) true [] in
  CreateBuffers_loop (Z.to_nat (snd ioChannelCounts)) 0
    (snd ioChannelCounts) false bufferInfos.

Definition CreateBuffers (ioChannelCounts : Z * Z) (bufferSize : Z)
    (callbacks : ASIOCallbacks) : Test D (list ASIOBufferInfo) := fun d =>
  let bufferInfos := CreateBuffers_request ioChannelCounts in
  let numChannels := Z.of_nat (List.length bufferInfos) in
  let '(error, d1) :=
    ASIOCreateBuffers driver bufferInfos numChannels bufferSize
      callbacks d in
  (if negb (PrintError error =? ASE_OK) then [] else bufferInfos,
   d1,
   [CallCreateBuffers bufferInfos numChannels bufferSize callbacks
      error]).

(** [CanSampleRate(sampleRate) && SetSampleRate(sampleRate)
     && GetSampleRate() == sampleRate], for an [int sampleRate]. *)
Definition Run_checkSampleRate (sampleRate : Z) : Test D bool :=
  can <- CanSampleRate (double_of_int sampleRate) ;;
  if can then
    set <- SetSampleRate (double_of_int sampleRate) ;;
    if set then
      current <- GetSampleRate ;;
      ret match current with
          | Some rate => double_eqb rate (double_of_int sampleRate)
          | None => false
          end
    else ret false
  else ret false.

(** The [for] loop of [Run] over the sample rates: [false] when its body
    executes [return false], [true] when the loop runs to its end. *)
Fixpoint Run_sampleRates (sampleRates : list Z) : Test D bool :=
  match sampleRates with
  | [] => ret true
  | sampleRate :: rest =>
      ok <- Run_checkSampleRate sampleRate ;;
      if negb ok && (sampleRate =? 48000) then ret false
      else Run_sampleRates rest
  end.

(** The callbacks [Run] hands over: four lambdas with empty bodies, the
    last two returning [0] and [nullptr]. *)
Definition Run_callbacks : ASIOCallbacks := {|
  bufferSwitch := fun _ _ => tt;
  sampleRateDidChange := fun _ => tt;
  asioMessage := fun _ _ _ _ => 0;
  bufferSwitchTimeInfo := fun _ _ _ => 0
|}.

Definition Run : Test D bool :=
  init <- Init ;;
  match init with
  | None => ret false
  | Some _ =>
  ioChannelCounts <- GetChannels ;;
  if (fst ioChannelCounts =? 0) && (snd ioChannelCounts =? 0)
  then ret false
  else
  bufferSize <- GetBufferSize ;;
  match bufferSize with
  | None => ret false
  | Some bufferSize =>
  GetSampleRate ;;
  negotiated <- Run_sampleRates [44100; 96000; 192000; 48000] ;;
  if negb negotiated then ret false
  else
  OutputReady ;;
  GetAllChannelInfo ioChannelCounts ;;
  buffers <-
    CreateBuffers ioChannelCounts (preferred bufferSize) Run_callbacks ;;
  if (List.length buffers =? 0)%nat then ret false
  else
  GetSampleRate ;;
  GetAllChannelInfo ioChannelCounts ;;
  ret true
  end
  end.
End Exerciser.

(** *** The vocabulary of the statements about the exerciser *)

(** [count] consecutive channel numbers, the first one [from]. *)
Fixpoint channels_from (from : Z) (count : nat) : list Z :=
  match count with
  | O => []
  | S count' => from :: channels_from (from + 1) count'
  end.

(** The entries for the channels [0 .. count - 1] of one direction, in
    increasing order. *)
Definition requested (isInput : bool) (count : Z) : list ASIOBufferInfo :=
  map (fun channel => {| isInput := isInput; channelNum := channel |})
    (channels_from 0 (Z.to_nat count)).

(** A call without what came back from it. *)
Inductive Request : Type :=
| ReqInit
| ReqGetChannels
| ReqGetBufferSize
| ReqGetSampleRate
| ReqCanSampleRate (sampleRate : double)
| ReqSetSampleRate (sampleRate : double)
| ReqOutputReady
| ReqGetChannelInfo (channel : Z) (isInput : bool)
| ReqCreateBuffers (bufferInfos : list ASIOBufferInfo)
  (numChannels bufferSize : Z) (callbacks : ASIOCallbacks).

Definition request_of (ev : Event) : Request :=
  match ev with
  | CallInit _ _ => ReqInit
  | CallGetChannels _ _ _ => ReqGetChannels
  | CallGetBufferSize _ _ => ReqGetBufferSize
  | CallGetSampleRate _ _ => ReqGetSampleRate
  | CallCanSampleRate sampleRate _ => ReqCanSampleRate sampleRate
  | CallSetSampleRate sampleRate _ => ReqSetSampleRate sampleRate
  | CallOutputReady _ => ReqOutputReady
  | CallGetChannelInfo channel isInput _ => ReqGetChannelInfo channel isInput
  | CallCreateBuffers bufferInfos numChannels bufferSize callbacks _ =>
      ReqCreateBuffers bufferInfos numChannels bufferSize callbacks
  end.

(** The error code a call came back with. *)
Definition error_of (ev : Event) : ASIOError :=
  match ev with
  | CallInit _ error
  | CallGetChannels error _ _
  | CallGetBufferSize error _
  | CallGetSampleRate error _
  | CallCanSampleRate _ error
  | CallSetSampleRate _ error
  | CallOutputReady error
  | CallGetChannelInfo _ _ error
  | CallCreateBuffers _ _ _ _ error => error
  end.

(** The calls that query, probe or set the sample rate. *)
Definition is_rate_request (request : Request) : Prop :=
  match request with
  | ReqGetSampleRate | ReqCanSampleRate _ | ReqSetSampleRate _ => True
  | _ => False
  end.


(** The three calls that check one sample rate, in order. *)
Definition check_requests (sampleRate : Z) : list Request :=
  [ReqCanSampleRate (double_of_int sampleRate);
   ReqSetSampleRate (double_of_int sampleRate);
   ReqGetSampleRate].

(** A channel-info query for every input channel, then for every output
    channel, each direction in increasing order. *)
Definition channel_info_requests (ioChannelCounts : Z * Z) : list Request :=
  map (fun channel => ReqGetChannelInfo channel true)
    (channels_from 0 (Z.to_nat (fst ioChannelCounts)))
  ++ map (fun channel => ReqGetChannelInfo channel false)
       (channels_from 0 (Z.to_nat (snd ioChannelCounts))).

(** The calls of a complete run, in order: [rates] are the calls of the rate
    negotiation, [ioChannelCounts] the channel counts in use and
    [bufferSize] the buffer size asked for. *)
Definition control_path (rates : list Request) (ioChannelCounts : Z * Z)
    (bufferSize : Z) : list Request :=
  [ReqInit; ReqGetChannels; ReqGetBufferSize; ReqGetSampleRate]
  ++ rates
  ++ [ReqOutputReady]
  ++ channel_info_requests ioChannelCounts
  ++ [ReqCreateBuffers
        (requested true (fst ioChannelCounts)
         ++ requested false (snd ioChannelCounts))
        (Z.max 0 (fst ioChannelCounts) + Z.max 0 (snd ioChannelCounts))
        bufferSize Run_callbacks]
  ++ [ReqGetSampleRate]
  ++ channel_info_requests ioChannelCounts.

Section RunVocabulary.
Context `{AsioHeader}.
Context {D : Type} (driver : Driver D).

(** The check of one sample rate succeeds from the state [d] and leaves the
    driver in [d']: the driver answers [ASE_OK] to the probe, then to the
    set, then to the query, and the rate it then reports equals the one
    asked for. *)
Definition check_succeeds (sampleRate : Z) (d d' : D) : Prop :=
  exists (d1 d2 : D) (rate : double),
    ASIOCanSampleRate driver (double_of_int sampleRate) d = (ASE_OK, d1)
    /\ ASIOSetSampleRate driver (double_of_int sampleRate) d1 = (ASE_OK, d2)
    /\ ASIOGetSampleRate driver d2 = (ASE_OK, rate, d')
    /\ double_eqb rate (double_of_int sampleRate) = true.

(** The state in which the loop of [Run] reaches the rate 48000: the one left
    by the checks of 44100, 96000 and 192000, whatever their results. *)
Definition state_before_48000 (d : D) : D :=
  state_of
    (Run_checkSampleRate driver 192000
       (state_of
          (Run_checkSampleRate driver 96000
             (state_of (Run_checkSampleRate driver 44100 d))))).



(** The state in which a run started in [d] enters the loop over the sample
    rates, if it gets there: after the initialization, the channel query,
    the buffer-size query and the first query of the sample rate. *)
Definition state_at_negotiation (d : D) : D :=
  state_of
    (GetSampleRate driver
       (state_of
          (GetBufferSize driver
             (state_of (GetChannels driver (state_of (Init driver d))))))).

(** The driver lets a run started in [d] pass: it answers [ASE_OK] to the
    initialization, to the channel query, reporting a channel, to the
    buffer-size query, to the three calls that check 48000, and to the
    buffer creation. *)
Definition Run_passes (d : D) : Prop :=
  exists (info : ASIODriverInfo) (d1 : D) (numInput numOutput : Z) (d2 : D)
         (bufferSize : BufferSize) (d3 d4 d5 d6 : D),
    ASIOInit driver Init_asioDriverInfo d = (ASE_OK, info, d1)
    /\ ASIOGetChannels driver d1 = (ASE_OK, (numInput, numOutput), d2)
    /\ (0 < numInput \/ 0 < numOutput)
    /\ ASIOGetBufferSize driver d2 = (ASE_OK, bufferSize, d3)
    /\ check_succeeds 48000
         (state_before_48000 (state_of (GetSampleRate driver d3))) d4
    /\ state_of
         (GetAllChannelInfo driver (numInput, numOutput)
            (state_of (OutputReady driver d4))) = d5
    /\ ASIOCreateBuffers driver
         (CreateBuffers_request (numInput, numOutput))
         (Z.of_nat
            (List.length (CreateBuffers_request (numInput, numOutput))))
         (preferred bufferSize) Run_callbacks d5 = (ASE_OK, d6).
End RunVocabulary.

(** *** Drivers for concrete runs *)

Section SampleDrivers.
Context `{AsioHeader}.

(** A rate at or below [cap], as a driver capped at [cap] supports it. *)
Definition at_most (cap : Z) (sampleRate : double) : bool :=
  match sampleRate with
  | Finite q => Qle_bool q (inject_Z cap)
  | _ => false
  end.

(** A driver with the given channel counts that supports the sample rates
    up to [cap].  Its state is its current sample rate.  It answers
    [ASE_NotPresent] to [ASIOOutputReady], [ASE_NoClock] to a rate it does
    not support, and [ASE_OK] to everything else. *)
Definition capped_driver (ioChannelCounts : Z * Z) (cap : Z)
    : Driver double := {|
  ASIOInit := fun info rate => (ASE_OK, info, rate);
  ASIOGetChannels := fun rate => (ASE_OK, ioChannelCounts, rate);
  ASIOGetBufferSize := fun rate =>
    (ASE_OK,
     {| min := 64; max := 8192; preferred := 512; granularity := 64 |},
     rate);
  ASIOGetSampleRate := fun rate => (ASE_OK, rate, rate);
  ASIOCanSampleRate := fun sampleRate rate =>
    (if at_most cap sampleRate then ASE_OK else ASE_NoClock, rate);
  ASIOSetSampleRate := fun sampleRate rate =>
    if at_most cap sampleRate then (ASE_OK, sampleRate)
    else (ASE_NoClock, rate);
  ASIOOutputReady := fun rate => (ASE_NotPresent, rate);
  ASIOGetChannelInfo := fun channel isInput rate =>
    (ASE_OK,
     {| channel := channel; channel_isInput := isInput; isActive := 0;
        channelGroup := 0; type := 19; channel_name := EmptyString |},
     rate);
  ASIOCreateBuffers := fun _ _ _ _ rate => (ASE_OK, rate)
|}.

End SampleDrivers.

End FlexASIOTest.

(** ** FlexASIOUtil/portaudio.cpp: the debug print function *)

Module DebugOutput.

(** [isspace] in the "C" locale, the one a program starts in: the space and
    the controls from [\t] to [\r].  A [char] of the upper half is no
    space. *)
Definition isspace (c : Ascii.ascii) : bool :=
  let code := Ascii.nat_of_ascii c in
  (code =? 32)%nat || ((9 <=? code) && (code <=? 13))%nat.

(** [while (!logline.empty() && isspace(logline.back()))
       logline.remove_suffix(1);]
    on the characters of the [std::string_view]; [fuel] bounds the number of
    iterations. *)
Fixpoint DebugPrint_loop (fuel : nat) (logline : list Ascii.ascii)
    : list Ascii.ascii :=
  match fuel with
  | O => logline
  | S fuel' =>
      match logline with
      | [] => logline
      | first :: _ =>
          if isspace (last logline first)
          then DebugPrint_loop fuel' (removelast logline)
          else logline
      end
  end.

(** The characters [DebugPrint] keeps of the line it is given. *)
Definition DebugPrint_trim (log : string) : list Ascii.ascii :=
  let logline := list_ascii_of_string log in
  DebugPrint_loop (List.length logline) logline.

(** [DebugPrint], by the lines it sends to the log. *)
Definition DebugPrint (log : string) : list string :=
  [("[PortAudio] " ++ string_of_list_ascii (DebugPrint_trim log))%string].

(** A line that does not end in a space: it is empty or its last character
    is no space. *)
Definition ends_clean (line : list Ascii.ascii) : Prop :=
  line = [] \/ exists front c, line = front ++ [c] /\ isspace c = false.

End DebugOutput.

(** ** FlexASIOUtil/portaudio.cpp: wave formats *)

Module WaveFormat.

(** *** The rendering of a [GUID] *)

Record GUID : Type := {
  Data1 : Z;
  Data2 : Z;
  Data3 : Z;
  Data4 : list Z
}.

(** One upper-case hexadecimal digit, as [%X] prints it. *)
Definition hex_digit (d : Z) : Ascii.ascii :=
  match d with
  | 0 => "0" | 1 => "1" | 2 => "2" | 3 => "3"
  | 4 => "4" | 5 => "5" | 6 => "6" | 7 => "7"
  | 8 => "8" | 9 => "9" | 10 => "A" | 11 => "B"
  | 12 => "C" | 13 => "D" | 14 => "E" | _ => "F"
  end%char.

(** The hexadecimal digits of [value], the least significant first, at
    least one and no leading zero; [fuel] bounds their number. *)
Fixpoint hex_digits (fuel : nat) (value : Z) : list Z :=
  match fuel with
  | O => []
  | S fuel' =>
      value mod 16
      :: (if value / 16 =? 0 then [] else hex_digits fuel' (value / 16))
  end.

(** The conversion [%0<width>X] of [printf] for an unsigned value of at
    most 64 bits: its digits, with zeros in front up to [width]. *)
Definition printf_0X (width : nat) (value : Z) : list Ascii.ascii :=
  let digits := rev (map hex_digit (hex_digits 16 value)) in
  repeat "0"%char (width - List.length digits) ++ digits.

(** [guid.Data4[i]] *)
Definition Data4_at (guid : GUID) (i : nat) : Z := nth i (Data4 guid) 0.

(** The text [snprintf] is asked to write for
    ["{%08X-%04X-%04X-%02X%02X-%02X%02X%02X%02X%02X%02X}"]. *)
Definition guid_format (guid : GUID) : list Ascii.ascii :=
  ["{"%char] ++ printf_0X 8 (Data1 guid)
  ++ ["-"%char] ++ printf_0X 4 (Data2 guid)
  ++ ["-"%char] ++ printf_0X 4 (Data3 guid)
  ++ ["-"%char] ++ printf_0X 2 (Data4_at guid 0)
  ++ printf_0X 2 (Data4_at guid 1)
  ++ ["-"%char] ++ printf_0X 2 (Data4_at guid 2)
  ++ printf_0X 2 (Data4_at guid 3)
  ++ printf_0X 2 (Data4_at guid 4)
  ++ printf_0X 2 (Data4_at guid 5)
  ++ printf_0X 2 (Data4_at guid 6)
  ++ printf_0X 2 (Data4_at guid 7)
  ++ ["}"%char].

(** The lambda [GetWaveSubFormatString] renders an unknown sub-format with:
    [snprintf] into [char str[128]] keeps at most 127 characters. *)
Definition guid_to_string (guid : GUID) : string :=
  string_of_list_ascii (firstn 127 (guid_format guid)).

(** A [GUID] whose members hold values of their types: an [unsigned long]
    of 32 bits, two [unsigned short] and eight [unsigned char]. *)
Definition guid_well_typed (guid : GUID) : Prop :=
  0 <= Data1 guid < 2 ^ 32
  /\ 0 <= Data2 guid < 2 ^ 16
  /\ 0 <= Data3 guid < 2 ^ 16
  /\ List.length (Data4 guid) = 8%nat
  /\ Forall (fun byte => 0 <= byte < 2 ^ 8) (Data4 guid).

(** The value a list of hexadecimal digits, least significant first,
    stands for. *)
Fixpoint digits_value (digits : list Z) : Z :=
  match digits with
  | [] => 0
  | d :: rest => d + 16 * digits_value rest
  end.

(** The digit a character of [%X] output stands for. *)
Definition hex_digit_value (c : Ascii.ascii) : Z :=
  let code := Z.of_nat (Ascii.nat_of_ascii c) in
  if code <? 58 then code - 48 else code - 55.

(** The value a text of [%X] digits stands for. *)
Definition hex_value (text : list Ascii.ascii) : Z :=
  fold_left (fun value c => 16 * value + hex_digit_value c) text 0.

(** *** Describing a wave format *)

Record WAVEFORMATEX : Type := {
  wFormatTag : Z;
  nChannels : Z;
  nSamplesPerSec : Z;
  nAvgBytesPerSec : Z;
  nBlockAlign : Z;
  wBitsPerSample : Z;
  cbSize : Z
}.

Record WAVEFORMATEXTENSIBLE : Type := {
  Format : WAVEFORMATEX;
  wValidBitsPerSample : Z;
  dwChannelMask : Z;
  SubFormat : GUID
}.

(** [WAVE_FORMAT_EXTENSIBLE] is a macro of the Windows SDK ([mmreg.h]), and
    the three [Get...String] functions format a value over tables of such
    macros with [EnumToString] and [BitfieldToString]: they are taken as
    parameters, as is the printing of an integer. *)
Class WaveHeader := {
  WAVE_FORMAT_EXTENSIBLE : Z;
  show_number : Z -> string;
  GetWaveFormatTagString : Z -> string;
  GetWaveFormatChannelMaskString : Z -> string;
  GetWaveSubFormatString : GUID -> string
}.

Section Describe.
Context `{WaveHeader}.
Local Open Scope string_scope.

Definition DescribeWaveFormat (waveFormatExtensible : WAVEFORMATEXTENSIBLE)
    : string :=
  let waveFormat := Format waveFormatExtensible in
  let result :=
    "WAVEFORMAT with format tag "
    ++ GetWaveFormatTagString (wFormatTag waveFormat) ++ ", "
    ++ show_number (nChannels waveFormat) ++ " channels, "
    ++ show_number (nSamplesPerSec waveFormat) ++ " samples/second, "
    ++ show_number (nAvgBytesPerSec waveFormat)
    ++ " average bytes/second, "
    ++ "block alignment " ++ show_number (nBlockAlign waveFormat)
    ++ " bytes, "
    ++ show_number (wBitsPerSample waveFormat) ++ " bits per sample" in
  if (wFormatTag waveFormat =? WAVE_FORMAT_EXTENSIBLE)%Z then
    result ++ ", "
    ++ show_number (wValidBitsPerSample waveFormatExtensible)
    ++ " valid bits per sample, "
    ++ "channel mask "
    ++ GetWaveFormatChannelMaskString (dwChannelMask waveFormatExtensible)
    ++ ", "
    ++ "format " ++ GetWaveSubFormatString (SubFormat waveFormatExtensible)
  else result.

(** The part of the description that comes from the [Format] member. *)
Definition describe_format (waveFormat : WAVEFORMATEX) : string :=
  "WAVEFORMAT with format tag "
  ++ GetWaveFormatTagString (wFormatTag waveFormat) ++ ", "
  ++ show_number (nChannels waveFormat) ++ " channels, "
  ++ show_number (nSamplesPerSec waveFormat) ++ " samples/second, "
  ++ show_number (nAvgBytesPerSec waveFormat) ++ " average bytes/second, "
  ++ "block alignment " ++ show_number (nBlockAlign waveFormat) ++ " bytes, "
  ++ show_number (wBitsPerSample waveFormat) ++ " bits per sample".

(** The part that comes from the members behind [Format]. *)
Definition describe_extension (waveFormatExtensible : WAVEFORMATEXTENSIBLE)
    : string :=
  ", " ++ show_number (wValidBitsPerSample waveFormatExtensible)
  ++ " valid bits per sample, channel mask "
  ++ GetWaveFormatChannelMaskString (dwChannelMask waveFormatExtensible)
  ++ ", format " ++ GetWaveSubFormatString (SubFormat waveFormatExtensible).
End Describe.

(** The tag of the Windows SDK, with renderings for concrete runs: a number
    in hexadecimal, a sub-format as the lambda of [GetWaveSubFormatString]
    renders one that has no name. *)
Definition windows_sdk : WaveHeader := {|
  WAVE_FORMAT_EXTENSIBLE := 0xFFFE;
  show_number := fun value => string_of_list_ascii (printf_0X 1 value);
  GetWaveFormatTagString :=
    fun value => string_of_list_ascii (printf_0X 4 value);
  GetWaveFormatChannelMaskString :=
    fun value => string_of_list_ascii (printf_0X 8 value);
  GetWaveSubFormatString := guid_to_string
|}.

(** [KSDATAFORMAT_SUBTYPE_PCM], {00000001-0000-0010-8000-00AA00389B71}. *)
Definition KSDATAFORMAT_SUBTYPE_PCM : GUID := {|
  Data1 := 1; Data2 := 0; Data3 := 0x10;
  Data4 := [0x80; 0x00; 0x00; 0xAA; 0x00; 0x38; 0x9B; 0x71]
|}.

End WaveFormat.

(** ** FlexASIOTest/test.cpp: the sample type renderer *)

Module SampleTypeString.

(** The sample types of [asio.h], taken as parameters like its error
    codes.  [ASIOSampleType] is a [long]. *)
Class AsioSampleTypes := {
  ASIOSTInt16MSB : Z;
  ASIOSTInt24MSB : Z;
  ASIOSTInt32MSB : Z;
  ASIOSTFloat32MSB : Z;
  ASIOSTFloat64MSB : Z;
  ASIOSTInt32MSB16 : Z;
  ASIOSTInt32MSB18 : Z;
  ASIOSTInt32MSB20 : Z;
  ASIOSTInt32MSB24 : Z;
  ASIOSTInt16LSB : Z;
  ASIOSTInt24LSB : Z;
  ASIOSTInt32LSB : Z;
  ASIOSTFloat32LSB : Z;
  ASIOSTFloat64LSB : Z;
  ASIOSTInt32LSB16 : Z;
  ASIOSTInt32LSB18 : Z;
  ASIOSTInt32LSB20 : Z;
  ASIOSTInt32LSB24 : Z;
  ASIOSTDSDInt8LSB1 : Z;
  ASIOSTDSDInt8MSB1 : Z;
  ASIOSTDSDInt8NER8 : Z
}.

(** The values of the ASIO SDK 2.3 header, used for concrete runs. *)
Definition asio_sdk_sample_types : AsioSampleTypes := {|
  ASIOSTInt16MSB := 0;
  ASIOSTInt24MSB := 1;
  ASIOSTInt32MSB := 2;
  ASIOSTFloat32MSB := 3;
  ASIOSTFloat64MSB := 4;
  ASIOSTInt32MSB16 := 8;
  ASIOSTInt32MSB18 := 9;
  ASIOSTInt32MSB20 := 10;
  ASIOSTInt32MSB24 := 11;
  ASIOSTInt16LSB := 16;
  ASIOSTInt24LSB := 17;
  ASIOSTInt32LSB := 18;
  ASIOSTFloat32LSB := 19;
  ASIOSTFloat64LSB := 20;
  ASIOSTInt32LSB16 := 24;
  ASIOSTInt32LSB18 := 25;
  ASIOSTInt32LSB20 := 26;
  ASIOSTInt32LSB24 := 27;
  ASIOSTDSDInt8LSB1 := 32;
  ASIOSTDSDInt8MSB1 := 33;
  ASIOSTDSDInt8NER8 := 40
|}.

Section WithHeader.
Context `{AsioSampleTypes}.
Local Open Scope string_scope.

(** A [switch] with one [case] for each sample type and a [default]. *)
Definition GetASIOSampleTypeString (sampleType : Z) : string :=
  if (sampleType =? ASIOSTInt16MSB)%Z then "ASIOSTInt16MSB"
  else if (sampleType =? ASIOSTInt24MSB)%Z then "ASIOSTInt24MSB"
  else if (sampleType =? ASIOSTInt32MSB)%Z then "ASIOSTInt32MSB"
  else if (sampleType =? ASIOSTFloat32MSB)%Z then "ASIOSTFloat32MSB"
  else if (sampleType =? ASIOSTFloat64MSB)%Z then "ASIOSTFloat64MSB"
  else if (sampleType =? ASIOSTInt32MSB16)%Z then "ASIOSTInt32MSB16"
  else if (sampleType =? ASIOSTInt32MSB18)%Z then "ASIOSTInt32MSB18"
  else if (sampleType =? ASIOSTInt32MSB20)%Z then "ASIOSTInt32MSB20"
  else if (sampleType =? ASIOSTInt32MSB24)%Z then "ASIOSTInt32MSB24"
  else if (sampleType =? ASIOSTInt16LSB)%Z then "ASIOSTInt16LSB"
  else if (sampleType =? ASIOSTInt24LSB)%Z then "ASIOSTInt24LSB"
  else if (sampleType =? ASIOSTInt32LSB)%Z then "ASIOSTInt32LSB"
  else if (sampleType =? ASIOSTFloat32LSB)%Z then "ASIOSTFloat32LSB"
  else if (sampleType =? ASIOSTFloat64LSB)%Z then "ASIOSTFloat64LSB"
  else if (sampleType =? ASIOSTInt32LSB16)%Z then "ASIOSTInt32LSB16"
  else if (sampleType =? ASIOSTInt32LSB18)%Z then "ASIOSTInt32LSB18"
  else if (sampleType =? ASIOSTInt32LSB20)%Z then "ASIOSTInt32LSB20"
  else if (sampleType =? ASIOSTInt32LSB24)%Z then "ASIOSTInt32LSB24"
  else if (sampleType =? ASIOSTDSDInt8LSB1)%Z then "ASIOSTDSDInt8LSB1"
  else if (sampleType =? ASIOSTDSDInt8MSB1)%Z then "ASIOSTDSDInt8MSB1"
  else if (sampleType =? ASIOSTDSDInt8NER8)%Z then "ASIOSTDSDInt8NER8"
  else "(unknown ASIO sample type)".

(** The sample types the renderer knows, each with its name. *)
Definition sample_type_table : list (Z * string) :=
  [(ASIOSTInt16MSB, "ASIOSTInt16MSB");
   (ASIOSTInt24MSB, "ASIOSTInt24MSB");
   (ASIOSTInt32MSB, "ASIOSTInt32MSB");
   (ASIOSTFloat32MSB, "ASIOSTFloat32MSB");
   (ASIOSTFloat64MSB, "ASIOSTFloat64MSB");
   (ASIOSTInt32MSB16, "ASIOSTInt32MSB16");
   (ASIOSTInt32MSB18, "ASIOSTInt32MSB18");
   (ASIOSTInt32MSB20, "ASIOSTInt32MSB20");
   (ASIOSTInt32MSB24, "ASIOSTInt32MSB24");
   (ASIOSTInt16LSB, "ASIOSTInt16LSB");
   (ASIOSTInt24LSB, "ASIOSTInt24LSB");
   (ASIOSTInt32LSB, "ASIOSTInt32LSB");
   (ASIOSTFloat32LSB, "ASIOSTFloat32LSB");
   (ASIOSTFloat64LSB, "ASIOSTFloat64LSB");
   (ASIOSTInt32LSB16, "ASIOSTInt32LSB16");
   (ASIOSTInt32LSB18, "ASIOSTInt32LSB18");
   (ASIOSTInt32LSB20, "ASIOSTInt32LSB20");
   (ASIOSTInt32LSB24, "ASIOSTInt32LSB24");
   (ASIOSTDSDInt8LSB1, "ASIOSTDSDInt8LSB1");
   (ASIOSTDSDInt8MSB1, "ASIOSTDSDInt8MSB1");
   (ASIOSTDSDInt8NER8, "ASIOSTDSDInt8NER8")].

Definition unknown_sample_type_name : string :=
  "(unknown ASIO sample type)".
End WithHeader.

(** The first name a table has for [code], [unknown] when it has none. *)
Fixpoint name_in (table : list (Z * string)) (unknown : string) (code : Z)
    : string :=
  match table with
  | [] => unknown
  | (key, name) :: rest =>
      if code =? key then name else name_in rest unknown code
  end.

End SampleTypeString.

(** ** The vocabulary of further statements *)

Module Traces.
Import PortAudio FlexASIOTest.

(** The calls of [PaUtil_SetDebugPrintFunction] take turns, the first one
    with the argument [next]. *)
Fixpoint alternates (next : PaUtilLogCallback)
    (calls : list PaUtilLogCallback) : Prop :=
  match calls with
  | [] => True
  | cb :: rest =>
      cb = next
      /\ alternates
           (match next with
            | DebugPrint => NullCallback
            | NullCallback => DebugPrint
            end) rest
  end.

(** The call that comes next: an install when no logger is alive, a removal
    otherwise. *)
Definition next_call (live : nat) : PaUtilLogCallback :=
  match live with O => DebugPrint | S _ => NullCallback end.

Section WithHeader.
Context `{AsioHeader}.

(** In [calls], coming after the call [previous], a sample rate is set
    only right after the probe of that rate came back with [ASE_OK]. *)
Fixpoint probed_before_set (previous : option Event) (calls : list Event)
    : Prop :=
  match calls with
  | [] => True
  | ev :: rest =>
      match ev with
      | CallSetSampleRate sampleRate _ =>
          previous = Some (CallCanSampleRate sampleRate ASE_OK)
      | _ => True
      end
      /\ probed_before_set (Some ev) rest
  end.
End WithHeader.

(** A call that does not set the sample rate. *)
Definition sets_no_rate (ev : Event) : Prop :=
  match ev with
  | CallSetSampleRate _ _ => False
  | _ => True
  end.

End Traces.

(* ===================================================================== *)
(** * Part II: properties *)
(* ===================================================================== *)

(** ** Strings *)

Section StringFacts.
Local Open Scope string_scope.

Lemma append_nil_r (s : string) : s ++ "" = s.
Proof. induction s as [|c s IH]; simpl; [reflexivity | now rewrite IH]. Qed.

Lemma append_assoc (s t u : string) : (s ++ t) ++ u = s ++ (t ++ u).
Proof. induction s as [|c s IH]; simpl; [reflexivity | now rewrite IH]. Qed.

Lemma length_append (s t : string) :
  String.length (s ++ t) = (String.length s + String.length t)%nat.
Proof. induction s as [|c s IH]; simpl; [reflexivity | now rewrite IH]. Qed.

Lemma prefix_append (s t : string) : prefix s (s ++ t) = true.
Proof.
  induction s as [|c s IH]; cbn; [now destruct t|].
  destruct (ascii_dec c c) as [_|Hneq]; [exact IH | now elim Hneq].
Qed.

Lemma list_ascii_of_string_append (s t : string) :
  list_ascii_of_string (s ++ t)
  = (list_ascii_of_string s ++ list_ascii_of_string t)%list.
Proof. induction s as [|c s IH]; cbn; [reflexivity | now rewrite IH]. Qed.
End StringFacts.

(** ** [Join] *)

Section JoinFacts.
Import StringUtil.
Context {Item : Type}.
Variables (delimiter : string) (render : Item -> string).
Local Open Scope string_scope.

Lemma concat_empty_cons (s : string) (l : list string) :
  String.concat "" (s :: l) = s ++ String.concat "" l.
Proof. destruct l; simpl; [now rewrite append_nil_r | reflexivity]. Qed.

(** On every stream, [JoinStream] is the insertion of the renderings and
    of the delimiters between them, in order, and nothing else. *)
Lemma JoinStream_loop_inserted {Stream : Type} `{OStream Stream}
    (rest : list Item) :
  forall (it : Item) (result : Stream),
    JoinStream_loop it rest delimiter render result
    = fold_left insert (inserted delimiter render (it :: rest)) result.
Proof.
  induction rest as [|next rest IH]; intros it result; [reflexivity|].
  cbn [JoinStream_loop]. rewrite IH. reflexivity.
Qed.

Lemma JoinStream_inserted {Stream : Type} `{OStream Stream}
    (items : list Item) (result : Stream) :
  JoinStream items delimiter result render
  = fold_left insert (inserted delimiter render items) result.
Proof.
  destruct items as [|it rest]; [reflexivity|].
  apply JoinStream_loop_inserted.
Qed.

(** The stream of [Join] holds what was inserted, end to end. *)
Lemma stringstream_inserted (texts : list string) :
  forall result : stringstream,
    str (fold_left insert texts result)
    = str result ++ String.concat "" texts.
Proof.
  induction texts as [|text texts IH]; intros result.
  - cbn. now rewrite append_nil_r.
  - cbn [fold_left]. rewrite IH, concat_empty_cons. cbn [insert
      stringstream_OStream str]. now rewrite append_assoc.
Qed.

Lemma inserted_concat (items : list Item) :
  String.concat "" (inserted delimiter render items)
  = String.concat delimiter (map render items).
Proof.
  induction items as [|it [|next rest] IH]; [reflexivity | reflexivity|].
  change (inserted delimiter render (it :: next :: rest))
    with (render it :: delimiter
          :: inserted delimiter render (next :: rest)).
  rewrite !concat_empty_cons, IH. reflexivity.
Qed.

Lemma Join_is_concat (items : list Item) :
  Join items delimiter render = String.concat delimiter (map render items).
Proof.
  unfold Join. cbv zeta.
  rewrite JoinStream_inserted, stringstream_inserted. cbn [str append].
  apply inserted_concat.
Qed.

Lemma led_by_delimiter_concat (it : Item) (rest : list Item) :
  render it ++ led_by_delimiter delimiter render rest
  = String.concat delimiter (map render (it :: rest)).
Proof.
  unfold led_by_delimiter.
  revert it; induction rest as [|next rest IH]; intros it.
  - simpl. now rewrite append_nil_r.
  - cbn [map]. rewrite concat_empty_cons.
    change (String.concat delimiter
              (render it :: render next :: map render rest))
      with (render it ++ delimiter
            ++ String.concat delimiter (map render (next :: rest))).
    now rewrite <- IH, append_assoc.
Qed.

Lemma led_trailed (front : list Item) :
  forall (it last : Item),
    render it ++ led_by_delimiter delimiter render (front ++ [last])
    = trailed_by_delimiter delimiter render (it :: front) ++ render last.
Proof.
  unfold led_by_delimiter, trailed_by_delimiter.
  induction front as [|next front IH]; intros it last.
  - simpl. now rewrite append_assoc.
  - specialize (IH next last).
    cbn [map List.app] in IH |- *.
    rewrite !concat_empty_cons in IH |- *.
    rewrite !append_assoc in IH |- *.
    rewrite IH, !concat_empty_cons.
    now rewrite !append_assoc.
Qed.

Lemma led_by_delimiter_length (rest : list Item) :
  String.length (led_by_delimiter delimiter render rest)
  = (rendered_length render rest
     + List.length rest * String.length delimiter)%nat.
Proof.
  unfold led_by_delimiter, rendered_length.
  induction rest as [|next rest IH].
  - reflexivity.
  - cbn [map]. rewrite concat_empty_cons, !length_append, IH.
    unfold list_sum in *. cbn [fold_right List.length Nat.mul]. lia.
Qed.

Lemma Join_cons (first : Item) (rest : list Item) :
  Join (first :: rest) delimiter render
  = render first ++ led_by_delimiter delimiter render rest.
Proof. now rewrite Join_is_concat, led_by_delimiter_concat. Qed.

Lemma Join_snoc (front : list Item) (last : Item) :
  Join (front ++ [last]) delimiter render
  = trailed_by_delimiter delimiter render front ++ render last.
Proof.
  destruct front as [|it front].
  - cbn [List.app]. rewrite Join_cons.
    unfold led_by_delimiter, trailed_by_delimiter. simpl.
    apply append_nil_r.
  - change ((it :: front) ++ [last])%list
      with (it :: (front ++ [last]))%list.
    rewrite Join_cons. apply led_trailed.
Qed.
End JoinFacts.

(** *** Where the delimiter occurs in the text of [Join] *)

Section JoinDelimiterFacts.
Import StringUtil.
Context {Item : Type}.
Variables (delimiter : string) (render : Item -> string).
Hypothesis delimiter_not_empty : delimiter <> EmptyString.
Local Open Scope string_scope.

Local Abbreviation chars := list_ascii_of_string.

Lemma apart_spec (text : string) :
  apart delimiter text = true ->
  forall c : ascii, In c (chars text) -> ~ In c (chars delimiter).
Proof.
  unfold apart. rewrite forallb_forall. intros Hapart c Hin Hdelimiter.
  specialize (Hapart c Hin). apply negb_true_iff in Hapart.
  assert (Hfound : existsb (Ascii.eqb c) (chars delimiter) = true).
  { apply existsb_exists. exists c. split; [exact Hdelimiter|].
    apply Ascii.eqb_refl. }
  congruence.
Qed.

Lemma apart_tail (c : ascii) (text : string) :
  apart delimiter (String c text) = true -> apart delimiter text = true.
Proof. unfold apart. cbn. now intros [_ Htail]%andb_true_iff. Qed.

(** A text that starts with a character foreign to the delimiter does not
    start with the delimiter. *)
Lemma delimiter_first :
  exists (a : ascii) (d : string), delimiter = String a d.
Proof. destruct delimiter as [|a d]; [contradiction | eauto]. Qed.

Lemma leads_foreign (c : ascii) (text rest : string) :
  apart delimiter (String c text) = true ->
  leads delimiter (String c rest) = false.
Proof.
  intros Hapart. unfold leads.
  destruct delimiter_first as (a & d & Hd). rewrite Hd.
  cbn. destruct (ascii_dec a c) as [->|]; [|reflexivity].
  exfalso. apply (apart_spec _ Hapart c); [now left|].
  rewrite Hd. now left.
Qed.

Lemma occurrences_behind_apart (text : string) :
  apart delimiter text = true ->
  forall rest : string,
    occurrences_behind delimiter 0 (text ++ rest)
    = occurrences_behind delimiter 0 rest.
Proof.
  induction text as [|c text IH]; intros Hapart rest; [reflexivity|].
  cbn [append occurrences_behind].
  pose proof (leads_foreign c text (text ++ rest) Hapart) as Hleads.
  unfold leads in Hleads. rewrite Hleads.
  apply IH. now apply apart_tail in Hapart.
Qed.

Lemma occurrences_behind_skip (passed : string) :
  forall rest : string,
    occurrences_behind delimiter (String.length passed) (passed ++ rest)
    = occurrences_behind delimiter 0 rest.
Proof.
  induction passed as [|c passed IH]; intros rest.
  - cbn. now destruct rest.
  - cbn [append String.length occurrences_behind]. apply IH.
Qed.

Lemma occurrences_behind_delimiter (rest : string) :
  occurrences_behind delimiter 0 (delimiter ++ rest)
  = S (occurrences_behind delimiter 0 rest).
Proof.
  pose proof (prefix_append delimiter rest) as Hprefix.
  pose proof (occurrences_behind_skip) as Hskip.
  destruct delimiter_first as (a & d & Hd).
  rewrite Hd at 2. cbn [append occurrences_behind].
  rewrite Hd in Hprefix at 2. cbn [append] in Hprefix. rewrite Hprefix.
  f_equal. rewrite <- (Hskip d rest). f_equal.
  rewrite Hd. cbn [String.length]. lia.
Qed.

Lemma occurrences_concat (texts : list string) :
  Forall (fun text => apart delimiter text = true) texts ->
  occurrences delimiter (String.concat delimiter texts)
  = (List.length texts - 1)%nat.
Proof.
  unfold occurrences.
  induction texts as [|text [|next texts] IH]; intros Hapart.
  - reflexivity.
  - inversion Hapart as [|? ? Htext _]; subst. cbn [String.concat].
    rewrite <- (append_nil_r text).
    now rewrite occurrences_behind_apart.
  - inversion Hapart as [|? ? Htext Hrest]; subst.
    change (String.concat delimiter (text :: next :: texts))
      with (text ++ delimiter ++ String.concat delimiter (next :: texts)).
    rewrite occurrences_behind_apart by exact Htext.
    rewrite occurrences_behind_delimiter, IH by exact Hrest.
    cbn [List.length]. lia.
Qed.

Lemma leads_Join (first : Item) (rest : list Item) :
  apart delimiter (render first) = true ->
  leads delimiter (Join (first :: rest) delimiter render) = true
  <-> render first = "" /\ rest <> [].
Proof.
  intros Hapart. rewrite Join_cons. split.
  - destruct (render first) as [|c text] eqn:Hfirst.
    + intros Hleads. split; [reflexivity|]. intros ->.
      unfold leads, led_by_delimiter in Hleads. cbn in Hleads.
      destruct delimiter_first as (a & d & Hd). rewrite Hd in Hleads.
      discriminate.
    + cbn [append]. rewrite (leads_foreign c text) by exact Hapart.
      discriminate.
  - intros [-> Hrest]. destruct rest as [|next rest]; [contradiction|].
    unfold leads, led_by_delimiter. cbn [map append].
    rewrite concat_empty_cons, append_assoc. apply prefix_append.
Qed.

Lemma trails_spec (text : string) :
  trails delimiter text = true <-> exists front, text = front ++ delimiter.
Proof.
  induction text as [|c text IH]; cbn [trails].
  - rewrite orb_false_r, String.eqb_eq. split.
    + intros Hd. contradiction.
    + intros [front Hfront]. destruct front; cbn in Hfront;
        [congruence | discriminate].
  - rewrite orb_true_iff, String.eqb_eq, IH. split.
    + intros [Hd|[front ->]].
      * exists "". cbn. congruence.
      * now exists (String c front).
    + intros [[|c' front] Hfront]; cbn in Hfront.
      * left. congruence.
      * right. exists front. congruence.
Qed.

Lemma concat_empty_app (l1 l2 : list string) :
  String.concat "" (l1 ++ l2)
  = String.concat "" l1 ++ String.concat "" l2.
Proof.
  induction l1 as [|s l1 IH]; [reflexivity|].
  cbn [List.app]. rewrite !concat_empty_cons, IH.
  now rewrite append_assoc.
Qed.

(** The last character of a text that ends with the delimiter is one of
    the delimiter's. *)
Lemma last_of_trailed (front : string) (others : list ascii) (c : ascii) :
  chars (front ++ delimiter) = (others ++ [c])%list ->
  In c (chars delimiter).
Proof.
  rewrite list_ascii_of_string_append. intros Heq.
  destruct (exists_last (l := chars delimiter)) as (d & a & Hd).
  - destruct delimiter_first as (a & d & ->). discriminate.
  - rewrite Hd, app_assoc in Heq. apply app_inj_tail in Heq as [_ ->].
    rewrite Hd. apply in_or_app. right. now left.
Qed.

Lemma append_delimiter_not_empty (front : string) :
  front ++ delimiter <> "".
Proof.
  destruct delimiter_first as (a & d & ->). now destruct front.
Qed.

Lemma trails_Join (front : list Item) (last : Item) :
  apart delimiter (render last) = true ->
  trails delimiter (Join (front ++ [last]) delimiter render) = true
  <-> render last = "" /\ front <> [].
Proof.
  intros Hapart. rewrite Join_snoc, trails_spec. split.
  - intros [text Htext].
    destruct (render last) as [|c0 rendered] eqn:Hrender.
    + split; [reflexivity|]. intros ->. cbn in Htext.
      symmetry in Htext. now apply append_delimiter_not_empty in Htext.
    + exfalso.
      destruct (exists_last (l := chars (String c0 rendered)))
        as (r & c & Hlast); [discriminate|].
      apply (apart_spec _ Hapart c).
      * rewrite Hlast. apply in_or_app. right. now left.
      * apply (last_of_trailed text
                 (chars (trailed_by_delimiter delimiter render front) ++ r)
                 c).
        now rewrite <- Htext, list_ascii_of_string_append, Hlast, app_assoc.
  - intros [-> Hfront].
    destruct (exists_last Hfront) as (front' & it & ->).
    exists (trailed_by_delimiter delimiter render front' ++ render it).
    unfold trailed_by_delimiter. rewrite map_app, concat_empty_app.
    cbn [map String.concat]. now rewrite append_nil_r, !append_assoc.
Qed.
End JoinDelimiterFacts.

Section JoinClaim.
Import StringUtil.
Context {Item : Type}.
Variables (delimiter : string) (render : Item -> string).
Local Open Scope string_scope.

(** C10.  [Join] of no item is the empty string.  [Join] of the items
    [first :: rest] is the rendering of [first] followed, for each further
    item in order, by one delimiter and that item's rendering; read from
    the other end, it is each item but the last followed by one delimiter,
    and then the last item's rendering: the result is the list of
    renderings joined by the delimiter, and its length is that of the
    renderings plus [n - 1] delimiters.  When the delimiter is not empty
    and has no character in common with a rendering, the delimiter occurs
    in the result exactly [n - 1] times for [n] items; it leads the result
    exactly when the first rendering is empty and there is a further item,
    and trails it exactly when the last rendering is empty and there is an
    earlier item.  So with the first and the last rendering not empty the
    delimiter occurs between the items and nowhere else. *)
Theorem Join_delimits :
  Join [] delimiter render = ""
  /\ (forall (first : Item) (rest : list Item),
        Join (first :: rest) delimiter render
        = render first ++ led_by_delimiter delimiter render rest)
  /\ (forall (front : list Item) (last : Item),
        Join (front ++ [last]) delimiter render
        = trailed_by_delimiter delimiter render front ++ render last)
  /\ (forall items : list Item,
        Join items delimiter render
        = String.concat delimiter (map render items))
  /\ (forall (first : Item) (rest : list Item),
        String.length (Join (first :: rest) delimiter render)
        = (rendered_length render (first :: rest)
           + (List.length (first :: rest) - 1)
             * String.length delimiter)%nat)
  /\ (delimiter <> "" ->
      forall items : list Item,
        Forall (fun item => apart delimiter (render item) = true) items ->
        let text := Join items delimiter render in
        occurrences delimiter text = (List.length items - 1)%nat
        /\ (forall (first : Item) (rest : list Item),
              items = first :: rest ->
              leads delimiter text = true
              <-> render first = "" /\ rest <> [])
        /\ (forall (front : list Item) (last : Item),
              items = (front ++ [last])%list ->
              trails delimiter text = true
              <-> render last = "" /\ front <> [])
        /\ (forall (first last : Item) (rest front : list Item),
              items = first :: rest ->
              items = (front ++ [last])%list ->
              render first <> "" ->
              render last <> "" ->
              delimiter_only_between delimiter render items)).
Proof.
  split; [reflexivity|]. split; [apply Join_cons|].
  split; [apply Join_snoc|]. split; [apply Join_is_concat|]. split.
  - intros first rest. rewrite Join_cons, length_append.
    rewrite led_by_delimiter_length.
    unfold rendered_length, list_sum.
    cbn [map fold_right List.length].
    rewrite Nat.sub_succ, Nat.sub_0_r. lia.
  - intros Hdelimiter items Hapart. cbv zeta.
    assert (Hcount : occurrences delimiter (Join items delimiter render)
                     = (List.length items - 1)%nat).
    { rewrite Join_is_concat, occurrences_concat, length_map;
        [reflexivity | exact Hdelimiter|].
      apply Forall_forall. intros text (item & <- & Hin)%in_map_iff.
      rewrite Forall_forall in Hapart. now apply Hapart. }
    assert (Hleads : forall first rest,
               items = first :: rest ->
               leads delimiter (Join items delimiter render) = true
               <-> render first = "" /\ rest <> []).
    { intros first rest ->. apply leads_Join; [exact Hdelimiter|].
      now inversion Hapart. }
    assert (Htrails : forall front last,
               items = (front ++ [last])%list ->
               trails delimiter (Join items delimiter render) = true
               <-> render last = "" /\ front <> []).
    { intros front last ->. apply trails_Join; [exact Hdelimiter|].
      rewrite Forall_forall in Hapart. apply Hapart.
      apply in_or_app. right. now left. }
    split; [exact Hcount|]. split; [exact Hleads|].
    split; [exact Htrails|].
    intros first last rest front Hfirst Hlast Hnonempty Hnonempty'.
    unfold delimiter_only_between. cbv zeta.
    split; [exact Hcount|]. split.
    + apply not_true_is_false. intros Htrue.
      apply (Hleads first rest Hfirst) in Htrue. now destruct Htrue.
    + apply not_true_is_false. intros Htrue.
      apply (Htrails front last Hlast) in Htrue. now destruct Htrue.
Qed.
End JoinClaim.

(** An item that holds the delimiter brings an occurrence of its own, and
    an empty item at an end leaves a delimiter there. *)
Lemma Join_delimits_counterexample :
  StringUtil.Join ["a,b"]%string "," StringUtil.DefaultJoinRender
  = "a,b"%string
  /\ ~ StringUtil.delimiter_only_between ","
         StringUtil.DefaultJoinRender ["a,b"]%string
  /\ StringUtil.Join [""; "x"; ""]%string "," StringUtil.DefaultJoinRender
     = ",x,"%string
  /\ ~ StringUtil.delimiter_only_between ","
         StringUtil.DefaultJoinRender [""; "x"; ""]%string.
Proof.
  split; [reflexivity|]. split; [|split; [reflexivity|]].
  - intros (Hcount & _). vm_compute in Hcount. discriminate.
  - intros (_ & Hleads & _). vm_compute in Hleads. discriminate.
Qed.

(** A rendering need not hold the delimiter to confuse the count: a
    character in common with it is enough. *)
Example Join_delimiter_shared_character :
  StringUtil.Join ["a"; "a"]%string "aa" StringUtil.DefaultJoinRender
  = "aaaa"%string
  /\ StringUtil.occurrences "aa" "a" = 0%nat
  /\ StringUtil.occurrences "aa" "aaaa" = 2%nat
  /\ StringUtil.leads "aa" "aaaa" = true.
Proof. repeat split. Qed.

Lemma Join_delimits_witness :
  let text :=
    StringUtil.Join ["a"; "b"; "c"]%string ", "
      StringUtil.DefaultJoinRender in
  text = "a, b, c"%string
  /\ StringUtil.delimiter_only_between ", " StringUtil.DefaultJoinRender
       ["a"; "b"; "c"]%string.
Proof.
  cbv zeta. split; [reflexivity|].
  destruct (@Join_delimits string ", " StringUtil.DefaultJoinRender)
    as (_ & _ & _ & _ & _ & Hdelimited).
  destruct (Hdelimited ltac:(discriminate) ["a"; "b"; "c"]%string
              ltac:(repeat constructor))
    as (_ & _ & _ & Hbetween).
  apply (Hbetween "a" "c" ["b"; "c"] ["a"; "b"])%string;
    [reflexivity | reflexivity | discriminate | discriminate].
Defined.

Example Join_of_three :
  StringUtil.Join ["a"; "b"; "c"]%string ", " StringUtil.DefaultJoinRender
  = "a, b, c"%string.
Proof. reflexivity. Qed.

Example Join_of_one :
  StringUtil.Join ["a"]%string ", " StringUtil.DefaultJoinRender
  = "a"%string.
Proof. reflexivity. Qed.

Example Join_of_numbers :
  StringUtil.Join [1; 2; 3]%nat "-"
    (fun n => String (Ascii.ascii_of_nat (48 + n)) "")
  = "1-2-3"%string.
Proof. reflexivity. Qed.

(** ** The error renderer *)

Section ErrorStringFacts.
Import ErrorString.
Context `{AsioHeader}.

(** Distinct enumerators, as separate inequalities. *)
Ltac split_NoDup :=
  repeat match goal with
         | Hnd : NoDup (_ :: _) |- _ => inversion Hnd; clear Hnd; subst
         | Hnd : NoDup [] |- _ => clear Hnd
         end;
  cbn [In] in *.

Ltac decide_cases :=
  unfold GetASIOErrorString;
  repeat match goal with
         | |- context [(?a =? ?b)%Z] => destruct (Z.eqb_spec a b)
         end.

Lemma asio_error_names_distinct :
  NoDup asio_error_names /\ ~ In unknown_error_name asio_error_names.
Proof.
  split.
  - unfold asio_error_names.
    repeat (constructor; [cbn [In]; intuition discriminate|]). constructor.
  - unfold asio_error_names, unknown_error_name. cbn [In].
    intuition discriminate.
Qed.

Lemma GetASIOErrorString_of_code :
  NoDup asio_error_codes ->
  forall (code : ASIOError) (name : string),
    In (code, name) (combine asio_error_codes asio_error_names) ->
    GetASIOErrorString code = name.
Proof.
  intros Hnd code name Hin. unfold asio_error_codes in Hnd. split_NoDup.
  unfold asio_error_codes, asio_error_names in Hin. cbn [combine In] in Hin.
  repeat match type of Hin with
         | _ \/ _ => destruct Hin as [Hin|Hin]
         end;
    try contradiction; inversion Hin; subst; clear Hin;
    decide_cases; first [reflexivity | exfalso; intuition congruence].
Qed.

Lemma GetASIOErrorString_unknown (error : ASIOError) :
  ~ In error asio_error_codes ->
  GetASIOErrorString error = unknown_error_name.
Proof.
  unfold asio_error_codes. cbn [In]. intros Hnot.
  decide_cases; first [reflexivity | exfalso; intuition congruence].
Qed.

Lemma GetASIOErrorString_image (error : ASIOError) :
  In error asio_error_codes ->
  In (GetASIOErrorString error) asio_error_names.
Proof.
  unfold asio_error_codes, asio_error_names. cbn [In]. intros Hin.
  decide_cases; try (cbn [In]; tauto); exfalso; intuition congruence.
Qed.

(** C1.  The renderer is a function of the error code alone, defined on
    every value of [ASIOError].  With the enumerators of the header distinct,
    each code of the fixed vocabulary is rendered as its own name, the nine
    names are pairwise different and none of them is the text for an unknown
    code, and a value is rendered as "(unknown ASE error code)" exactly when
    it is none of the nine codes. *)
Theorem GetASIOErrorString_vocabulary :
  NoDup asio_error_codes ->
  (forall (code : ASIOError) (name : string),
      In (code, name) (combine asio_error_codes asio_error_names) ->
      GetASIOErrorString code = name)
  /\ NoDup asio_error_names
  /\ ~ In unknown_error_name asio_error_names
  /\ (forall error : ASIOError,
        In (GetASIOErrorString error)
           (unknown_error_name :: asio_error_names))
  /\ (forall error : ASIOError,
        GetASIOErrorString error = unknown_error_name
        <-> ~ In error asio_error_codes)
  /\ (forall error error' : ASIOError,
        In error asio_error_codes ->
        GetASIOErrorString error = GetASIOErrorString error' ->
        error = error').
Proof.
  intros Hnd.
  destruct asio_error_names_distinct as [Hnames Hunknown].
  assert (Hiff : forall error : ASIOError,
             GetASIOErrorString error = unknown_error_name
             <-> ~ In error asio_error_codes).
  { intros error. split.
    - intros Heq Hin. apply GetASIOErrorString_image in Hin.
      rewrite Heq in Hin. contradiction.
    - apply GetASIOErrorString_unknown. }
  repeat split; try assumption.
  - now apply GetASIOErrorString_of_code.
  - intros error.
    destruct (in_dec Z.eq_dec error asio_error_codes) as [Hin|Hout].
    + right. now apply GetASIOErrorString_image.
    + left. symmetry. now apply GetASIOErrorString_unknown.
  - apply Hiff.
  - apply Hiff.
  - intros error error' Hin Heq.
    destruct (in_dec Z.eq_dec error' asio_error_codes) as [Hin'|Hout'].
    + unfold asio_error_codes in Hnd, Hin, Hin'. split_NoDup.
      revert Heq. decide_cases; intros Heq; try discriminate Heq;
        try congruence; exfalso; intuition congruence.
    + apply GetASIOErrorString_unknown in Hout'.
      apply GetASIOErrorString_image in Hin.
      rewrite Heq, Hout' in Hin. contradiction.
Qed.
End ErrorStringFacts.

(** The header of the ASIO SDK has its enumerators distinct. *)
Lemma asio_sdk_codes_distinct : NoDup (@asio_error_codes asio_sdk).
Proof.
  unfold asio_error_codes. cbn.
  repeat (constructor; [cbn [In]; lia|]). constructor.
Qed.

Example GetASIOErrorString_of_sdk_codes :
  map (@ErrorString.GetASIOErrorString asio_sdk) [0; -1000; -994; 1; -993]
  = ["ASE_OK"; "ASE_NotPresent"; "ASE_NoMemory";
     "(unknown ASE error code)"; "(unknown ASE error code)"]%string.
Proof. reflexivity. Qed.

Lemma GetASIOErrorString_vocabulary_witness :
  NoDup (@asio_error_codes asio_sdk)
  /\ @ErrorString.GetASIOErrorString asio_sdk (-997) = "ASE_InvalidMode"%string
  /\ @ErrorString.GetASIOErrorString asio_sdk 1061701536
     = "ASE_SUCCESS"%string
  /\ @ErrorString.GetASIOErrorString asio_sdk 7
     = "(unknown ASE error code)"%string.
Proof.
  split; [exact asio_sdk_codes_distinct|].
  destruct (@GetASIOErrorString_vocabulary asio_sdk asio_sdk_codes_distinct)
    as (Hname & _ & _ & _ & Hunknown & _).
  split; [|split].
  - apply Hname. cbn. tauto.
  - apply Hname. cbn. tauto.
  - apply Hunknown. cbn. lia.
Defined.

(** ** The buffer-creation request *)

Section RequestFacts.
Import FlexASIOTest.

Lemma channels_from_length (count : nat) :
  forall from : Z, List.length (channels_from from count) = count.
Proof. induction count as [|k IH]; intros from; simpl; auto. Qed.

Lemma channels_from_In (count : nat) :
  forall from x : Z,
    In x (channels_from from count) <-> from <= x < from + Z.of_nat count.
Proof.
  induction count as [|k IH]; intros from x.
  - simpl. lia.
  - cbn [channels_from In]. rewrite IH. lia.
Qed.

Lemma channels_from_NoDup (count : nat) :
  forall from : Z, NoDup (channels_from from count).
Proof.
  induction count as [|k IH]; intros from; simpl; constructor.
  - rewrite channels_from_In. lia.
  - apply IH.
Qed.

Lemma channels_from_nth (count : nat) :
  forall (from : Z) (i : nat),
    (i < count)%nat ->
    nth_error (channels_from from count) i = Some (from + Z.of_nat i).
Proof.
  induction count as [|k IH]; intros from i Hi; [lia|].
  destruct i as [|i]; simpl.
  - f_equal. lia.
  - rewrite IH by lia. f_equal. lia.
Qed.

(** With fuel for every remaining channel, the loop appends the entries of
    the channels [channel .. count - 1] and stops on its own test. *)
Lemma CreateBuffers_loop_appends (fuel : nat) :
  forall (channel count : Z) (isInput : bool)
         (bufferInfos : list ASIOBufferInfo),
    (Z.to_nat (count - channel) <= fuel)%nat ->
    CreateBuffers_loop fuel channel count isInput bufferInfos
    = bufferInfos
      ++ map (fun c => {| isInput := isInput; channelNum := c |})
           (channels_from channel (Z.to_nat (count - channel))).
Proof.
  induction fuel as [|fuel IH]; intros channel count isInput infos Hfuel.
  - replace (Z.to_nat (count - channel)) with O by lia.
    simpl. now rewrite app_nil_r.
  - cbn [CreateBuffers_loop]. destruct (Z.ltb_spec channel count) as [Hlt|Hge].
    + rewrite IH by lia.
      replace (Z.to_nat (count - channel))
        with (S (Z.to_nat (count - (channel + 1)))) by lia.
      cbn [channels_from map]. now rewrite <- app_assoc.
    + replace (Z.to_nat (count - channel)) with O by lia.
      simpl. now rewrite app_nil_r.
Qed.

Lemma CreateBuffers_request_eq (numInput numOutput : Z) :
  CreateBuffers_request (numInput, numOutput)
  = requested true numInput ++ requested false numOutput.
Proof.
  unfold CreateBuffers_request, requested. cbn [fst snd].
  rewrite !CreateBuffers_loop_appends by (rewrite Z.sub_0_r; lia).
  now rewrite !Z.sub_0_r.
Qed.

Lemma requested_length (isInput : bool) (count : Z) :
  Z.of_nat (List.length (requested isInput count)) = Z.max 0 count.
Proof.
  unfold requested. rewrite length_map, channels_from_length. lia.
Qed.

Lemma requested_In (isInput : bool) (count : Z) (info : ASIOBufferInfo) :
  In info (requested isInput count)
  <-> FlexASIOTest.isInput info = isInput /\ 0 <= channelNum info < count.
Proof.
  unfold requested. rewrite in_map_iff. split.
  - intros (c & <- & Hin). apply channels_from_In in Hin. simpl.
    split; [reflexivity | lia].
  - intros (Hdir & Hrange). exists (channelNum info). split.
    + destruct info as [dir num]. simpl in *. now subst.
    + apply channels_from_In. lia.
Qed.

Lemma NoDup_map_injective {A B : Type} (f : A -> B) (l : list A) :
  (forall a b : A, f a = f b -> a = b) -> NoDup l -> NoDup (map f l).
Proof.
  intros Hinj Hnd. induction Hnd as [|a l Hnotin Hnd IH]; simpl; constructor.
  - rewrite in_map_iff. intros (b & Heq & Hin).
    apply Hinj in Heq. now subst.
  - exact IH.
Qed.

Lemma requested_NoDup (isInput : bool) (count : Z) :
  NoDup (requested isInput count).
Proof.
  unfold requested. apply NoDup_map_injective.
  - intros a b Heq. now inversion Heq.
  - apply channels_from_NoDup.
Qed.

Lemma requested_nth (isInput : bool) (count i : Z) :
  0 <= i < count ->
  nth_error (requested isInput count) (Z.to_nat i)
  = Some {| isInput := isInput; channelNum := i |}.
Proof.
  intros Hi. unfold requested.
  rewrite nth_error_map, channels_from_nth by lia.
  simpl. do 2 f_equal. lia.
Qed.

(** The request for any two [long] values: a count that is not positive
    contributes no entry. *)
Lemma CreateBuffers_request_length (numInput numOutput : Z) :
  Z.of_nat (List.length (CreateBuffers_request (numInput, numOutput)))
  = Z.max 0 numInput + Z.max 0 numOutput.
Proof.
  rewrite CreateBuffers_request_eq, length_app, Nat2Z.inj_add.
  now rewrite !requested_length.
Qed.

(** C6.  For the channel counts [numInput] and [numOutput], the request
    [CreateBuffers] hands to the driver has [numInput + numOutput] entries;
    entry [i], for [i < numInput], is input channel [i], and entry
    [numInput + j], for [j < numOutput], is output channel [j]; no entry
    occurs twice, and every entry's channel number lies in [0 .. count - 1]
    for the count of its direction. *)
Theorem CreateBuffers_request_valid (numInput numOutput : Z) :
  0 <= numInput ->
  0 <= numOutput ->
  let request := CreateBuffers_request (numInput, numOutput) in
  Z.of_nat (List.length request) = numInput + numOutput
  /\ (forall i : Z,
        0 <= i < numInput ->
        nth_error request (Z.to_nat i)
        = Some {| isInput := true; channelNum := i |})
  /\ (forall j : Z,
        0 <= j < numOutput ->
        nth_error request (Z.to_nat (numInput + j))
        = Some {| isInput := false; channelNum := j |})
  /\ NoDup request
  /\ (forall info : ASIOBufferInfo,
        In info request ->
        0 <= channelNum info
             < (if isInput info then numInput else numOutput)).
Proof.
  intros Hin Hout request. subst request.
  rewrite CreateBuffers_request_eq.
  assert (Hlen : List.length (requested true numInput) = Z.to_nat numInput).
  { pose proof (requested_length true numInput). lia. }
  split; [|split; [|split; [|split]]].
  - rewrite length_app, Nat2Z.inj_add, !requested_length. lia.
  - intros i Hi. rewrite nth_error_app1 by lia. now apply requested_nth.
  - intros j Hj. rewrite nth_error_app2 by lia.
    replace (Z.to_nat (numInput + j)
             - List.length (requested true numInput))%nat
      with (Z.to_nat j) by lia.
    now apply requested_nth.
  - apply NoDup_app.
    + apply requested_NoDup.
    + apply requested_NoDup.
    + intros info H1 H2.
      apply requested_In in H1. apply requested_In in H2.
      destruct H1 as [H1 _], H2 as [H2 _]. congruence.
  - intros info H. apply in_app_or in H. destruct H as [H|H];
      apply requested_In in H; destruct H as [-> H]; exact H.
Qed.

Example CreateBuffers_request_no_input :
  CreateBuffers_request (0, 2)
  = [{| isInput := false; channelNum := 0 |};
     {| isInput := false; channelNum := 1 |}].
Proof. reflexivity. Qed.

Lemma CreateBuffers_request_valid_witness :
  CreateBuffers_request (2, 1)
  = [{| isInput := true; channelNum := 0 |};
     {| isInput := true; channelNum := 1 |};
     {| isInput := false; channelNum := 0 |}]
  /\ NoDup (CreateBuffers_request (2, 1)).
Proof.
  split; [reflexivity|].
  apply (CreateBuffers_request_valid 2 1); lia.
Defined.
End RequestFacts.

(** ** The logger reference count *)

Section LoggerFacts.
Import PortAudio.
Variable size_t_bits : Z.
Variable Pa_GetVersionText : string.

Local Abbreviation construct :=
  (PortAudioLogger_construct size_t_bits Pa_GetVersionText).
Local Abbreviation destroy := (PortAudioLogger_destroy size_t_bits).
Local Abbreviation run := (logger_run size_t_bits Pa_GetVersionText).

Lemma max_live_ge (ops : list LoggerOp) :
  forall live : nat, (live <= max_live ops live)%nat.
Proof. destruct ops as [|[|] ops]; intros live; simpl; lia. Qed.

Lemma size_t_wrap_small (n : Z) :
  0 <= n < 2 ^ size_t_bits -> size_t_wrap size_t_bits n = n.
Proof. intros Hn. unfold size_t_wrap. now apply Z.mod_small. Qed.

Lemma construct_invariant (live : nat) (s : LoggerState) :
  logger_invariant live s ->
  Z.of_nat (S live) < 2 ^ size_t_bits ->
  logger_invariant (S live) (fst (construct s)).
Proof.
  intros [Hcount Hinstalled] Hbound. unfold PortAudioLogger_construct.
  rewrite Hcount, size_t_wrap_small by lia.
  destruct (Z.gtb_spec (Z.of_nat live) 0) as [Hpos|Hzero];
    split; cbn [fst loggerReferenceCount debugPrintFunction]; try lia.
  - split; [lia|]. intros _. apply Hinstalled. lia.
  - split; [lia | reflexivity].
Qed.

Lemma destroy_invariant (live : nat) (s : LoggerState) :
  logger_invariant (S live) s ->
  Z.of_nat (S live) < 2 ^ size_t_bits ->
  logger_invariant live (fst (destroy s)).
Proof.
  intros [Hcount Hinstalled] Hbound. unfold PortAudioLogger_destroy.
  rewrite Hcount.
  replace (Z.of_nat (S live) - 1) with (Z.of_nat live) by lia.
  rewrite size_t_wrap_small by lia.
  destruct (Z.gtb_spec (Z.of_nat live) 0) as [Hpos|Hzero];
    split; cbn [fst loggerReferenceCount debugPrintFunction]; try lia.
  - split; [lia|]. intros _. apply Hinstalled. lia.
  - split; [discriminate | lia].
Qed.

Lemma logger_run_invariant (ops : list LoggerOp) :
  forall (live live' : nat) (s : LoggerState),
    logger_invariant live s ->
    live_after ops live = Some live' ->
    Z.of_nat (max_live ops live) < 2 ^ size_t_bits ->
    logger_invariant live' (fst (run ops s)).
Proof.
  induction ops as [|op ops IH]; intros live live' s Hinv Hlive Hmax.
  - simpl in *. now inversion Hlive; subst.
  - cbn [logger_run]. destruct op; cbn [logger_step live_after max_live] in *.
    + pose proof (max_live_ge ops (S live)) as Hge.
      pose proof (construct_invariant live s Hinv ltac:(lia)) as Hinv1.
      destruct (construct s) as [s1 out1]. cbn [fst] in Hinv1.
      specialize (IH (S live) live' s1 Hinv1 Hlive ltac:(lia)).
      destruct (run ops s1) as [s2 out2]. exact IH.
    + destruct live as [|live]; [discriminate|].
      pose proof (destroy_invariant live s Hinv ltac:(lia)) as Hinv1.
      destruct (destroy s) as [s1 out1]. cbn [fst] in Hinv1.
      cbn [Nat.pred] in Hmax.
      specialize (IH live live' s1 Hinv1 Hlive ltac:(lia)).
      destruct (run ops s1) as [s2 out2]. exact IH.
Qed.

(** C9.  Take any sequence of logger constructions and destructions in
    which no logger is destroyed that was not constructed before, and in
    which the number of live loggers stays within the range of [size_t].
    After it, with [live] loggers alive, the reference count is [live] and
    the backend holds [DebugPrint] if and only if [live] is positive.  The
    next construction calls [PaUtil_SetDebugPrintFunction(DebugPrint)] once
    if [live] is zero, and makes no such call otherwise; the next
    destruction calls [PaUtil_SetDebugPrintFunction(NULL)] once if [live] is
    one, and makes no such call otherwise. *)
Theorem PortAudioLogger_reference_count
    (ops : list LoggerOp) (live : nat) :
  live_after ops 0 = Some live ->
  Z.of_nat (max_live ops 0) < 2 ^ size_t_bits ->
  let s := fst (run ops logger_initial) in
  loggerReferenceCount s = Z.of_nat live
  /\ (debugPrintFunction s = DebugPrint <-> (0 < live)%nat)
  /\ print_function_calls (snd (construct s))
     = (if (live =? 0)%nat then [DebugPrint] else [])
  /\ ((0 < live)%nat ->
      print_function_calls (snd (destroy s))
      = (if (live =? 1)%nat then [NullCallback] else [])).
Proof.
  intros Hlive Hmax s.
  assert (Hinv : logger_invariant live s).
  { apply (logger_run_invariant ops 0 live logger_initial); try assumption.
    split; [reflexivity|]. cbn. split; [discriminate | lia]. }
  destruct Hinv as [Hcount Hinstalled].
  pose proof (max_live_ge ops 0) as Hge.
  split; [exact Hcount|]. split; [exact Hinstalled|]. split.
  - unfold PortAudioLogger_construct. rewrite Hcount.
    destruct (Z.gtb_spec (Z.of_nat live) 0) as [Hpos|Hzero];
      destruct (Nat.eqb_spec live 0) as [Heq|Hne]; try lia; reflexivity.
  - intros Hpos. unfold PortAudioLogger_destroy. rewrite Hcount.
    assert (Hbound : Z.of_nat live < 2 ^ size_t_bits).
    { assert (live <= max_live ops 0)%nat; [|lia].
      clear - Hlive. revert Hlive. generalize 0%nat as start.
      induction ops as [|[|] ops IH]; intros start Hlive;
        cbn [live_after max_live] in *.
      - inversion Hlive. lia.
      - apply IH in Hlive. lia.
      - destruct start as [|start]; [discriminate|].
        apply IH in Hlive. cbn [Nat.pred]. lia. }
    rewrite size_t_wrap_small by lia.
    destruct (Z.gtb_spec (Z.of_nat live - 1) 0) as [Hgt|Hle];
      destruct (Nat.eqb_spec live 1) as [Heq|Hne]; try lia; reflexivity.
Qed.
End LoggerFacts.

Example nested_loggers_toggle_once :
  let ops :=
    [PortAudio.Construct; PortAudio.Construct; PortAudio.Destroy;
     PortAudio.Construct; PortAudio.Destroy; PortAudio.Destroy] in
  let run := PortAudio.logger_run 64 "V19" ops PortAudio.logger_initial in
  PortAudio.print_function_calls (snd run)
  = [PortAudio.DebugPrint; PortAudio.NullCallback]
  /\ fst run = PortAudio.logger_initial.
Proof. split; reflexivity. Qed.

Lemma PortAudioLogger_reference_count_witness :
  let ops := [PortAudio.Construct; PortAudio.Construct; PortAudio.Destroy] in
  PortAudio.live_after ops 0 = Some 1%nat
  /\ PortAudio.loggerReferenceCount
       (fst (PortAudio.logger_run 64 "V19" ops PortAudio.logger_initial)) = 1
  /\ PortAudio.print_function_calls
       (snd (PortAudio.logger_run 64 "V19" ops PortAudio.logger_initial))
     = [PortAudio.DebugPrint].
Proof.
  split; [reflexivity|]. split; [|reflexivity].
  apply (PortAudioLogger_reference_count 64 "V19"
           [PortAudio.Construct; PortAudio.Construct; PortAudio.Destroy] 1);
    [reflexivity | vm_compute; reflexivity].
Defined.

(** ** Opening, stopping and closing a stream *)

Section StreamFacts.
Import PortAudio.
Context `{PortAudioHeader} `{Renderers}.
Context {B : Type} (backend : Backend B).
Local Open Scope string_scope.

(** C4.  Whatever the parameters, the memory and the backend's state,
    [OpenStream] makes one call of [Pa_OpenStream] and then either throws or
    returns a [Stream] that owns the pointer the backend stored, which is not
    null.  It returns only when the backend reported [paNoError]; it throws
    when the backend reports anything else, and when the backend reports
    [paNoError] but stored a null pointer or none. *)
Theorem OpenStream_no_partial_handle
    (inputParameters outputParameters : option PaStreamParameters)
    (sampleRate : double)
    (framesPerBuffer streamFlags streamCallback userData : Z)
    (m : Memory) (b : B) :
  let answer :=
    Pa_OpenStream backend inputParameters outputParameters sampleRate
      framesPerBuffer streamFlags streamCallback userData b in
  let error := fst (fst answer) in
  let stored := snd (fst answer) in
  let opened :=
    OpenStream backend inputParameters outputParameters sampleRate
      framesPerBuffer streamFlags streamCallback userData m b in
  snd (fst opened) = snd answer
  /\ (forall stream : Stream,
        fst (fst opened) = Returns stream ->
        error = paNoError
        /\ stored = Some (stream_get stream)
        /\ stream_get stream <> 0%Z)
  /\ (error <> paNoError ->
      fst (fst opened)
      = Throws ("unable to open PortAudio stream: "
                ++ Pa_GetErrorText backend error))
  /\ (error = paNoError ->
      stored = None \/ stored = Some 0%Z ->
      fst (fst opened)
      = Throws "Pa_OpenStream() unexpectedly returned null")
  /\ (forall pointer : Z,
        error = paNoError ->
        stored = Some pointer ->
        pointer <> 0%Z ->
        fst (fst opened) = Returns {| stream_get := pointer |}).
Proof.
  cbv zeta. unfold OpenStream.
  destruct (Pa_OpenStream backend inputParameters outputParameters
              sampleRate framesPerBuffer streamFlags streamCallback
              userData b) as [[error stored] b1].
  cbn [fst snd].
  destruct (Z.eqb_spec error paNoError) as [Hok|Herr]; cbn [negb];
    [destruct stored as [pointer|];
     [destruct (Z.eqb_spec pointer 0) as [Hnull|Hptr]|]|];
    cbn [Z.eqb fst snd]; repeat split; intros;
    repeat match goal with
           | Heq : Returns _ = Returns _ |- _ =>
               inversion Heq; clear Heq; subst
           | Hor : _ \/ _ |- _ => destruct Hor
           end;
    cbn [stream_get] in *; try discriminate; congruence.
Qed.

End StreamFacts.

Lemma OpenStream_no_partial_handle_witness :
  let open error stored :=
    fst (fst (@PortAudio.OpenStream portaudio_v19 PortAudio.kind_renderers
                nat (PortAudio.scripted_backend error stored)
                None None (double_of_int 48000) 512 0 0 0
                (PortAudio.uniform_memory 13) O)) in
  open (-9996) (Some 4096)
  = Throws "unable to open PortAudio stream: <error text>"
  /\ open 0 None = Throws "Pa_OpenStream() unexpectedly returned null"
  /\ open 0 (Some 0) = Throws "Pa_OpenStream() unexpectedly returned null"
  /\ open 0 (Some 4096) = Returns {| PortAudio.stream_get := 4096 |}.
Proof.
  cbv zeta. split; [|split; [|split]].
  - apply (@OpenStream_no_partial_handle portaudio_v19
             PortAudio.kind_renderers nat
             (PortAudio.scripted_backend (-9996) (Some 4096))).
    cbn. lia.
  - apply (@OpenStream_no_partial_handle portaudio_v19
             PortAudio.kind_renderers nat
             (PortAudio.scripted_backend 0 None)); cbn; auto.
  - apply (@OpenStream_no_partial_handle portaudio_v19
             PortAudio.kind_renderers nat
             (PortAudio.scripted_backend 0 (Some 0))); cbn; auto.
  - apply (@OpenStream_no_partial_handle portaudio_v19
             PortAudio.kind_renderers nat
             (PortAudio.scripted_backend 0 (Some 4096))); cbn; auto; lia.
Defined.

(** ** Describing stream parameters *)

Section DescribeFacts.
Import PortAudio.
Context `{PortAudioHeader} `{Renderers}.
Local Open Scope string_scope.

Lemma DescribeStreamParameters_null
    (parameters : PaStreamParameters) (m : Memory) :
  hostApiSpecificStreamInfo parameters = 0%Z ->
  DescribeStreamParameters parameters m
  = (base_description parameters, m, []).
Proof.
  intros Hnull. unfold DescribeStreamParameters. rewrite Hnull.
  reflexivity.
Qed.

Lemma DescribeStreamParameters_header
    (parameters : PaStreamParameters) (m : Memory) :
  let info := hostApiSpecificStreamInfo parameters in
  info <> 0%Z ->
  m info f_hostApiType <> paWASAPI ->
  DescribeStreamParameters parameters m
  = (base_description parameters ++ header_section m info, m,
     map (Load info) [f_size; f_hostApiType; f_version; f_hostApiType]).
Proof.
  intros info Hptr Htype. unfold DescribeStreamParameters.
  fold info.
  destruct (Z.eqb_spec info 0) as [|_]; [contradiction|].
  unfold mem_bind, load, mem_ret.
  destruct (Z.eqb_spec (m info f_hostApiType) paWASAPI) as [|_];
    [contradiction|].
  unfold base_description, header_section. cbn [map List.app].
  now rewrite !append_assoc.
Qed.

Lemma DescribeStreamParameters_wasapi
    (parameters : PaStreamParameters) (m : Memory) :
  let info := hostApiSpecificStreamInfo parameters in
  info <> 0%Z ->
  m info f_hostApiType = paWASAPI ->
  DescribeStreamParameters parameters m
  = (base_description parameters ++ header_section m info
     ++ wasapi_section m info, m,
     map (Load info)
       ([f_size; f_hostApiType; f_version; f_hostApiType]
        ++ wasapi_body_fields)).
Proof.
  intros info Hptr Htype. unfold DescribeStreamParameters.
  fold info.
  destruct (Z.eqb_spec info 0) as [|_]; [contradiction|].
  unfold mem_bind, load, mem_ret.
  destruct (Z.eqb_spec (m info f_hostApiType) paWASAPI) as [_|];
    [|contradiction].
  unfold base_description, header_section, wasapi_section,
    wasapi_body_fields.
  cbn [map List.app].
  now rewrite !append_assoc.
Qed.

(** C7.  [DescribeStreamParameters] leaves the memory as it found it.  With
    a null [hostApiSpecificStreamInfo] it accesses nothing and the
    description is the one of the parameters proper, with no host-API
    section.  With a pointer that is not null it loads from the block at that
    pointer only; every load is of the three header fields, unless the
    header's [hostApiType] is [paWASAPI], and a field of the WASAPI body is
    loaded, and the WASAPI section rendered, exactly in that case.  So with
    any other header type the description is the same for two memories that
    agree on the header. *)
Theorem DescribeStreamParameters_opaque_block
    (parameters : PaStreamParameters) (m : Memory) :
  let info := hostApiSpecificStreamInfo parameters in
  let described := DescribeStreamParameters parameters m in
  let text := fst (fst described) in
  let accesses := snd described in
  snd (fst described) = m
  /\ (info = 0%Z -> text = base_description parameters /\ accesses = [])
  /\ (info <> 0%Z ->
      Forall (fun address => address = info) (accessed_addresses accesses)
      /\ (forall field, In field header_fields ->
            In field (accessed_fields accesses))
      /\ ((exists field,
              In field wasapi_body_fields
              /\ In field (accessed_fields accesses))
          <-> m info f_hostApiType = paWASAPI)
      /\ (m info f_hostApiType <> paWASAPI ->
          text = base_description parameters ++ header_section m info
          /\ Forall (fun field => In field header_fields)
               (accessed_fields accesses))
      /\ (m info f_hostApiType = paWASAPI ->
          text = base_description parameters ++ header_section m info
                 ++ wasapi_section m info
          /\ accessed_fields accesses
             = ([f_size; f_hostApiType; f_version; f_hostApiType]
                ++ wasapi_body_fields)%list))
  /\ (forall m' : Memory,
        info <> 0%Z ->
        m info f_hostApiType <> paWASAPI ->
        (forall field, In field header_fields ->
           m' info field = m info field) ->
        fst (fst (DescribeStreamParameters parameters m')) = text).
Proof.
  cbv zeta.
  set (info := hostApiSpecificStreamInfo parameters).
  destruct (Z.eq_dec info 0) as [Hnull|Hptr].
  - rewrite (DescribeStreamParameters_null parameters m Hnull).
    cbn [fst snd]. repeat split; try contradiction; reflexivity.
  - destruct (Z.eq_dec (m info f_hostApiType) paWASAPI) as [Hwasapi|Hother].
    + rewrite (DescribeStreamParameters_wasapi parameters m Hptr Hwasapi).
      cbn [fst snd]. fold info.
      unfold accessed_addresses, accessed_fields, header_fields,
        wasapi_body_fields.
      cbn [map List.app].
      split; [reflexivity|]. split; [intros; contradiction|].
      split; [|intros; contradiction].
      intros _. split; [repeat constructor|].
      split; [cbn [In]; intuition (subst; tauto)|].
      split; [split; [intros _; exact Hwasapi|]|].
      * intros _. exists f_flags. cbn [In]. tauto.
      * split; [intros; contradiction|]. intros _. split; reflexivity.
    + rewrite (DescribeStreamParameters_header parameters m Hptr Hother).
      cbn [fst snd]. fold info.
      unfold accessed_addresses, accessed_fields, header_fields,
        wasapi_body_fields.
      cbn [map List.app].
      split; [reflexivity|]. split; [intros; contradiction|]. split.
      * intros _. split; [repeat constructor|].
        split; [cbn [In]; intuition (subst; tauto)|].
        split; [split; [|intros; contradiction]|].
        -- intros (field & Hbody & Hread). exfalso.
           cbn [In] in Hbody, Hread.
           intuition (subst; discriminate).
        -- split; [|intros; contradiction].
           intros _. split; [reflexivity|].
           repeat constructor; cbn [In]; tauto.
      * intros m' _ _ Hagree.
        assert (Htype : m' info f_hostApiType = m info f_hostApiType)
          by (apply Hagree; cbn; tauto).
        rewrite (DescribeStreamParameters_header parameters m' Hptr)
          by (fold info; congruence).
        cbn [fst]. fold info. unfold header_section.
        rewrite !Hagree by (cbn; tauto). reflexivity.
Qed.
End DescribeFacts.

Lemma DescribeStreamParameters_opaque_block_witness :
  let parameters := {|
    PortAudio.device := 3;
    PortAudio.channelCount := 2;
    PortAudio.sampleFormat := 1;
    PortAudio.suggestedLatency := double_of_int 0;
    PortAudio.hostApiSpecificStreamInfo := 4096 |} in
  let fields hostApiType :=
    PortAudio.accessed_fields
      (snd (@PortAudio.DescribeStreamParameters portaudio_v19
              PortAudio.kind_renderers parameters
              (PortAudio.uniform_memory hostApiType))) in
  Forall (fun field => In field PortAudio.header_fields) (fields 3)
  /\ fields 13
     = ([PortAudio.f_size; PortAudio.f_hostApiType; PortAudio.f_version;
         PortAudio.f_hostApiType] ++ PortAudio.wasapi_body_fields)%list.
Proof.
  cbv zeta. split.
  - apply (@DescribeStreamParameters_opaque_block portaudio_v19
             PortAudio.kind_renderers); cbn; lia.
  - apply (@DescribeStreamParameters_opaque_block portaudio_v19
             PortAudio.kind_renderers); cbn; lia.
Defined.

(** ** The exerciser *)

Section RunFacts.
Import FlexASIOTest.
Context `{AsioHeader}.
Context {D : Type} (driver : Driver D).
Local Open Scope test_scope.

(** *** Sequencing *)

Lemma calls_of_bind {A B} (c : Test D A) (k : A -> Test D B) (d : D) :
  calls_of (bind c k d)
  = calls_of (c d) ++ calls_of (k (result_of (c d)) (state_of (c d))).
Proof.
  unfold bind, result_of, state_of, calls_of. destruct (c d) as [[a d1] t1].
  cbn [fst snd]. now destruct (k a d1) as [[b d2] t2].
Qed.

(** *** The wrappers of the driver's entry points *)

Lemma Init_answer (d : D) :
  Init driver d
  = (if fst (fst (ASIOInit driver Init_asioDriverInfo d)) =? ASE_OK
     then Some (snd (fst (ASIOInit driver Init_asioDriverInfo d)))
     else None,
     snd (ASIOInit driver Init_asioDriverInfo d),
     [CallInit Init_asioDriverInfo
        (fst (fst (ASIOInit driver Init_asioDriverInfo d)))]).
Proof.
  unfold Init, PrintError.
  destruct (ASIOInit driver Init_asioDriverInfo d) as [[e info] d1].
  cbn [fst snd]. now destruct (e =? ASE_OK).
Qed.

Lemma GetChannels_answer (d : D) :
  GetChannels driver d
  = (if fst (fst (ASIOGetChannels driver d)) =? ASE_OK
     then snd (fst (ASIOGetChannels driver d))
     else (0, 0),
     snd (ASIOGetChannels driver d),
     [CallGetChannels (fst (fst (ASIOGetChannels driver d)))
        (fst (snd (fst (ASIOGetChannels driver d))))
        (snd (snd (fst (ASIOGetChannels driver d))))]).
Proof.
  unfold GetChannels, PrintError.
  destruct (ASIOGetChannels driver d) as [[e [numInput numOutput]] d1].
  cbn [fst snd]. now destruct (e =? ASE_OK).
Qed.

Lemma GetBufferSize_answer (d : D) :
  GetBufferSize driver d
  = (if fst (fst (ASIOGetBufferSize driver d)) =? ASE_OK
     then Some (snd (fst (ASIOGetBufferSize driver d)))
     else None,
     snd (ASIOGetBufferSize driver d),
     [CallGetBufferSize (fst (fst (ASIOGetBufferSize driver d)))
        (snd (fst (ASIOGetBufferSize driver d)))]).
Proof.
  unfold GetBufferSize, PrintError.
  destruct (ASIOGetBufferSize driver d) as [[e bufferSize] d1].
  cbn [fst snd]. now destruct (e =? ASE_OK).
Qed.

Lemma GetSampleRate_answer (d : D) :
  GetSampleRate driver d
  = (if fst (fst (ASIOGetSampleRate driver d)) =? ASE_OK
     then Some (snd (fst (ASIOGetSampleRate driver d)))
     else None,
     snd (ASIOGetSampleRate driver d),
     [CallGetSampleRate (fst (fst (ASIOGetSampleRate driver d)))
        (snd (fst (ASIOGetSampleRate driver d)))]).
Proof.
  unfold GetSampleRate, PrintError.
  destruct (ASIOGetSampleRate driver d) as [[e rate] d1].
  cbn [fst snd]. now destruct (e =? ASE_OK).
Qed.

Lemma CanSampleRate_answer (sampleRate : double) (d : D) :
  CanSampleRate driver sampleRate d
  = (fst (ASIOCanSampleRate driver sampleRate d) =? ASE_OK,
     snd (ASIOCanSampleRate driver sampleRate d),
     [CallCanSampleRate sampleRate
        (fst (ASIOCanSampleRate driver sampleRate d))]).
Proof.
  unfold CanSampleRate, PrintError.
  now destruct (ASIOCanSampleRate driver sampleRate d) as [e d1].
Qed.

Lemma SetSampleRate_answer (sampleRate : double) (d : D) :
  SetSampleRate driver sampleRate d
  = (fst (ASIOSetSampleRate driver sampleRate d) =? ASE_OK,
     snd (ASIOSetSampleRate driver sampleRate d),
     [CallSetSampleRate sampleRate
        (fst (ASIOSetSampleRate driver sampleRate d))]).
Proof.
  unfold SetSampleRate, PrintError.
  now destruct (ASIOSetSampleRate driver sampleRate d) as [e d1].
Qed.

Lemma OutputReady_answer (d : D) :
  OutputReady driver d
  = (fst (ASIOOutputReady driver d) =? ASE_OK,
     snd (ASIOOutputReady driver d),
     [CallOutputReady (fst (ASIOOutputReady driver d))]).
Proof.
  unfold OutputReady, PrintError.
  now destruct (ASIOOutputReady driver d) as [e d1].
Qed.

Lemma GetChannelInfo_answer (channel : Z) (isInput : bool) (d : D) :
  GetChannelInfo driver channel isInput d
  = (if fst (fst (ASIOGetChannelInfo driver channel isInput d)) =? ASE_OK
     then Some (snd (fst (ASIOGetChannelInfo driver channel isInput d)))
     else None,
     snd (ASIOGetChannelInfo driver channel isInput d),
     [CallGetChannelInfo channel isInput
        (fst (fst (ASIOGetChannelInfo driver channel isInput d)))]).
Proof.
  unfold GetChannelInfo, PrintError.
  destruct (ASIOGetChannelInfo driver channel isInput d) as [[e info] d1].
  cbn [fst snd]. now destruct (e =? ASE_OK).
Qed.

Lemma CreateBuffers_answer (ioChannelCounts : Z * Z) (bufferSize : Z)
    (callbacks : ASIOCallbacks) (d : D) :
  let request := CreateBuffers_request ioChannelCounts in
  let answer :=
    ASIOCreateBuffers driver request (Z.of_nat (List.length request))
      bufferSize callbacks d in
  CreateBuffers driver ioChannelCounts bufferSize callbacks d
  = (if fst answer =? ASE_OK then request else [],
     snd answer,
     [CallCreateBuffers request (Z.of_nat (List.length request)) bufferSize
        callbacks (fst answer)]).
Proof.
  cbv zeta. unfold CreateBuffers, PrintError.
  destruct (ASIOCreateBuffers driver _ _ bufferSize callbacks d) as [e d1].
  cbn [fst snd]. now destruct (e =? ASE_OK).
Qed.
(** *** The channel-info loops *)

Lemma GetAllChannelInfo_loop_requests (fuel : nat) :
  forall (channel count : Z) (isInput : bool) (d : D),
    (Z.to_nat (count - channel) <= fuel)%nat ->
    map request_of
      (calls_of (GetAllChannelInfo_loop driver fuel channel count isInput d))
    = map (fun c => ReqGetChannelInfo c isInput)
        (channels_from channel (Z.to_nat (count - channel))).
Proof.
  induction fuel as [|fuel IH]; intros channel count isInput d Hfuel.
  - replace (Z.to_nat (count - channel)) with O by lia. reflexivity.
  - cbn [GetAllChannelInfo_loop].
    destruct (Z.ltb_spec channel count) as [Hlt|Hge].
    + rewrite calls_of_bind, map_app, IH by lia.
      rewrite GetChannelInfo_answer. cbn [calls_of snd map request_of].
      replace (Z.to_nat (count - channel))
        with (S (Z.to_nat (count - (channel + 1)))) by lia.
      reflexivity.
    + replace (Z.to_nat (count - channel)) with O by lia. reflexivity.
Qed.

Lemma GetAllChannelInfo_requests (ioChannelCounts : Z * Z) (d : D) :
  map request_of (calls_of (GetAllChannelInfo driver ioChannelCounts d))
  = channel_info_requests ioChannelCounts.
Proof.
  unfold GetAllChannelInfo, channel_info_requests.
  rewrite calls_of_bind, map_app.
  rewrite !GetAllChannelInfo_loop_requests by (rewrite Z.sub_0_r; lia).
  now rewrite !Z.sub_0_r.
Qed.

(** *** The check of one sample rate *)

Lemma Run_checkSampleRate_eq (sampleRate : Z) (d : D) :
  let can := CanSampleRate driver (double_of_int sampleRate) d in
  let set := SetSampleRate driver (double_of_int sampleRate) (state_of can) in
  let get := GetSampleRate driver (state_of set) in
  Run_checkSampleRate driver sampleRate d
  = if result_of can then
      if result_of set then
        (match result_of get with
         | Some rate => double_eqb rate (double_of_int sampleRate)
         | None => false
         end,
         state_of get, calls_of can ++ calls_of set ++ calls_of get)
      else (false, state_of set, calls_of can ++ calls_of set)
    else (false, state_of can, calls_of can).
Proof.
  cbv zeta. unfold Run_checkSampleRate, bind, ret.
  destruct (CanSampleRate driver (double_of_int sampleRate) d)
    as [[can d1] t1].
  cbn [result_of state_of calls_of fst snd].
  destruct can; [|now rewrite app_nil_r].
  destruct (SetSampleRate driver (double_of_int sampleRate) d1)
    as [[set d2] t2].
  cbn [result_of state_of calls_of fst snd].
  destruct set; [|now rewrite app_nil_r].
  destruct (GetSampleRate driver d2) as [[get d3] t3].
  cbn [result_of state_of calls_of fst snd]. now rewrite app_nil_r.
Qed.

Lemma Run_checkSampleRate_true (sampleRate : Z) (d : D) :
  result_of (Run_checkSampleRate driver sampleRate d) = true ->
  check_succeeds driver sampleRate d
    (state_of (Run_checkSampleRate driver sampleRate d)).
Proof.
  rewrite Run_checkSampleRate_eq. cbv zeta.
  rewrite CanSampleRate_answer. cbn [result_of state_of calls_of fst snd].
  destruct (ASIOCanSampleRate driver (double_of_int sampleRate) d)
    as [e1 d1] eqn:Hcan.
  cbn [fst snd].
  destruct (Z.eqb_spec e1 ASE_OK) as [->|]; [|discriminate].
  rewrite SetSampleRate_answer. cbn [result_of state_of calls_of fst snd].
  destruct (ASIOSetSampleRate driver (double_of_int sampleRate) d1)
    as [e2 d2] eqn:Hset.
  cbn [fst snd].
  destruct (Z.eqb_spec e2 ASE_OK) as [->|]; [|discriminate].
  rewrite GetSampleRate_answer. cbn [result_of state_of calls_of fst snd].
  destruct (ASIOGetSampleRate driver d2) as [[e3 rate] d3] eqn:Hget.
  cbn [fst snd].
  destruct (Z.eqb_spec e3 ASE_OK) as [->|]; [|discriminate].
  intros Heq. exists d1, d2, rate. auto.
Qed.

Lemma check_succeeds_run (sampleRate : Z) (d d' : D) :
  check_succeeds driver sampleRate d d' ->
  result_of (Run_checkSampleRate driver sampleRate d) = true
  /\ state_of (Run_checkSampleRate driver sampleRate d) = d'
  /\ map request_of (calls_of (Run_checkSampleRate driver sampleRate d))
     = check_requests sampleRate
  /\ Forall (fun ev => error_of ev = ASE_OK)
       (calls_of (Run_checkSampleRate driver sampleRate d)).
Proof.
  intros (d1 & d2 & rate & Hcan & Hset & Hget & Heq).
  rewrite Run_checkSampleRate_eq. cbv zeta.
  rewrite CanSampleRate_answer, Hcan.
  cbn [result_of state_of calls_of fst snd]. rewrite Z.eqb_refl.
  rewrite SetSampleRate_answer, Hset.
  cbn [result_of state_of calls_of fst snd]. rewrite Z.eqb_refl.
  rewrite GetSampleRate_answer, Hget.
  cbn [result_of state_of calls_of fst snd]. rewrite Z.eqb_refl.
  cbn [fst snd List.app map request_of].
  repeat split; auto.
Qed.

(** The calls a check makes: the probe; the set only after a probe answered
    with [ASE_OK]; the query only after a set answered with [ASE_OK]. *)
Lemma Run_checkSampleRate_requests (sampleRate : Z) (d : D) :
  let can := ASIOCanSampleRate driver (double_of_int sampleRate) d in
  let set := ASIOSetSampleRate driver (double_of_int sampleRate) (snd can) in
  map request_of (calls_of (Run_checkSampleRate driver sampleRate d))
  = firstn
      (if fst can =? ASE_OK then if fst set =? ASE_OK then 3 else 2 else 1)
      (check_requests sampleRate).
Proof.
  cbv zeta. rewrite Run_checkSampleRate_eq. cbv zeta.
  rewrite CanSampleRate_answer. cbn [result_of state_of calls_of fst snd].
  destruct (fst (ASIOCanSampleRate driver (double_of_int sampleRate) d)
            =? ASE_OK); [|reflexivity].
  rewrite SetSampleRate_answer. cbn [result_of state_of calls_of fst snd].
  destruct (fst (ASIOSetSampleRate driver (double_of_int sampleRate) _)
            =? ASE_OK); [|reflexivity].
  rewrite GetSampleRate_answer. reflexivity.
Qed.

(** *** The loop over the sample rates *)

Lemma Run_sampleRates_eq (d : D) :
  let c1 := Run_checkSampleRate driver 44100 d in
  let c2 := Run_checkSampleRate driver 96000 (state_of c1) in
  let c3 := Run_checkSampleRate driver 192000 (state_of c2) in
  let c4 := Run_checkSampleRate driver 48000 (state_of c3) in
  Run_sampleRates driver [44100; 96000; 192000; 48000] d
  = (result_of c4, state_of c4,
     calls_of c1 ++ calls_of c2 ++ calls_of c3 ++ calls_of c4).
Proof.
  cbv zeta. unfold Run_sampleRates, bind, ret.
  destruct (Run_checkSampleRate driver 44100 d) as [[ok1 d1] t1].
  cbn [result_of state_of calls_of fst snd].
  replace (negb ok1 && (44100 =? 48000)) with false
    by (now destruct ok1).
  destruct (Run_checkSampleRate driver 96000 d1) as [[ok2 d2] t2].
  cbn [result_of state_of calls_of fst snd].
  replace (negb ok2 && (96000 =? 48000)) with false
    by (now destruct ok2).
  destruct (Run_checkSampleRate driver 192000 d2) as [[ok3 d3] t3].
  cbn [result_of state_of calls_of fst snd].
  replace (negb ok3 && (192000 =? 48000)) with false
    by (now destruct ok3).
  destruct (Run_checkSampleRate driver 48000 d3) as [[ok4 d4] t4].
  cbn [result_of state_of calls_of fst snd].
  destruct ok4; cbn [negb andb Z.eqb Pos.eqb fst snd];
    now rewrite ?app_nil_r.
Qed.
(** *** [Run], one phase after the other *)

Lemma Run_eq (d : D) :
  let init := Init driver d in
  let channels := GetChannels driver (state_of init) in
  let io := result_of channels in
  let size := GetBufferSize driver (state_of channels) in
  let rate0 := GetSampleRate driver (state_of size) in
  let rates :=
    Run_sampleRates driver [44100; 96000; 192000; 48000] (state_of rate0) in
  let ready := OutputReady driver (state_of rates) in
  let infos := GetAllChannelInfo driver io (state_of ready) in
  Run driver d
  = match result_of init with
    | None => (false, state_of init, calls_of init)
    | Some _ =>
        if (fst io =? 0) && (snd io =? 0) then
          (false, state_of channels, calls_of init ++ calls_of channels)
        else
          match result_of size with
          | None =>
              (false, state_of size,
               calls_of init ++ calls_of channels ++ calls_of size)
          | Some bufferSize =>
              let create :=
                CreateBuffers driver io (preferred bufferSize) Run_callbacks
                  (state_of infos) in
              let rate1 := GetSampleRate driver (state_of create) in
              let infos1 := GetAllChannelInfo driver io (state_of rate1) in
              if negb (result_of rates) then
                (false, state_of rates,
                 calls_of init ++ calls_of channels ++ calls_of size
                 ++ calls_of rate0 ++ calls_of rates)
              else if (List.length (result_of create) =? 0)%nat then
                (false, state_of create,
                 calls_of init ++ calls_of channels ++ calls_of size
                 ++ calls_of rate0 ++ calls_of rates ++ calls_of ready
                 ++ calls_of infos ++ calls_of create)
              else
                (true, state_of infos1,
                 calls_of init ++ calls_of channels ++ calls_of size
                 ++ calls_of rate0 ++ calls_of rates ++ calls_of ready
                 ++ calls_of infos ++ calls_of create ++ calls_of rate1
                 ++ calls_of infos1)
          end
    end.
Proof.
  cbv zeta. unfold Run, bind, ret.
  destruct (Init driver d) as [[init d1] t1].
  cbn [result_of state_of calls_of fst snd].
  destruct init as [info|]; [|now rewrite app_nil_r].
  destruct (GetChannels driver d1) as [[io d2] t2].
  cbn [result_of state_of calls_of fst snd].
  destruct ((fst io =? 0) && (snd io =? 0)); [now rewrite app_nil_r|].
  destruct (GetBufferSize driver d2) as [[size d3] t3].
  cbn [result_of state_of calls_of fst snd].
  destruct size as [bufferSize|]; [|now rewrite app_nil_r].
  destruct (GetSampleRate driver d3) as [[rate0 d4] t4].
  cbn [result_of state_of calls_of fst snd].
  destruct (Run_sampleRates driver [44100; 96000; 192000; 48000] d4)
    as [[negotiated d5] t5].
  cbn [result_of state_of calls_of fst snd].
  destruct negotiated; cbn [negb]; [|now rewrite app_nil_r].
  destruct (OutputReady driver d5) as [[ready d6] t6].
  cbn [result_of state_of calls_of fst snd].
  destruct (GetAllChannelInfo driver io d6) as [[[] d7] t7].
  cbn [result_of state_of calls_of fst snd].
  destruct (CreateBuffers driver io (preferred bufferSize) Run_callbacks d7)
    as [[buffers d8] t8].
  cbn [result_of state_of calls_of fst snd].
  destruct (List.length buffers =? 0)%nat; [now rewrite app_nil_r|].
  destruct (GetSampleRate driver d8) as [[rate1 d9] t9].
  cbn [result_of state_of calls_of fst snd].
  destruct (GetAllChannelInfo driver io d9) as [[[] d10] t10].
  cbn [result_of state_of calls_of fst snd]. now rewrite app_nil_r.
Qed.

Lemma request_nonempty (numInput numOutput : Z) :
  (List.length (CreateBuffers_request (numInput, numOutput)) =? 0)%nat
  = false
  <-> 0 < numInput \/ 0 < numOutput.
Proof.
  pose proof (CreateBuffers_request_length numInput numOutput) as Hlen.
  rewrite Nat.eqb_neq. lia.
Qed.

(** [Run] returns [true] exactly for a driver that lets the run pass. *)
Lemma Run_true_iff (d : D) :
  result_of (Run driver d) = true <-> Run_passes driver d.
Proof.
  rewrite Run_eq. cbv zeta. unfold Run_passes.
  rewrite Init_answer. cbn [result_of state_of calls_of fst snd].
  destruct (ASIOInit driver Init_asioDriverInfo d) as [[e1 info] d1] eqn:HI.
  cbn [fst snd].
  destruct (Z.eqb_spec e1 ASE_OK) as [He1|He1].
  2:{ cbn [result_of fst]. split; [discriminate|].
      intros (info' & d1' & a & b & d2' & size' & d3' & d4' & d5' & d6'
              & Hi & _).
      congruence. }
  subst e1.
  rewrite GetChannels_answer. cbn [result_of state_of calls_of fst snd].
  destruct (ASIOGetChannels driver d1) as [[e2 [numInput numOutput]] d2]
    eqn:HC.
  cbn [fst snd].
  destruct (Z.eqb_spec e2 ASE_OK) as [He2|He2].
  2:{ cbn [fst snd Z.eqb andb result_of]. split; [discriminate|].
      intros (info' & d1' & a & b & d2' & size' & d3' & d4' & d5' & d6'
              & Hi & Hc & _).
      assert (d1' = d1) by congruence. subst d1'. congruence. }
  subst e2. cbn [fst snd].
  destruct ((numInput =? 0) && (numOutput =? 0)) eqn:Hzero.
  { cbn [result_of fst]. split; [discriminate|].
    intros (info' & d1' & a & b & d2' & size' & d3' & d4' & d5' & d6'
            & Hi & Hc & Hpos & _).
    assert (d1' = d1) by congruence. subst d1'.
    assert (a = numInput /\ b = numOutput) as [-> ->]
      by (split; congruence).
    apply andb_prop in Hzero. destruct Hzero as [Ha Hb].
    apply Z.eqb_eq in Ha, Hb. lia. }
  rewrite GetBufferSize_answer. cbn [result_of state_of calls_of fst snd].
  destruct (ASIOGetBufferSize driver d2) as [[e3 bufferSize] d3] eqn:HS.
  cbn [fst snd].
  destruct (Z.eqb_spec e3 ASE_OK) as [He3|He3].
  2:{ cbn [result_of fst]. split; [discriminate|].
      intros (info' & d1' & a & b & d2' & size' & d3' & d4' & d5' & d6'
              & Hi & Hc & _ & Hs & _).
      assert (d1' = d1) by congruence. subst d1'.
      assert (d2' = d2) by congruence. subst d2'. congruence. }
  subst e3.
  rewrite Run_sampleRates_eq. cbv zeta.
  cbn [result_of state_of calls_of fst snd].
  fold (state_before_48000 driver (state_of (GetSampleRate driver d3))).
  set (d48 := state_before_48000 driver (state_of (GetSampleRate driver d3))).
  destruct (result_of (Run_checkSampleRate driver 48000 d48)) eqn:Hcheck;
    cbn [negb].
  2:{ cbn [result_of fst]. split; [discriminate|].
      intros (info' & d1' & a & b & d2' & size' & d3' & d4' & d5' & d6'
              & Hi & Hc & _ & Hs & Hk & _).
      assert (d1' = d1) by congruence. subst d1'.
      assert (d2' = d2) by congruence. subst d2'.
      assert (d3' = d3) by congruence. subst d3'.
      apply check_succeeds_run in Hk. destruct Hk as [Hk _].
      fold d48 in Hk. congruence. }
  apply (Run_checkSampleRate_true 48000 d48) in Hcheck.
  set (d4 := state_of (Run_checkSampleRate driver 48000 d48)) in *.
  rewrite CreateBuffers_answer. cbv zeta.
  cbn [result_of state_of calls_of fst snd].
  set (d5 := state_of (GetAllChannelInfo driver (numInput, numOutput)
                         (state_of (OutputReady driver d4)))).
  destruct (ASIOCreateBuffers driver
              (CreateBuffers_request (numInput, numOutput)) _
              (preferred bufferSize) Run_callbacks d5) as [e4 d6] eqn:HB.
  cbn [fst snd].
  destruct (Z.eqb_spec e4 ASE_OK) as [He4|He4].
  2:{ cbn [List.length Nat.eqb result_of fst]. split; [discriminate|].
      intros (info' & d1' & a & b & d2' & size' & d3' & d4' & d5' & d6'
              & Hi & Hc & _ & Hs & Hk & Hd & Hb).
      assert (d1' = d1) by congruence. subst d1'.
      assert (a = numInput /\ b = numOutput /\ d2' = d2)
        as (-> & -> & ->) by (repeat split; congruence).
      assert (size' = bufferSize /\ d3' = d3) as (-> & ->)
        by (split; congruence).
      fold d48 in Hk. apply check_succeeds_run in Hk.
      destruct Hk as (_ & Hk & _). fold d4 in Hk. subst d4'.
      fold d5 in Hd. subst d5'. congruence. }
  subst e4.
  destruct (List.length (CreateBuffers_request (numInput, numOutput)) =? 0)%nat
    eqn:Hlen.
  { cbn [result_of fst]. split; [discriminate|].
    intros (info' & d1' & a & b & d2' & size' & d3' & d4' & d5' & d6'
            & Hi & Hc & Hpos & _).
    assert (d1' = d1) by congruence. subst d1'.
    assert (a = numInput /\ b = numOutput) as [-> ->]
      by (split; congruence).
    apply request_nonempty in Hpos. congruence. }
  cbn [result_of fst]. split; [intros _|reflexivity].
  exists info, d1, numInput, numOutput, d2, bufferSize, d3, d4, d5, d6.
  repeat split; try assumption; try reflexivity.
  now apply request_nonempty.
Qed.
(** *** The order of the calls *)

Lemma Run_checkSampleRate_rate_requests (sampleRate : Z) (d : D) :
  Forall is_rate_request
    (map request_of (calls_of (Run_checkSampleRate driver sampleRate d))).
Proof.
  rewrite Run_checkSampleRate_requests. cbv zeta.
  destruct (_ =? ASE_OK); [destruct (_ =? ASE_OK)|];
    cbn [firstn check_requests]; repeat constructor.
Qed.

Lemma Run_sampleRates_rate_requests (d : D) :
  Forall is_rate_request
    (map request_of
       (calls_of (Run_sampleRates driver [44100; 96000; 192000; 48000] d))).
Proof.
  rewrite Run_sampleRates_eq. cbv zeta. cbn [calls_of snd].
  rewrite !map_app, !Forall_app.
  repeat split; apply Run_checkSampleRate_rate_requests.
Qed.

Lemma CreateBuffers_requests (ioChannelCounts : Z * Z) (bufferSize : Z)
    (callbacks : ASIOCallbacks) (d : D) :
  map request_of
    (calls_of (CreateBuffers driver ioChannelCounts bufferSize callbacks d))
  = [ReqCreateBuffers
       (requested true (fst ioChannelCounts)
        ++ requested false (snd ioChannelCounts))
       (Z.max 0 (fst ioChannelCounts) + Z.max 0 (snd ioChannelCounts))
       bufferSize callbacks].
Proof.
  rewrite CreateBuffers_answer. cbv zeta. cbn [calls_of snd map request_of].
  destruct ioChannelCounts as [numInput numOutput]. cbn [fst snd].
  now rewrite CreateBuffers_request_length, CreateBuffers_request_eq.
Qed.

(** The calls of a run are an initial part of the calls of a complete run,
    and all of them when [Run] returns [true]; the channel counts in use are
    the ones the driver reported, the buffer size the preferred one. *)
Lemma Run_order (d : D) :
  exists (rates : list Request) (ioChannelCounts : Z * Z) (bufferSize : Z)
         (rest : list Request),
    Forall is_rate_request rates
    /\ map request_of (calls_of (Run driver d)) ++ rest
       = control_path rates ioChannelCounts bufferSize
    /\ (result_of (Run driver d) = true <-> rest = [])
    /\ (forall numInput numOutput : Z,
          nth_error (calls_of (Run driver d)) 1
          = Some (CallGetChannels ASE_OK numInput numOutput) ->
          ioChannelCounts = (numInput, numOutput))
    /\ (forall size : BufferSize,
          nth_error (calls_of (Run driver d)) 2
          = Some (CallGetBufferSize ASE_OK size) ->
          bufferSize = preferred size).
Proof.
  rewrite Run_eq. cbv zeta.
  set (init := Init driver d).
  set (channels := GetChannels driver (state_of init)).
  set (io := result_of channels).
  set (size := GetBufferSize driver (state_of channels)).
  set (rate0 := GetSampleRate driver (state_of size)).
  set (rates := Run_sampleRates driver _ (state_of rate0)).
  set (ready := OutputReady driver (state_of rates)).
  set (infos := GetAllChannelInfo driver io (state_of ready)).
  assert (Hinit : calls_of init
                  = [CallInit Init_asioDriverInfo
                       (fst (fst (ASIOInit driver Init_asioDriverInfo d)))])
    by (unfold init; now rewrite Init_answer).
  assert (Hchannels :
            exists e numInput numOutput,
              calls_of channels = [CallGetChannels e numInput numOutput]
              /\ (e = ASE_OK -> io = (numInput, numOutput))).
  { unfold io, channels. rewrite GetChannels_answer.
    destruct (ASIOGetChannels driver (state_of init))
      as [[e [numInput numOutput]] d2].
    cbn [result_of calls_of fst snd].
    exists e, numInput, numOutput. split; [reflexivity|].
    intros ->. now rewrite Z.eqb_refl. }
  destruct Hchannels as (e2 & numInput & numOutput & Hchannels & Hio).
  assert (Hsize :
            exists e bufferSize,
              calls_of size = [CallGetBufferSize e bufferSize]
              /\ (e = ASE_OK -> result_of size = Some bufferSize)
              /\ (result_of size = None \/ result_of size = Some bufferSize)).
  { unfold size. rewrite GetBufferSize_answer.
    destruct (ASIOGetBufferSize driver (state_of channels))
      as [[e bufferSize] d3].
    cbn [result_of calls_of fst snd].
    exists e, bufferSize. split; [reflexivity|]. split.
    - intros ->. now rewrite Z.eqb_refl.
    - destruct (e =? ASE_OK); auto. }
  destruct Hsize as (e3 & bufferSize & Hsize & Hsize_ok & Hsize_cases).
  assert (Hrate0 : map request_of (calls_of rate0) = [ReqGetSampleRate])
    by (unfold rate0; now rewrite GetSampleRate_answer).
  assert (Hrates : Forall is_rate_request (map request_of (calls_of rates)))
    by apply Run_sampleRates_rate_requests.
  assert (Hready : map request_of (calls_of ready) = [ReqOutputReady])
    by (unfold ready; now rewrite OutputReady_answer).
  assert (Hinfos : map request_of (calls_of infos) = channel_info_requests io)
    by apply GetAllChannelInfo_requests.
  assert (Hnth1 : forall tail a b,
             nth_error (calls_of init ++ calls_of channels ++ tail) 1
             = Some (CallGetChannels ASE_OK a b) ->
             io = (a, b)).
  { intros tail a b. rewrite Hinit, Hchannels. cbn [List.app nth_error].
    intros Heq. inversion Heq; subst. now apply Hio. }
  destruct (result_of init) as [info|] eqn:Hinit_result.
  2:{ exists [], (0, 0), 0, (tl (control_path [] (0, 0) 0)).
      cbn [result_of calls_of fst snd]. rewrite Hinit.
      split; [constructor|]. split; [reflexivity|].
      split; [split; discriminate|].
      split; intros; discriminate. }
  destruct ((fst io =? 0) && (snd io =? 0)) eqn:Hzero.
  { exists [], io, 0, (tl (tl (control_path [] io 0))).
    cbn [result_of calls_of fst snd].
    split; [constructor|]. split; [|split; [split; discriminate|split]].
    - rewrite map_app, Hinit, Hchannels. reflexivity.
    - intros a b. rewrite <- (app_nil_r (calls_of channels)). apply Hnth1.
    - rewrite Hinit, Hchannels. intros; discriminate. }
  destruct (result_of size) as [size_result|] eqn:Hsize_result.
  2:{ exists [], io, 0, (tl (tl (tl (control_path [] io 0)))).
      cbn [result_of calls_of fst snd].
      split; [constructor|]. split; [|split; [split; discriminate|split]].
      - rewrite !map_app, Hinit, Hchannels, Hsize. reflexivity.
      - intros a b. apply Hnth1.
      - rewrite Hinit, Hchannels, Hsize. cbn [List.app nth_error].
        intros s Heq. inversion Heq; subst.
        specialize (Hsize_ok eq_refl). discriminate. }
  assert (Hnth2 : forall tail s,
             nth_error
               (calls_of init ++ calls_of channels ++ calls_of size ++ tail) 2
             = Some (CallGetBufferSize ASE_OK s) ->
             preferred size_result = preferred s).
  { intros tail s. rewrite Hinit, Hchannels, Hsize.
    cbn [List.app nth_error]. intros Heq. inversion Heq; subst.
    specialize (Hsize_ok eq_refl). congruence. }
  cbv zeta.
  set (create := CreateBuffers driver io (preferred size_result)
                   Run_callbacks (state_of infos)).
  set (rate1 := GetSampleRate driver (state_of create)).
  set (infos1 := GetAllChannelInfo driver io (state_of rate1)).
  assert (Hcreate :
            map request_of (calls_of create)
            = [ReqCreateBuffers
                 (requested true (fst io) ++ requested false (snd io))
                 (Z.max 0 (fst io) + Z.max 0 (snd io))
                 (preferred size_result) Run_callbacks])
    by apply CreateBuffers_requests.
  assert (Hrate1 : map request_of (calls_of rate1) = [ReqGetSampleRate])
    by (unfold rate1; now rewrite GetSampleRate_answer).
  assert (Hinfos1 :
            map request_of (calls_of infos1) = channel_info_requests io)
    by apply GetAllChannelInfo_requests.
  exists (map request_of (calls_of rates)), io, (preferred size_result).
  destruct (result_of rates); cbn [negb].
  2:{ eexists. cbn [result_of calls_of fst snd].
      split; [exact Hrates|]. split; [|split; [|split]].
      - rewrite !map_app, Hrate0.
        change (map request_of (calls_of init)) with
          (map request_of (calls_of init)).
        rewrite Hinit, Hchannels, Hsize. cbn [map request_of].
        unfold control_path. rewrite <- !app_assoc. cbn [List.app].
        reflexivity.
      - split; discriminate.
      - intros a b. apply Hnth1.
      - intros s. apply Hnth2. }
  destruct (List.length (result_of create) =? 0)%nat.
  { eexists. cbn [result_of calls_of fst snd].
    split; [exact Hrates|]. split; [|split; [|split]].
    - rewrite !map_app, Hrate0, Hready, Hinfos, Hcreate.
      rewrite Hinit, Hchannels, Hsize. cbn [map request_of].
      unfold control_path. rewrite <- !app_assoc. cbn [List.app].
      reflexivity.
    - split; discriminate.
    - intros a b. apply Hnth1.
    - intros s. apply Hnth2. }
  exists []. cbn [result_of calls_of fst snd].
  split; [exact Hrates|]. split; [|split; [|split]].
  - rewrite !map_app, Hrate0, Hready, Hinfos, Hcreate, Hrate1, Hinfos1.
    rewrite Hinit, Hchannels, Hsize. cbn [map request_of].
    unfold control_path. rewrite <- !app_assoc. cbn [List.app].
    now rewrite app_nil_r.
  - split; reflexivity.
  - intros a b. apply Hnth1.
  - intros s. apply Hnth2.
Qed.
(** *** Calls that must succeed *)





(** *** The verdict of the exerciser *)

(** C2, amended.  [Run] makes its calls in this order: the initialization,
    the channel query, the buffer-size query, the calls on the sample rate,
    the output-ready call, a channel-info query for every input and then
    every output channel the driver reported, and the creation of the
    buffers for exactly those channels with the callbacks that do nothing
    (followed by one more query of the sample rate and of the channel
    infos); it makes all of them when it returns [true] and an initial part
    of them when it returns [false].  It returns [false] if the
    initialization, the channel query, the buffer-size query, the check of
    the rate 48000 or the buffer creation fails, and also if the channel
    query succeeds but reports no channel; it returns [true] otherwise, that
    is, exactly when the driver answers [ASE_OK] to each of these calls and
    reports at least one channel. *)
Theorem Run_control_path (d : D) :
  (result_of (Run driver d) = true <-> Run_passes driver d)
  /\ exists (rates : list Request) (ioChannelCounts : Z * Z)
            (bufferSize : Z) (rest : list Request),
       Forall is_rate_request rates
       /\ map request_of (calls_of (Run driver d)) ++ rest
          = control_path rates ioChannelCounts bufferSize
       /\ (result_of (Run driver d) = true <-> rest = [])
       /\ (forall numInput numOutput : Z,
             nth_error (calls_of (Run driver d)) 1
             = Some (CallGetChannels ASE_OK numInput numOutput) ->
             ioChannelCounts = (numInput, numOutput))
       /\ (forall size : BufferSize,
             nth_error (calls_of (Run driver d)) 2
             = Some (CallGetBufferSize ASE_OK size) ->
             bufferSize = preferred size).
Proof.
  split; [apply Run_true_iff | apply Run_order].
Qed.

(** C3.  The loop checks the four rates in the order 44100, 96000, 192000,
    48000, each one whatever the earlier checks gave.  A check probes the
    rate, sets it only if the probe was answered with [ASE_OK], and queries
    the rate only if the set was answered with [ASE_OK]; it succeeds exactly
    when all three calls are answered with [ASE_OK] and the rate reported
    equals the rate asked for.  The loop makes [Run] return [false] exactly
    when the check of 48000 fails: its result is the result of that check,
    in the state the other three checks leave, and a run that returns
    [true] has passed it. *)
Theorem Run_sampleRates_mandatory_48000 (d : D) :
  let c1 := Run_checkSampleRate driver 44100 d in
  let c2 := Run_checkSampleRate driver 96000 (state_of c1) in
  let c3 := Run_checkSampleRate driver 192000 (state_of c2) in
  let c4 := Run_checkSampleRate driver 48000 (state_of c3) in
  let loop := Run_sampleRates driver [44100; 96000; 192000; 48000] d in
  calls_of loop = calls_of c1 ++ calls_of c2 ++ calls_of c3 ++ calls_of c4
  /\ (result_of loop = false <-> result_of c4 = false)
  /\ state_of c3 = state_before_48000 driver d
  /\ (forall (sampleRate : Z) (d0 : D),
        let can :=
          ASIOCanSampleRate driver (double_of_int sampleRate) d0 in
        let set :=
          ASIOSetSampleRate driver (double_of_int sampleRate) (snd can) in
        map request_of (calls_of (Run_checkSampleRate driver sampleRate d0))
        = firstn
            (if fst can =? ASE_OK
             then if fst set =? ASE_OK then 3%nat else 2%nat
             else 1%nat)
            (check_requests sampleRate))
  /\ (forall (sampleRate : Z) (d0 : D),
        result_of (Run_checkSampleRate driver sampleRate d0) = true
        <-> exists d' : D, check_succeeds driver sampleRate d0 d')
  /\ (result_of (Run driver d) = true ->
      result_of
        (Run_checkSampleRate driver 48000
           (state_before_48000 driver (state_at_negotiation driver d)))
      = true).
Proof.
  cbv zeta. rewrite Run_sampleRates_eq. cbv zeta.
  cbn [result_of state_of calls_of fst snd].
  split; [reflexivity|]. split; [reflexivity|]. split; [reflexivity|].
  split; [exact Run_checkSampleRate_requests|]. split.
  - intros sampleRate d0. split.
    + intros Htrue. eexists. now apply Run_checkSampleRate_true.
    + intros [d' Hk]. now apply check_succeeds_run in Hk.
  - intros Htrue. apply Run_true_iff in Htrue.
    destruct Htrue as (info & d1 & numInput & numOutput & d2 & bufferSize
                       & d3 & d4 & d5 & d6 & HI & HC & Hpos & HS & Hk & _).
    apply check_succeeds_run in Hk. destruct Hk as [Hk _].
    unfold state_at_negotiation.
    rewrite Init_answer, HI. cbn [state_of fst snd].
    rewrite GetChannels_answer, HC. cbn [state_of fst snd].
    rewrite GetBufferSize_answer, HS. cbn [state_of fst snd].
    exact Hk.
Qed.










End RunFacts.

(** *** Concrete runs *)

(** A driver that reports no channel at all and answers [ASE_OK] to every
    call made: the initialization and the channel query succeed, nothing
    else is called, and yet [Run] returns [false]. *)
Lemma Run_zero_channels_counterexample :
  let run :=
    @FlexASIOTest.Run asio_sdk double
      (@FlexASIOTest.capped_driver asio_sdk (0, 0) 96000) NaN in
  FlexASIOTest.calls_of run
  = [FlexASIOTest.CallInit FlexASIOTest.Init_asioDriverInfo
       (@ASE_OK asio_sdk);
     FlexASIOTest.CallGetChannels (@ASE_OK asio_sdk) 0 0]
  /\ Forall (fun ev => FlexASIOTest.error_of ev = @ASE_OK asio_sdk)
       (FlexASIOTest.calls_of run)
  /\ FlexASIOTest.result_of run = false.
Proof.
  cbv zeta. split; [reflexivity|]. split; [|reflexivity].
  vm_compute. repeat constructor.
Qed.

(** The calls of a run against a driver with two channels each way, capped
    at 96000: the probe of 192000 is refused, so that rate is neither set nor
    queried. *)
Example Run_capped_driver_calls :
  let run :=
    @FlexASIOTest.Run asio_sdk double
      (@FlexASIOTest.capped_driver asio_sdk (2, 2) 96000) NaN in
  map FlexASIOTest.request_of (FlexASIOTest.calls_of run)
  = FlexASIOTest.control_path
      (FlexASIOTest.check_requests 44100
       ++ FlexASIOTest.check_requests 96000
       ++ [FlexASIOTest.ReqCanSampleRate (double_of_int 192000)]
       ++ FlexASIOTest.check_requests 48000)
      (2, 2) 512
  /\ FlexASIOTest.result_of run = true.
Proof. split; reflexivity. Qed.

(** A driver with two channels each way, capped at 96000, lets the run
    pass. *)
Lemma Run_control_path_witness :
  @FlexASIOTest.Run_passes asio_sdk double
    (@FlexASIOTest.capped_driver asio_sdk (2, 2) 96000) NaN.
Proof.
  apply (proj1 (proj1 (@Run_control_path asio_sdk double
                         (@FlexASIOTest.capped_driver asio_sdk (2, 2) 96000)
                         NaN))).
  vm_compute. reflexivity.
Defined.

(** With that driver the check of 192000 fails, the check of 48000 succeeds
    and the run passes. *)
Lemma Run_sampleRates_mandatory_48000_witness :
  let driver := @FlexASIOTest.capped_driver asio_sdk (2, 2) 96000 in
  FlexASIOTest.result_of
    (@FlexASIOTest.Run_checkSampleRate asio_sdk double driver 192000
       (double_of_int 96000)) = false
  /\ FlexASIOTest.result_of (@FlexASIOTest.Run asio_sdk double driver NaN)
     = true
  /\ FlexASIOTest.result_of
       (@FlexASIOTest.Run_checkSampleRate asio_sdk double driver 48000
          (@FlexASIOTest.state_before_48000 asio_sdk double driver
             (@FlexASIOTest.state_at_negotiation asio_sdk double driver NaN)))
     = true.
Proof.
  cbv zeta. split; [reflexivity|]. split; [reflexivity|].
  apply (@Run_sampleRates_mandatory_48000 asio_sdk double
           (@FlexASIOTest.capped_driver asio_sdk (2, 2) 96000) NaN).
  vm_compute. reflexivity.
Defined.


(* ===================================================================== *)
(** * Part III: further properties of the code *)
(* ===================================================================== *)

(** ** [JoinStream] and [Join], once more *)

Section JoinMoreFacts.
Import StringUtil.
Context {Item : Type}.
Variables (delimiter : string) (render : Item -> string).
Local Open Scope string_scope.

Lemma concat_app (l1 l2 : list string) :
  l1 <> [] -> l2 <> [] ->
  String.concat delimiter (l1 ++ l2)
  = String.concat delimiter l1 ++ delimiter ++ String.concat delimiter l2.
Proof.
  intros Hl1 Hl2. induction l1 as [|x [|y l1] IH]; [contradiction| |].
  - destruct l2 as [|z l2]; [contradiction|]. reflexivity.
  - change (String.concat delimiter ((x :: y :: l1) ++ l2))
      with (x ++ delimiter ++ String.concat delimiter ((y :: l1) ++ l2)).
    rewrite IH by discriminate.
    change (String.concat delimiter (x :: y :: l1))
      with (x ++ delimiter ++ String.concat delimiter (y :: l1)).
    now rewrite !append_assoc.
Qed.

Lemma inserted_app (xs ys : list Item) :
  xs <> [] -> ys <> [] ->
  inserted delimiter render (xs ++ ys)
  = (inserted delimiter render xs
     ++ delimiter :: inserted delimiter render ys)%list.
Proof.
  intros Hxs Hys. induction xs as [|x [|x' xs] IH]; [contradiction| |].
  - destruct ys as [|y ys]; [contradiction | reflexivity].
  - change (inserted delimiter render ((x :: x' :: xs) ++ ys))
      with (render x :: delimiter
            :: inserted delimiter render ((x' :: xs) ++ ys)).
    rewrite IH by discriminate. reflexivity.
Qed.

(** On a stream kept in a state [plain] in which an insertion adds its
    text at the end, the texts inserted follow what the stream held. *)
Lemma plain_inserted {Stream : Type} `{OStream Stream}
    (text : Stream -> string) (plain : Stream -> Prop) :
  (forall s t, plain s -> plain (insert s t)
                          /\ text (insert s t) = text s ++ t) ->
  forall (texts : list string) (result : Stream),
    plain result ->
    plain (fold_left insert texts result)
    /\ text (fold_left insert texts result)
       = text result ++ String.concat "" texts.
Proof.
  intros Hinsert texts.
  induction texts as [|t texts IH]; intros result Hplain.
  - cbn. now rewrite append_nil_r.
  - cbn [fold_left]. destruct (Hinsert result t Hplain) as [Hplain' Ht].
    destruct (IH _ Hplain') as [Hend Htext]. split; [exact Hend|].
    now rewrite Htext, Ht, concat_empty_cons, append_assoc.
Qed.

(** X1.  Whatever the stream does with an insertion, [JoinStream] inserts
    the renderings with the delimiter between each two neighbours, in
    order, and does nothing else to the stream: nothing at all for no item,
    and writing the items [xs], a delimiter and then the items [ys] leaves
    the stream as writing [xs ++ ys] in one call does.  On a stream in a
    state that insertions keep and in which an insertion adds its text at
    the end (no width pending, no error bit set, the put position at the
    end), the stream holds afterwards its former text followed by the
    [Join] of the items. *)
Theorem JoinStream_appends_and_composes {Stream : Type} `{OStream Stream}
    (xs ys : list Item) (result : Stream) :
  xs <> [] ->
  ys <> [] ->
  JoinStream [] delimiter result render = result
  /\ JoinStream xs delimiter result render
     = fold_left insert (inserted delimiter render xs) result
  /\ JoinStream (xs ++ ys) delimiter result render
     = JoinStream ys delimiter
         (insert (JoinStream xs delimiter result render) delimiter) render
  /\ (forall (text : Stream -> string) (plain : Stream -> Prop),
        (forall s t, plain s -> plain (insert s t)
                                /\ text (insert s t) = text s ++ t) ->
        plain result ->
        plain (JoinStream xs delimiter result render)
        /\ text (JoinStream xs delimiter result render)
           = text result ++ Join xs delimiter render)
  /\ Join (xs ++ ys) delimiter render
     = Join xs delimiter render ++ delimiter ++ Join ys delimiter render.
Proof.
  intros Hxs Hys.
  split; [reflexivity|]. split; [apply JoinStream_inserted|].
  split; [|split].
  - rewrite !JoinStream_inserted, inserted_app by assumption.
    now rewrite fold_left_app.
  - intros text plain Hinsert Hplain. rewrite JoinStream_inserted.
    destruct (plain_inserted text plain Hinsert
                (inserted delimiter render xs) result Hplain)
      as [Hend Htext].
    split; [exact Hend|].
    now rewrite Htext, inserted_concat, Join_is_concat.
  - rewrite !Join_is_concat, map_app. apply concat_app.
    + destruct xs; [contradiction | discriminate].
    + destruct ys; [contradiction | discriminate].
Qed.
End JoinMoreFacts.

Section FormattedStreamFacts.
Import StringUtil.
Local Open Scope string_scope.

Lemma substring_whole (s : string) : substring 0 (String.length s) s = s.
Proof. induction s as [|c s IH]; cbn; [reflexivity | now rewrite IH]. Qed.

Lemma substring_none (s : string) :
  forall n : nat, substring n 0 s = "".
Proof.
  induction s as [|c s IH]; intros [|n]; cbn; try reflexivity. apply IH.
Qed.

(** A formatted stream in the appending state stays in it, and an
    insertion adds its text at the end of the buffer. *)
Lemma appending_insert (result : formatted_stream) (text : string) :
  appending result ->
  appending (insert result text)
  /\ buffer (insert result text) = buffer result ++ text.
Proof.
  destruct result as [held position width filler failed].
  unfold appending. cbn. intros (-> & -> & ->). cbn.
  unfold padded, overwrite. cbn [Nat.sub repeat string_of_list_ascii append].
  replace (String.length held - (String.length held + String.length text))%nat
    with 0%nat by lia.
  rewrite substring_whole, substring_none, append_nil_r, length_append.
  auto.
Qed.
End FormattedStreamFacts.

(** A pending width pads the first insertion only, and a stream with its
    error bit set takes nothing. *)
Example JoinStream_of_formatted_streams :
  let stream width failed :=
    {| StringUtil.buffer := "items: "; StringUtil.put_position := 7;
       StringUtil.pending_width := width; StringUtil.fill := "."%char;
       StringUtil.failbit := failed |} in
  let written stream :=
    StringUtil.buffer
      (StringUtil.JoinStream ["a"; "b"]%string ", " stream
         StringUtil.DefaultJoinRender) in
  written (stream 0%nat false) = "items: a, b"%string
  /\ written (stream 3%nat false) = "items: ..a, b"%string
  /\ written (stream 3%nat true) = "items: "%string.
Proof. repeat split. Qed.

Lemma JoinStream_appends_and_composes_witness :
  let result :=
    {| StringUtil.buffer := "items: "; StringUtil.put_position := 7;
       StringUtil.pending_width := 0; StringUtil.fill := " "%char;
       StringUtil.failbit := false |} in
  StringUtil.buffer
    (StringUtil.JoinStream ["a"; "b"]%string ", " result
       StringUtil.DefaultJoinRender)
  = (StringUtil.buffer result
     ++ StringUtil.Join ["a"; "b"]%string ", "
          StringUtil.DefaultJoinRender)%string.
Proof.
  intros result.
  destruct (@JoinStream_appends_and_composes string ", "
              StringUtil.DefaultJoinRender StringUtil.formatted_stream _
              ["a"; "b"]%string ["c"]%string result
              ltac:(discriminate) ltac:(discriminate))
    as (_ & _ & _ & Hplain & _).
  apply (Hplain StringUtil.buffer StringUtil.appending).
  - apply appending_insert.
  - unfold StringUtil.appending. cbn. auto.
Defined.

Section JoinUnambiguous.
Import StringUtil.
Variable c : ascii.
Local Open Scope string_scope.

(** The character [c] does not occur in [s]. *)
Local Abbreviation free s := (~ In c (list_ascii_of_string s)).

Lemma split_at_delimiter (s1 : string) :
  forall s2 t1 t2 : string,
    free s1 -> free s2 ->
    (t1 = "" \/ exists u, t1 = String c u) ->
    (t2 = "" \/ exists u, t2 = String c u) ->
    s1 ++ t1 = s2 ++ t2 ->
    s1 = s2 /\ t1 = t2.
Proof.
  induction s1 as [|a s1 IH]; intros s2 t1 t2 Hs1 Hs2 Ht1 Ht2 Heq.
  - destruct s2 as [|b s2]; [now split|].
    cbn [append] in Heq. exfalso. apply Hs2.
    destruct Ht1 as [->|[u ->]]; [discriminate|].
    inversion Heq; subst. left. reflexivity.
  - destruct s2 as [|b s2].
    + cbn [append] in Heq. exfalso. apply Hs1.
      destruct Ht2 as [->|[u ->]]; [discriminate|].
      inversion Heq; subst. left. reflexivity.
    + cbn [append] in Heq. inversion Heq; subst.
      destruct (IH s2 t1 t2) as [-> ->]; auto.
      * intros Hin. apply Hs1. right. exact Hin.
      * intros Hin. apply Hs2. right. exact Hin.
Qed.

Lemma concat_tail (x : string) (l : list string) :
  exists t : string,
    String.concat (String c "") (x :: l) = x ++ t
    /\ (l = [] -> t = "")
    /\ (l <> [] -> t = String c (String.concat (String c "") l)).
Proof.
  destruct l as [|y l].
  - exists "". cbn. rewrite append_nil_r. repeat split; congruence.
  - exists (String c (String.concat (String c "") (y :: l))).
    repeat split; congruence.
Qed.

Lemma concat_unambiguous (l1 : list string) :
  forall l2 : list string,
    l1 <> [] -> l2 <> [] ->
    Forall (fun s => free s) l1 -> Forall (fun s => free s) l2 ->
    String.concat (String c "") l1 = String.concat (String c "") l2 ->
    l1 = l2.
Proof.
  induction l1 as [|x l1 IH]; intros l2 Hl1 Hl2 Hf1 Hf2 Heq;
    [contradiction|].
  destruct l2 as [|y l2]; [contradiction|].
  inversion Hf1 as [|? ? Hx Hf1']; inversion Hf2 as [|? ? Hy Hf2']; subst.
  destruct (concat_tail x l1) as (t1 & E1 & Hnil1 & Hcons1).
  destruct (concat_tail y l2) as (t2 & E2 & Hnil2 & Hcons2).
  rewrite E1, E2 in Heq.
  assert (Ht1 : t1 = "" \/ exists u, t1 = String c u).
  { destruct l1; [left; now apply Hnil1|].
    right. eexists. apply Hcons1. discriminate. }
  assert (Ht2 : t2 = "" \/ exists u, t2 = String c u).
  { destruct l2; [left; now apply Hnil2|].
    right. eexists. apply Hcons2. discriminate. }
  destruct (split_at_delimiter x y t1 t2 Hx Hy Ht1 Ht2 Heq) as [-> Ht].
  f_equal.
  destruct l1 as [|x1 l1], l2 as [|y1 l2]; [reflexivity | | |].
  - rewrite (Hnil1 eq_refl), Hcons2 in Ht by discriminate. discriminate.
  - rewrite (Hnil2 eq_refl), Hcons1 in Ht by discriminate. discriminate.
  - rewrite Hcons1, Hcons2 in Ht by discriminate.
    inversion Ht as [Hrest]. apply IH; auto; discriminate.
Qed.

(** X2.  With a delimiter of one character that occurs in no rendering, the
    text [Join] returns tells the renderings apart: two collections, neither
    of them empty, that give the same text have the same renderings, one by
    one.  (No item and one item with the empty rendering both give the empty
    text.) *)
Theorem Join_unambiguous {Item : Type} (render : Item -> string)
    (xs ys : list Item) :
  xs <> [] ->
  ys <> [] ->
  (forall x, In x (xs ++ ys) -> ~ In c (list_ascii_of_string (render x))) ->
  Join xs (String c "") render = Join ys (String c "") render ->
  map render xs = map render ys.
Proof.
  intros Hxs Hys Hfree Heq. rewrite !Join_is_concat in Heq.
  apply concat_unambiguous in Heq; auto.
  - destruct xs; [contradiction | discriminate].
  - destruct ys; [contradiction | discriminate].
  - apply Forall_forall. intros s Hin. apply in_map_iff in Hin.
    destruct Hin as (x & <- & Hin). apply Hfree, in_or_app. now left.
  - apply Forall_forall. intros s Hin. apply in_map_iff in Hin.
    destruct Hin as (x & <- & Hin). apply Hfree, in_or_app. now right.
Qed.
End JoinUnambiguous.

(** Without the condition the text is ambiguous: an item that holds the
    delimiter reads like two. *)
Example Join_ambiguous_with_delimiter_inside :
  StringUtil.Join ["a,b"]%string "," StringUtil.DefaultJoinRender
  = StringUtil.Join ["a"; "b"]%string "," StringUtil.DefaultJoinRender.
Proof. reflexivity. Qed.

(** Items rendered by their last decimal digit: 1, 2 and 11, 12 give the
    same text and the same renderings. *)
Lemma Join_unambiguous_witness :
  let render (n : nat) := String (ascii_of_nat (48 + n mod 10)) "" in
  StringUtil.Join [1; 2]%nat "," render = "1,2"%string
  /\ map render [1; 2]%nat = map render [11; 12]%nat.
Proof.
  cbv zeta. split; [reflexivity|].
  apply (Join_unambiguous ","%char
           (fun n : nat => String (ascii_of_nat (48 + n mod 10)) "")
           [1; 2]%nat [11; 12]%nat); try discriminate; [|reflexivity].
  intros x Hin. cbn in Hin.
  repeat destruct Hin as [<-|Hin]; try contradiction;
    cbn; intros [Hc|[]]; discriminate.
Defined.

(** ** The debug print function *)

Section DebugPrintFacts.
Import DebugOutput.

Lemma DebugPrint_loop_snoc (fuel : nat) (line : list ascii) (c : ascii) :
  DebugPrint_loop (S fuel) (line ++ [c])
  = if isspace c then DebugPrint_loop fuel line else line ++ [c].
Proof.
  cbn [DebugPrint_loop].
  destruct (line ++ [c]) as [|first rest] eqn:Hline.
  - symmetry in Hline. now apply app_cons_not_nil in Hline.
  - rewrite <- Hline. now rewrite last_last, removelast_last.
Qed.

(** With fuel for every character, the loop stops on its own test: what it
    took off are spaces, and what it keeps does not end in one. *)
Lemma DebugPrint_loop_trims (line : list ascii) :
  forall fuel : nat,
    (List.length line <= fuel)%nat ->
    ends_clean (DebugPrint_loop fuel line)
    /\ exists removed : list ascii,
         line = DebugPrint_loop fuel line ++ removed
         /\ forallb isspace removed = true.
Proof.
  induction line as [|c line IH] using rev_ind; intros fuel Hfuel.
  - split; [left; now destruct fuel|].
    exists []. now destruct fuel.
  - rewrite length_app in Hfuel. cbn [List.length] in Hfuel.
    destruct fuel as [|fuel]; [lia|].
    rewrite DebugPrint_loop_snoc. destruct (isspace c) eqn:Hspace.
    + destruct (IH fuel ltac:(lia)) as (Hclean & removed & Hline & Hremoved).
      split; [exact Hclean|]. exists (removed ++ [c]). split.
      * rewrite app_assoc. now rewrite <- Hline.
      * rewrite forallb_app, Hremoved. cbn. now rewrite Hspace.
    + split; [right; now exists line, c|].
      exists []. now rewrite app_nil_r.
Qed.

Lemma clean_not_extended (kept front rest : list ascii) (c : ascii) :
  ends_clean kept ->
  kept = front ++ rest ++ [c] ->
  isspace c = true ->
  False.
Proof.
  intros [->|(front' & c' & -> & Hc')] Heq Hc.
  - rewrite app_assoc in Heq. now apply app_cons_not_nil in Heq.
  - rewrite app_assoc in Heq. apply app_inj_tail in Heq.
    destruct Heq as [_ ->]. congruence.
Qed.

Lemma trimming_unique (kept kept' removed removed' : list ascii) :
  kept ++ removed = kept' ++ removed' ->
  ends_clean kept -> ends_clean kept' ->
  forallb isspace removed = true -> forallb isspace removed' = true ->
  kept = kept'.
Proof.
  intros Heq Hclean Hclean' Hremoved Hremoved'.
  apply app_eq_app in Heq. destruct Heq as [more [[Hk Hr]|[Hk Hr]]].
  - destruct more as [|c more] using rev_ind; [now rewrite app_nil_r in Hk|].
    exfalso. apply (clean_not_extended kept kept' more c Hclean Hk).
    rewrite forallb_forall in Hremoved'. apply Hremoved'. rewrite Hr.
    apply in_or_app. left. apply in_or_app. right. now left.
  - destruct more as [|c more] using rev_ind;
      [now rewrite app_nil_r in Hk|].
    exfalso. apply (clean_not_extended kept' kept more c Hclean' Hk).
    rewrite forallb_forall in Hremoved. apply Hremoved. rewrite Hr.
    apply in_or_app. left. apply in_or_app. right. now left.
Qed.

(** X3.  [DebugPrint] logs one line: the prefix [[PortAudio]] and the line
    it was given without the spaces at its end.  What it takes off are
    spaces only, what it keeps does not end in a space, and nothing else
    splits the line that way: it takes off all the spaces at the end and no
    other character, from the inside of the line or elsewhere.  A line that
    does not end in a space is logged as it is, so trimming twice changes
    nothing. *)
Theorem DebugPrint_trims_trailing_spaces (log : string) :
  let line := list_ascii_of_string log in
  let kept := DebugPrint_trim log in
  DebugPrint log
  = [("[PortAudio] " ++ string_of_list_ascii kept)%string]
  /\ ends_clean kept
  /\ (exists removed : list ascii,
         line = kept ++ removed /\ forallb isspace removed = true)
  /\ (forall kept' removed' : list ascii,
         line = kept' ++ removed' ->
         forallb isspace removed' = true ->
         ends_clean kept' ->
         kept' = kept)
  /\ (ends_clean line -> kept = line)
  /\ DebugPrint_trim (string_of_list_ascii kept) = kept.
Proof.
  cbv zeta. unfold DebugPrint_trim.
  set (line := list_ascii_of_string log).
  destruct (DebugPrint_loop_trims line (List.length line) (le_n _))
    as (Hclean & removed & Hline & Hremoved).
  set (kept := DebugPrint_loop (List.length line) line) in *.
  assert (Hunique : forall kept' removed',
             line = kept' ++ removed' ->
             forallb isspace removed' = true ->
             ends_clean kept' -> kept' = kept).
  { intros kept' removed' Hline' Hremoved' Hclean'.
    apply (trimming_unique kept' kept removed' removed); auto.
    congruence. }
  split; [reflexivity|]. split; [exact Hclean|].
  split; [now exists removed|]. split; [exact Hunique|]. split.
  - intros Hline_clean. symmetry.
    apply (Hunique line []); auto. now rewrite app_nil_r.
  - rewrite list_ascii_of_string_of_list_ascii.
    destruct (DebugPrint_loop_trims kept (List.length kept) (le_n _))
      as (Hclean2 & removed2 & Hkept & Hremoved2).
    apply (trimming_unique _ kept removed2 []); auto.
    now rewrite app_nil_r.
Qed.
End DebugPrintFacts.

Example DebugPrint_of_a_line_with_newline :
  DebugOutput.DebugPrint
    ("PaUtil: ready  " ++ String (ascii_of_nat 13)
                            (String (ascii_of_nat 10) ""))%string
  = ["[PortAudio] PaUtil: ready"%string].
Proof. reflexivity. Qed.

(** ** The logger: the calls of a whole sequence *)

Section LoggerTraceFacts.
Import PortAudio Traces.
Variable size_t_bits : Z.
Variable Pa_GetVersionText : string.

Local Abbreviation construct :=
  (PortAudioLogger_construct size_t_bits Pa_GetVersionText).
Local Abbreviation destroy := (PortAudioLogger_destroy size_t_bits).
Local Abbreviation run := (logger_run size_t_bits Pa_GetVersionText).

Lemma print_function_calls_app (out1 out2 : list LoggerEffect) :
  print_function_calls (out1 ++ out2)
  = print_function_calls out1 ++ print_function_calls out2.
Proof.
  induction out1 as [|[line|cb] out1 IH]; cbn; [reflexivity|exact IH|].
  now rewrite IH.
Qed.

Lemma construct_calls (live : nat) (s : LoggerState) :
  logger_invariant live s ->
  print_function_calls (snd (construct s))
  = match live with O => [DebugPrint] | S _ => [] end.
Proof.
  intros [Hcount _]. unfold PortAudioLogger_construct. rewrite Hcount.
  destruct live as [|live].
  - reflexivity.
  - destruct (Z.gtb_spec (Z.of_nat (S live)) 0); [reflexivity | lia].
Qed.

Lemma destroy_calls (live : nat) (s : LoggerState) :
  logger_invariant (S live) s ->
  Z.of_nat (S live) < 2 ^ size_t_bits ->
  print_function_calls (snd (destroy s))
  = match live with O => [NullCallback] | S _ => [] end.
Proof.
  intros [Hcount _] Hbound. unfold PortAudioLogger_destroy. rewrite Hcount.
  replace (Z.of_nat (S live) - 1) with (Z.of_nat live) by lia.
  rewrite (size_t_wrap_small size_t_bits) by lia.
  destruct live as [|live].
  - reflexivity.
  - destruct (Z.gtb_spec (Z.of_nat (S live)) 0); [reflexivity | lia].
Qed.

Lemma logger_run_alternates (ops : list LoggerOp) :
  forall (live live' : nat) (s : LoggerState),
    logger_invariant live s ->
    live_after ops live = Some live' ->
    Z.of_nat (max_live ops live) < 2 ^ size_t_bits ->
    let calls := print_function_calls (snd (run ops s)) in
    alternates (next_call live) calls
    /\ Nat.even (List.length calls)
       = Bool.eqb (Nat.eqb live 0) (Nat.eqb live' 0).
Proof.
  induction ops as [|op ops IH]; intros live live' s Hinv Hlive Hmax.
  - cbn in *. inversion Hlive; subst. split; [exact I|].
    now destruct (Nat.eqb live' 0).
  - cbn [logger_run]. destruct op; cbn [logger_step live_after max_live] in *.
    + pose proof (max_live_ge ops (S live)) as Hge.
      pose proof (construct_invariant size_t_bits Pa_GetVersionText live s
                    Hinv ltac:(lia)) as Hinv1.
      pose proof (construct_calls live s Hinv) as Hcalls.
      destruct (construct s) as [s1 out1]. cbn [fst snd] in Hinv1, Hcalls.
      specialize (IH (S live) live' s1 Hinv1 Hlive ltac:(lia)).
      destruct (run ops s1) as [s2 out2]. cbn [snd] in IH |- *.
      rewrite print_function_calls_app, Hcalls.
      destruct IH as [IHa IHe].
      destruct live as [|live];
        cbn [List.app List.length next_call alternates Nat.eqb] in *.
      * split; [split; [reflexivity | exact IHa]|].
        rewrite Nat.even_succ. unfold Nat.odd. rewrite IHe.
        now destruct (Nat.eqb live' 0).
      * split; [exact IHa | exact IHe].
    + destruct live as [|live]; [discriminate|].
      pose proof (destroy_invariant size_t_bits live s Hinv ltac:(lia))
        as Hinv1.
      pose proof (destroy_calls live s Hinv ltac:(lia)) as Hcalls.
      destruct (destroy s) as [s1 out1]. cbn [fst snd] in Hinv1, Hcalls.
      cbn [Nat.pred] in Hmax.
      specialize (IH live live' s1 Hinv1 Hlive ltac:(lia)).
      destruct (run ops s1) as [s2 out2]. cbn [snd] in IH |- *.
      rewrite print_function_calls_app, Hcalls.
      destruct IH as [IHa IHe].
      destruct live as [|live];
        cbn [List.app List.length next_call alternates Nat.eqb] in *.
      * split; [split; [reflexivity | exact IHa]|].
        rewrite Nat.even_succ. unfold Nat.odd. rewrite IHe.
        now destruct (Nat.eqb live' 0).
      * split; [exact IHa | exact IHe].
Qed.

(** X4.  Over a whole sequence of constructions and destructions, well
    nested and within the range of [size_t], the calls of
    [PaUtil_SetDebugPrintFunction] take turns: an install, a removal, an
    install, and so on, beginning with an install.  The redirection is never
    installed twice in a row and never removed unless installed, and the
    number of calls is odd exactly when a logger is still alive at the end. *)
Theorem PortAudioLogger_calls_alternate (ops : list LoggerOp) (live : nat) :
  live_after ops 0 = Some live ->
  Z.of_nat (max_live ops 0) < 2 ^ size_t_bits ->
  let calls := print_function_calls (snd (run ops logger_initial)) in
  alternates DebugPrint calls
  /\ (Nat.odd (List.length calls) = true <-> (0 < live)%nat).
Proof.
  intros Hlive Hmax calls.
  assert (Hinv : logger_invariant 0 logger_initial).
  { split; [reflexivity|]. cbn. split; [discriminate | lia]. }
  destruct (logger_run_alternates ops 0 live logger_initial Hinv Hlive Hmax)
    as [Halt Heven].
  split; [exact Halt|]. fold calls in Heven.
  unfold Nat.odd. rewrite Heven. destruct live; cbn; split; intros; lia ||
    discriminate || reflexivity.
Qed.
End LoggerTraceFacts.

Lemma PortAudioLogger_calls_alternate_witness :
  let ops :=
    [PortAudio.Construct; PortAudio.Construct; PortAudio.Destroy;
     PortAudio.Destroy; PortAudio.Construct] in
  PortAudio.live_after ops 0 = Some 1%nat
  /\ Traces.alternates PortAudio.DebugPrint
       (PortAudio.print_function_calls
          (snd (PortAudio.logger_run 32 "V19" ops PortAudio.logger_initial))).
Proof.
  split; [reflexivity|].
  apply (PortAudioLogger_calls_alternate 32 "V19"
           [PortAudio.Construct; PortAudio.Construct; PortAudio.Destroy;
            PortAudio.Destroy; PortAudio.Construct] 1);
    [reflexivity | vm_compute; reflexivity].
Defined.

(** ** The sample type renderer *)

Section NameTableFacts.
Import SampleTypeString.
Variable unknown : string.

Lemma name_in_found (table : list (Z * string)) :
  NoDup (map fst table) ->
  forall (code : Z) (name : string),
    In (code, name) table -> name_in table unknown code = name.
Proof.
  induction table as [|[key name0] rest IH]; intros Hnd code name Hin;
    [contradiction|].
  cbn [map fst] in Hnd. inversion Hnd as [|? ? Hnotin Hnd']; subst.
  cbn [name_in]. destruct Hin as [Heq|Hin].
  - inversion Heq; subst. now rewrite Z.eqb_refl.
  - destruct (Z.eqb_spec code key) as [->|_]; [|now apply IH].
    exfalso. apply Hnotin. apply in_map_iff. now exists (key, name).
Qed.

Lemma name_in_missing (table : list (Z * string)) (code : Z) :
  ~ In code (map fst table) -> name_in table unknown code = unknown.
Proof.
  induction table as [|[key name0] rest IH]; intros Hnotin; [reflexivity|].
  cbn [name_in]. cbn [map fst In] in Hnotin.
  destruct (Z.eqb_spec code key) as [->|_]; [tauto|]. apply IH. tauto.
Qed.

Lemma name_in_image (table : list (Z * string)) (code : Z) :
  In code (map fst table) ->
  In (name_in table unknown code) (map snd table).
Proof.
  induction table as [|[key name0] rest IH]; intros Hin; [contradiction|].
  cbn [name_in map snd]. cbn [map fst In] in Hin.
  destruct (Z.eqb_spec code key) as [->|Hne]; [now left|].
  right. apply IH. destruct Hin; [congruence | assumption].
Qed.

Lemma name_in_injective (table : list (Z * string)) (code code' : Z) :
  NoDup (map snd table) ->
  In code (map fst table) ->
  In code' (map fst table) ->
  name_in table unknown code = name_in table unknown code' ->
  code = code'.
Proof.
  induction table as [|[key name0] rest IH]; intros Hnd Hin Hin' Heq;
    [contradiction|].
  cbn [map snd] in Hnd. inversion Hnd as [|? ? Hnotin Hnd']; subst.
  cbn [name_in] in Heq. cbn [map fst In] in Hin, Hin'.
  destruct (Z.eqb_spec code key) as [->|Hne];
    destruct (Z.eqb_spec code' key) as [->|Hne']; [reflexivity | | |].
  - exfalso. apply Hnotin. rewrite Heq. apply name_in_image.
    destruct Hin'; [congruence | assumption].
  - exfalso. apply Hnotin. rewrite <- Heq. apply name_in_image.
    destruct Hin; [congruence | assumption].
  - apply IH; auto.
    + destruct Hin; [congruence | assumption].
    + destruct Hin'; [congruence | assumption].
Qed.
End NameTableFacts.

Section SampleTypeFacts.
Import SampleTypeString.
Context `{AsioSampleTypes}.

Lemma GetASIOSampleTypeString_is_name_in (sampleType : Z) :
  GetASIOSampleTypeString sampleType
  = name_in sample_type_table unknown_sample_type_name sampleType.
Proof. reflexivity. Qed.

Lemma sample_type_names_distinct :
  NoDup (map snd sample_type_table)
  /\ ~ In unknown_sample_type_name (map snd sample_type_table).
Proof.
  unfold sample_type_table, unknown_sample_type_name. cbn [map snd].
  split.
  - repeat (constructor; [cbn [In]; intuition discriminate|]). constructor.
  - cbn [In]. intuition discriminate.
Qed.

(** X5.  With the sample types of the header distinct, as the labels of one
    [switch] are, each of the twenty-one sample types is rendered as its own
    name, a value is rendered as "(unknown ASIO sample type)" exactly when
    it is none of them, and the name tells the sample type: two values with
    the same rendering, one of them a known sample type, are equal. *)
Theorem GetASIOSampleTypeString_names :
  NoDup (map fst sample_type_table) ->
  (forall (sampleType : Z) (name : string),
      In (sampleType, name) sample_type_table ->
      GetASIOSampleTypeString sampleType = name)
  /\ (forall sampleType : Z,
        GetASIOSampleTypeString sampleType = unknown_sample_type_name
        <-> ~ In sampleType (map fst sample_type_table))
  /\ (forall sampleType sampleType' : Z,
        In sampleType (map fst sample_type_table) ->
        GetASIOSampleTypeString sampleType
        = GetASIOSampleTypeString sampleType' ->
        sampleType = sampleType').
Proof.
  intros Hnd. destruct sample_type_names_distinct as [Hnames Hunknown].
  assert (Hiff : forall sampleType : Z,
             GetASIOSampleTypeString sampleType = unknown_sample_type_name
             <-> ~ In sampleType (map fst sample_type_table)).
  { intros sampleType. rewrite GetASIOSampleTypeString_is_name_in. split.
    - intros Heq Hin.
      apply (name_in_image unknown_sample_type_name) in Hin.
      rewrite Heq in Hin. contradiction.
    - apply name_in_missing. }
  split; [|split; [exact Hiff|]].
  - intros sampleType name Hin. rewrite GetASIOSampleTypeString_is_name_in.
    now apply name_in_found.
  - intros sampleType sampleType' Hin Heq.
    destruct (in_dec Z.eq_dec sampleType' (map fst sample_type_table))
      as [Hin'|Hout'].
    + rewrite !GetASIOSampleTypeString_is_name_in in Heq.
      now apply (name_in_injective unknown_sample_type_name
                   sample_type_table).
    + apply Hiff in Hout'. rewrite Hout' in Heq.
      apply (name_in_image unknown_sample_type_name) in Hin.
      rewrite <- GetASIOSampleTypeString_is_name_in, Heq in Hin.
      contradiction.
Qed.
End SampleTypeFacts.

Lemma GetASIOSampleTypeString_names_witness :
  @SampleTypeString.GetASIOSampleTypeString
    SampleTypeString.asio_sdk_sample_types 19
  = "ASIOSTFloat32LSB"%string
  /\ @SampleTypeString.GetASIOSampleTypeString
       SampleTypeString.asio_sdk_sample_types 5
     = "(unknown ASIO sample type)"%string.
Proof.
  assert (Hnd : NoDup (map fst (@SampleTypeString.sample_type_table
                                  SampleTypeString.asio_sdk_sample_types))).
  { cbn. repeat (constructor; [cbn [In]; lia|]). constructor. }
  destruct (@GetASIOSampleTypeString_names
              SampleTypeString.asio_sdk_sample_types Hnd)
    as (Hname & Hunknown & _).
  split.
  - apply Hname. cbn. tauto.
  - apply Hunknown. cbn. lia.
Defined.

(** ** The rendering of a [GUID] *)

Section GuidFacts.
Import WaveFormat.

Lemma hex_digit_value_digit (d : Z) :
  0 <= d < 16 -> hex_digit_value (hex_digit d) = d.
Proof.
  intros Hd.
  assert (Hcases : d = 0 \/ d = 1 \/ d = 2 \/ d = 3 \/ d = 4 \/ d = 5
                   \/ d = 6 \/ d = 7 \/ d = 8 \/ d = 9 \/ d = 10
                   \/ d = 11 \/ d = 12 \/ d = 13 \/ d = 14 \/ d = 15)
    by lia.
  repeat destruct Hcases as [->|Hcases]; try reflexivity.
  subst. reflexivity.
Qed.

Lemma hex_digits_range (fuel : nat) :
  forall value : Z,
    Forall (fun d => 0 <= d < 16) (hex_digits fuel value).
Proof.
  induction fuel as [|fuel IH]; intros value; cbn [hex_digits];
    constructor.
  - apply Z.mod_pos_bound. lia.
  - destruct (value / 16 =? 0); [constructor | apply IH].
Qed.

(** With enough fuel the digits are those of the value. *)
Lemma hex_digits_value (fuel : nat) :
  forall value : Z,
    0 <= value < 16 ^ Z.of_nat fuel ->
    digits_value (hex_digits fuel value) = value.
Proof.
  induction fuel as [|fuel IH]; intros value Hvalue.
  - cbn in *. lia.
  - cbn [hex_digits digits_value].
    rewrite Nat2Z.inj_succ, Z.pow_succ_r in Hvalue by lia.
    destruct (Z.eqb_spec (value / 16) 0) as [Hzero|Hmore].
    + cbn [digits_value]. pose proof (Z.div_mod value 16). lia.
    + rewrite IH.
      * pose proof (Z.div_mod value 16). lia.
      * split; [apply Z.div_pos; lia|].
        apply Z.div_lt_upper_bound; lia.
Qed.

Lemma hex_digits_length (fuel : nat) :
  forall (width : nat) (value : Z),
    (1 <= width)%nat ->
    0 <= value < 16 ^ Z.of_nat width ->
    (List.length (hex_digits fuel value) <= width)%nat.
Proof.
  induction fuel as [|fuel IH]; intros width value Hwidth Hvalue.
  - cbn. lia.
  - cbn [hex_digits List.length].
    destruct (Z.eqb_spec (value / 16) 0) as [Hzero|Hmore];
      [cbn; lia|].
    destruct width as [|width]; [lia|].
    rewrite Nat2Z.inj_succ, Z.pow_succ_r in Hvalue by lia.
    destruct width as [|width].
    + exfalso. apply Hmore. apply Z.div_small. cbn in Hvalue. lia.
    + apply le_n_S. apply IH; [lia|].
      split; [apply Z.div_pos; lia|].
      apply Z.div_lt_upper_bound; lia.
Qed.

Lemma hex_value_digits (digits : list Z) :
  Forall (fun d => 0 <= d < 16) digits ->
  hex_value (rev (map hex_digit digits)) = digits_value digits.
Proof.
  unfold hex_value. induction 1 as [|d digits Hd _ IH]; [reflexivity|].
  cbn [map rev digits_value]. rewrite fold_left_app. cbn [fold_left].
  rewrite IH, hex_digit_value_digit by exact Hd. lia.
Qed.

Lemma hex_value_zeros (count : nat) (text : list ascii) :
  hex_value (repeat "0"%char count ++ text) = hex_value text.
Proof.
  unfold hex_value. rewrite fold_left_app. f_equal.
  induction count as [|count IH]; [reflexivity|].
  cbn [repeat fold_left]. exact IH.
Qed.

(** Reading back what [%0<width>X] printed gives the value. *)
Lemma printf_0X_value (width : nat) (value : Z) :
  0 <= value < 2 ^ 64 -> hex_value (printf_0X width value) = value.
Proof.
  intros Hvalue. unfold printf_0X.
  rewrite hex_value_zeros, hex_value_digits by apply hex_digits_range.
  apply hex_digits_value. exact Hvalue.
Qed.

(** A value that fits in [width] digits is printed with exactly [width]
    characters. *)
Lemma printf_0X_length (width : nat) (value : Z) :
  (1 <= width)%nat ->
  0 <= value < 16 ^ Z.of_nat width ->
  List.length (printf_0X width value) = width.
Proof.
  intros Hwidth Hvalue. unfold printf_0X.
  pose proof (hex_digits_length 16 width value Hwidth Hvalue) as Hlen.
  rewrite length_app, repeat_length, length_rev, length_map. lia.
Qed.

Lemma app_inj_length {A : Type} (a a' b b' : list A) :
  List.length a = List.length a' ->
  a ++ b = a' ++ b' ->
  a = a' /\ b = b'.
Proof.
  revert a'. induction a as [|x a IH]; intros [|x' a'] Hlen Heq;
    try discriminate; [now split|].
  cbn in Hlen, Heq. inversion Heq; subst.
  destruct (IH a' ltac:(lia) ltac:(assumption)) as [-> ->]. now split.
Qed.

Lemma printf_0X_injective (width : nat) (value value' : Z) :
  0 <= value < 2 ^ 64 ->
  0 <= value' < 2 ^ 64 ->
  printf_0X width value = printf_0X width value' ->
  value = value'.
Proof.
  intros Hvalue Hvalue' Heq.
  rewrite <- (printf_0X_value width value Hvalue).
  rewrite <- (printf_0X_value width value' Hvalue').
  now rewrite Heq.
Qed.

Lemma Data4_at_byte (guid : GUID) (i : nat) :
  guid_well_typed guid -> 0 <= Data4_at guid i < 16 ^ Z.of_nat 2.
Proof.
  intros (_ & _ & _ & _ & H4). unfold Data4_at.
  destruct (Nat.lt_ge_cases i (List.length (Data4 guid))) as [Hin|Hout].
  - rewrite Forall_forall in H4. apply (H4 (nth i (Data4 guid) 0)).
    apply nth_In. exact Hin.
  - rewrite nth_overflow by exact Hout. cbn. lia.
Qed.

Lemma guid_format_length (guid : GUID) :
  guid_well_typed guid -> List.length (guid_format guid) = 38%nat.
Proof.
  intros Htyped.
  pose proof (fun i => Data4_at_byte guid i Htyped) as Hbyte.
  destruct Htyped as (H1 & H2 & H3 & _).
  unfold guid_format.
  repeat rewrite length_app. cbn [List.length].
  rewrite (printf_0X_length 8) by (cbn; lia).
  rewrite !(printf_0X_length 4) by (cbn; lia).
  rewrite !(printf_0X_length 2) by (try apply Hbyte; lia).
  reflexivity.
Qed.

Lemma printf_0X_peel (width : nat) (value value' : Z)
    (rest rest' : list ascii) :
  (1 <= width)%nat ->
  0 <= value < 16 ^ Z.of_nat width ->
  0 <= value' < 16 ^ Z.of_nat width ->
  16 ^ Z.of_nat width <= 2 ^ 64 ->
  printf_0X width value ++ rest = printf_0X width value' ++ rest' ->
  value = value' /\ rest = rest'.
Proof.
  intros Hwidth Hvalue Hvalue' Hfits Heq.
  apply app_inj_length in Heq as [Hprinted Hrest].
  - split; [|exact Hrest].
    apply (printf_0X_injective width); [lia | lia | exact Hprinted].
  - now rewrite !printf_0X_length.
Qed.

Lemma guid_format_injective (guid guid' : GUID) :
  guid_well_typed guid ->
  guid_well_typed guid' ->
  guid_format guid = guid_format guid' ->
  guid = guid'.
Proof.
  intros Htyped Htyped' Heq.
  pose proof (fun i => Data4_at_byte guid i Htyped) as Hbyte.
  pose proof (fun i => Data4_at_byte guid' i Htyped') as Hbyte'.
  destruct Htyped as (H1 & H2 & H3 & Hlen & _).
  destruct Htyped' as (H1' & H2' & H3' & Hlen' & _).
  unfold guid_format in Heq. cbn [app] in Heq.
  injection Heq as Heq.
  apply printf_0X_peel in Heq as [E1 Heq]; [|cbn; lia..].
  injection Heq as Heq.
  apply printf_0X_peel in Heq as [E2 Heq]; [|cbn; lia..].
  injection Heq as Heq.
  apply printf_0X_peel in Heq as [E3 Heq]; [|cbn; lia..].
  injection Heq as Heq.
  apply printf_0X_peel in Heq as [B0 Heq];
    [|lia | now apply Hbyte | now apply Hbyte' | cbn; lia].
  apply printf_0X_peel in Heq as [B1 Heq];
    [|lia | now apply Hbyte | now apply Hbyte' | cbn; lia].
  injection Heq as Heq.
  apply printf_0X_peel in Heq as [B2 Heq];
    [|lia | now apply Hbyte | now apply Hbyte' | cbn; lia].
  apply printf_0X_peel in Heq as [B3 Heq];
    [|lia | now apply Hbyte | now apply Hbyte' | cbn; lia].
  apply printf_0X_peel in Heq as [B4 Heq];
    [|lia | now apply Hbyte | now apply Hbyte' | cbn; lia].
  apply printf_0X_peel in Heq as [B5 Heq];
    [|lia | now apply Hbyte | now apply Hbyte' | cbn; lia].
  apply printf_0X_peel in Heq as [B6 Heq];
    [|lia | now apply Hbyte | now apply Hbyte' | cbn; lia].
  apply printf_0X_peel in Heq as [B7 _];
    [|lia | now apply Hbyte | now apply Hbyte' | cbn; lia].
  destruct guid as [d1 d2 d3 d4], guid' as [d1' d2' d3' d4'].
  cbn in *. f_equal; try assumption.
  apply (nth_ext d4 d4' 0 0); [congruence|].
  intros i Hi. rewrite Hlen in Hi.
  unfold Data4_at in *. cbn in *.
  destruct i as [|[|[|[|[|[|[|[|i]]]]]]]]; try assumption. lia.
Qed.

(** X6.  The text [snprintf] leaves in [str]: the 38 characters of the
    format, never cut by the 128 bytes of the array, and from which the
    [GUID] can be read back, so that two sub-formats are never logged alike. *)
Theorem guid_to_string_faithful (guid guid' : GUID) :
  guid_well_typed guid ->
  guid_well_typed guid' ->
  String.length (guid_to_string guid) = 38%nat
  /\ list_ascii_of_string (guid_to_string guid) = guid_format guid
  /\ hex_value (firstn 8 (skipn 1 (guid_format guid))) = Data1 guid
  /\ (guid_to_string guid = guid_to_string guid' -> guid = guid').
Proof.
  intros Htyped Htyped'.
  assert (Hwhole : forall g, guid_well_typed g ->
            firstn 127 (guid_format g) = guid_format g).
  { intros g Hg. apply firstn_all2. rewrite guid_format_length by exact Hg.
    lia. }
  unfold guid_to_string. rewrite !Hwhole by assumption.
  split; [|split; [|split]].
  - rewrite <- (guid_format_length guid Htyped).
    generalize (guid_format guid) as text.
    induction text as [|c text IH]; [reflexivity|].
    cbn. now rewrite IH.
  - apply list_ascii_of_string_of_list_ascii.
  - unfold guid_format. cbn [app skipn].
    rewrite firstn_app.
    destruct Htyped as (H1 & _).
    rewrite (printf_0X_length 8) by (cbn; lia).
    rewrite firstn_all2 by (rewrite (printf_0X_length 8); cbn; lia).
    cbn [Nat.sub firstn]. rewrite app_nil_r.
    apply printf_0X_value. lia.
  - intros Heq. apply guid_format_injective; try assumption.
    rewrite <- (list_ascii_of_string_of_list_ascii (guid_format guid)).
    rewrite <- (list_ascii_of_string_of_list_ascii (guid_format guid')).
    now rewrite Heq.
Qed.

Lemma guid_to_string_faithful_witness :
  String.length (guid_to_string KSDATAFORMAT_SUBTYPE_PCM) = 38%nat.
Proof.
  refine (proj1 (guid_to_string_faithful
                   KSDATAFORMAT_SUBTYPE_PCM KSDATAFORMAT_SUBTYPE_PCM _ _)).
  - unfold guid_well_typed. cbn.
    repeat split; try lia; repeat constructor; lia.
  - unfold guid_well_typed. cbn.
    repeat split; try lia; repeat constructor; lia.
Defined.
End GuidFacts.

(** ** The description of a wave format *)

Section WaveFormatFacts.
Import WaveFormat.
Context `{WaveHeader}.
Local Open Scope string_scope.

Lemma DescribeWaveFormat_eq (waveFormatExtensible : WAVEFORMATEXTENSIBLE) :
  DescribeWaveFormat waveFormatExtensible
  = describe_format (Format waveFormatExtensible)
    ++ (if wFormatTag (Format waveFormatExtensible)
           =? WAVE_FORMAT_EXTENSIBLE
        then describe_extension waveFormatExtensible else "")%Z.
Proof.
  unfold DescribeWaveFormat. cbv zeta.
  destruct (_ =? _)%Z.
  - reflexivity.
  - now rewrite append_nil_r.
Qed.

(** X7.  The description of a wave format starts with the description of its
    [Format] member, and goes on with the members that follow it exactly
    when the format is tagged [WAVE_FORMAT_EXTENSIBLE]: under any other tag
    these members have no part in the description. *)
Theorem DescribeWaveFormat_extension
    (waveFormatExtensible other : WAVEFORMATEXTENSIBLE) :
  Format other = Format waveFormatExtensible ->
  let waveFormat := Format waveFormatExtensible in
  prefix (describe_format waveFormat) (DescribeWaveFormat other) = true
  /\ (wFormatTag waveFormat = WAVE_FORMAT_EXTENSIBLE ->
      DescribeWaveFormat waveFormatExtensible
      = describe_format waveFormat
        ++ describe_extension waveFormatExtensible
      /\ String.length (describe_format waveFormat)
         < String.length (DescribeWaveFormat waveFormatExtensible))%nat
  /\ (wFormatTag waveFormat <> WAVE_FORMAT_EXTENSIBLE ->
      DescribeWaveFormat waveFormatExtensible = describe_format waveFormat
      /\ DescribeWaveFormat other
         = DescribeWaveFormat waveFormatExtensible).
Proof.
  intros Hformat. cbv zeta. rewrite !DescribeWaveFormat_eq, Hformat.
  split; [apply prefix_append|]. split.
  - intros ->. rewrite Z.eqb_refl. split; [reflexivity|].
    rewrite length_append. unfold describe_extension. cbn. lia.
  - intros Htag. apply Z.eqb_neq in Htag. rewrite Htag.
    now rewrite append_nil_r.
Qed.
End WaveFormatFacts.

Section WaveFormatWitness.
Import WaveFormat.

Lemma DescribeWaveFormat_extension_witness :
  let pcm := {| wFormatTag := 1; nChannels := 2; nSamplesPerSec := 48000;
                nAvgBytesPerSec := 192000; nBlockAlign := 4;
                wBitsPerSample := 16; cbSize := 0 |} in
  let zeroed := {| Format := pcm; wValidBitsPerSample := 0;
                   dwChannelMask := 0;
                   SubFormat := {| Data1 := 0; Data2 := 0; Data3 := 0;
                                   Data4 := [] |} |} in
  let stale := {| Format := pcm; wValidBitsPerSample := 24;
                  dwChannelMask := 3;
                  SubFormat := KSDATAFORMAT_SUBTYPE_PCM |} in
  @DescribeWaveFormat windows_sdk stale
  = @DescribeWaveFormat windows_sdk zeroed.
Proof.
  intros pcm zeroed stale.
  refine (proj2 (proj2 (proj2 (@DescribeWaveFormat_extension windows_sdk
                                 zeroed stale _)) _)).
  - reflexivity.
  - cbn. lia.
Defined.
End WaveFormatWitness.

(** ** The channels queried *)

Section ChannelInfoFacts.
Import FlexASIOTest.
Context `{AsioHeader}.
Context {D : Type} (driver : Driver D).

Lemma channel_info_requests_In (ioChannelCounts : Z * Z) (channel : Z)
    (isInput : bool) :
  In (ReqGetChannelInfo channel isInput)
    (channel_info_requests ioChannelCounts)
  <-> 0 <= channel
      < (if isInput then fst ioChannelCounts else snd ioChannelCounts).
Proof.
  unfold channel_info_requests. rewrite in_app_iff, !in_map_iff. split.
  - intros [(c & Heq & Hin)|(c & Heq & Hin)];
      inversion Heq; subst; apply channels_from_In in Hin; lia.
  - intros Hrange. destruct isInput; [left | right];
      exists channel; (split; [reflexivity|]);
      apply channels_from_In; lia.
Qed.

Lemma channel_info_requests_NoDup (ioChannelCounts : Z * Z) :
  NoDup (channel_info_requests ioChannelCounts).
Proof.
  unfold channel_info_requests. apply NoDup_app.
  - apply NoDup_map_injective; [|apply channels_from_NoDup].
    intros a b Heq. now inversion Heq.
  - apply NoDup_map_injective; [|apply channels_from_NoDup].
    intros a b Heq. now inversion Heq.
  - intros request. rewrite !in_map_iff.
    intros (c & <- & _) (c' & Heq & _). discriminate.
Qed.

(** X8.  Whatever the driver answers, [GetAllChannelInfo] queries every
    channel of the counts it is given once and no other, the input channels
    first, each direction in increasing order: a failed query does not end
    the loops.  These are the channels, in the order, of the buffers that
    [CreateBuffers] asks for with the same counts. *)
Theorem GetAllChannelInfo_queries_every_channel
    (ioChannelCounts : Z * Z) (d : D) :
  let queries :=
    map request_of (calls_of (GetAllChannelInfo driver ioChannelCounts d)) in
  queries = channel_info_requests ioChannelCounts
  /\ Z.of_nat (List.length queries)
     = Z.max 0 (fst ioChannelCounts) + Z.max 0 (snd ioChannelCounts)
  /\ NoDup queries
  /\ (forall (channel : Z) (isInput : bool),
        In (ReqGetChannelInfo channel isInput) queries
        <-> 0 <= channel
            < (if isInput then fst ioChannelCounts
               else snd ioChannelCounts))
  /\ queries
     = map (fun info =>
              ReqGetChannelInfo (channelNum info)
                (FlexASIOTest.isInput info))
         (CreateBuffers_request ioChannelCounts).
Proof.
  cbv zeta. rewrite GetAllChannelInfo_requests.
  split; [reflexivity|]. split; [|split; [|split]].
  - unfold channel_info_requests.
    rewrite length_app, !length_map, !channels_from_length. lia.
  - apply channel_info_requests_NoDup.
  - apply channel_info_requests_In.
  - destruct ioChannelCounts as [numInput numOutput].
    rewrite CreateBuffers_request_eq. unfold channel_info_requests, requested.
    now rewrite map_app, !map_map.
Qed.
End ChannelInfoFacts.

(** ** The order of the rate calls in a run *)

Section RateTraceFacts.
Import FlexASIOTest Traces.
Context `{AsioHeader}.
Context {D : Type} (driver : Driver D).
Local Open Scope test_scope.

Lemma probed_before_set_app (calls calls' : list Event) :
  forall previous,
    probed_before_set previous calls ->
    (forall p, probed_before_set p calls') ->
    probed_before_set previous (calls ++ calls')%list.
Proof.
  induction calls as [|ev calls IH]; intros previous Hcalls Hcalls';
    [apply Hcalls'|].
  destruct Hcalls as [Hev Hrest].
  cbn [List.app probed_before_set]. split; [exact Hev|].
  now apply IH.
Qed.

Lemma probed_before_set_no_set (calls : list Event) :
  Forall sets_no_rate calls ->
  forall previous, probed_before_set previous calls.
Proof.
  induction 1 as [|ev calls Hev _ IH]; intros previous; [exact I|].
  cbn [probed_before_set]. split; [|apply IH].
  now destruct ev.
Qed.

Lemma GetAllChannelInfo_loop_no_set (fuel : nat) :
  forall (channel count : Z) (isInput : bool) (d : D),
    Forall sets_no_rate
      (calls_of (GetAllChannelInfo_loop driver fuel channel count isInput d)).
Proof.
  induction fuel as [|fuel IH]; intros channel count isInput d;
    [constructor|].
  cbn [GetAllChannelInfo_loop].
  destruct (channel <? count); [|constructor].
  rewrite calls_of_bind. apply Forall_app. split; [|apply IH].
  rewrite GetChannelInfo_answer. cbn [calls_of snd].
  repeat constructor.
Qed.

Lemma GetAllChannelInfo_no_set (ioChannelCounts : Z * Z) (d : D) :
  Forall sets_no_rate (calls_of (GetAllChannelInfo driver ioChannelCounts d)).
Proof.
  unfold GetAllChannelInfo. rewrite calls_of_bind.
  apply Forall_app. split; apply GetAllChannelInfo_loop_no_set.
Qed.

(** The calls of one check, with what came back. *)
Lemma Run_checkSampleRate_calls (sampleRate : Z) (d : D) :
  let rate := double_of_int sampleRate in
  let can := ASIOCanSampleRate driver rate d in
  let set := ASIOSetSampleRate driver rate (snd can) in
  let get := ASIOGetSampleRate driver (snd set) in
  calls_of (Run_checkSampleRate driver sampleRate d)
  = firstn
      (if fst can =? ASE_OK then if fst set =? ASE_OK then 3 else 2 else 1)
      [CallCanSampleRate rate (fst can);
       CallSetSampleRate rate (fst set);
       CallGetSampleRate (fst (fst get)) (snd (fst get))].
Proof.
  cbv zeta. rewrite Run_checkSampleRate_eq. cbv zeta.
  rewrite CanSampleRate_answer. cbn [result_of state_of calls_of fst snd].
  destruct (fst (ASIOCanSampleRate driver (double_of_int sampleRate) d)
            =? ASE_OK); [|reflexivity].
  rewrite SetSampleRate_answer. cbn [result_of state_of calls_of fst snd].
  destruct (fst (ASIOSetSampleRate driver (double_of_int sampleRate) _)
            =? ASE_OK); [|reflexivity].
  rewrite GetSampleRate_answer. reflexivity.
Qed.

Lemma Run_checkSampleRate_probed (sampleRate : Z) (d : D) :
  forall previous,
    probed_before_set previous
      (calls_of (Run_checkSampleRate driver sampleRate d)).
Proof.
  intros previous. rewrite Run_checkSampleRate_calls. cbv zeta.
  destruct (Z.eqb_spec
              (fst (ASIOCanSampleRate driver (double_of_int sampleRate) d))
              ASE_OK) as [Hcan|_]; [|cbn; tauto].
  rewrite Hcan.
  destruct (fst (ASIOSetSampleRate driver (double_of_int sampleRate) _)
            =? ASE_OK); cbn; tauto.
Qed.

Lemma Run_sampleRates_probed (d : D) :
  forall previous,
    probed_before_set previous
      (calls_of (Run_sampleRates driver [44100; 96000; 192000; 48000] d)).
Proof.
  intros previous. rewrite Run_sampleRates_eq. cbv zeta.
  cbn [calls_of snd].
  repeat (apply probed_before_set_app;
          [apply Run_checkSampleRate_probed | intros ?]).
  apply Run_checkSampleRate_probed.
Qed.

Lemma single_call_no_set (ev : Event) :
  sets_no_rate ev -> forall previous, probed_before_set previous [ev].
Proof. intros Hev previous. cbn. now destruct ev. Qed.

Lemma Run_probed (d : D) :
  forall previous, probed_before_set previous (calls_of (Run driver d)).
Proof.
  assert (Hinit :
            forall d0 p, probed_before_set p (calls_of (Init driver d0))).
  { intros d0 p. rewrite Init_answer. now apply single_call_no_set. }
  assert (Hchannels :
            forall d0 p,
              probed_before_set p (calls_of (GetChannels driver d0))).
  { intros d0 p. rewrite GetChannels_answer. now apply single_call_no_set. }
  assert (Hsize :
            forall d0 p,
              probed_before_set p (calls_of (GetBufferSize driver d0))).
  { intros d0 p. rewrite GetBufferSize_answer.
    now apply single_call_no_set. }
  assert (Hrate :
            forall d0 p,
              probed_before_set p (calls_of (GetSampleRate driver d0))).
  { intros d0 p. rewrite GetSampleRate_answer.
    now apply single_call_no_set. }
  assert (Hready :
            forall d0 p,
              probed_before_set p (calls_of (OutputReady driver d0))).
  { intros d0 p. rewrite OutputReady_answer. now apply single_call_no_set. }
  assert (Hinfos :
            forall io d0 p,
              probed_before_set p
                (calls_of (GetAllChannelInfo driver io d0))).
  { intros io d0 p. apply probed_before_set_no_set.
    apply GetAllChannelInfo_no_set. }
  assert (Hcreate :
            forall io size callbacks d0 p,
              probed_before_set p
                (calls_of (CreateBuffers driver io size callbacks d0))).
  { intros io size callbacks d0 p.
    pose proof (CreateBuffers_answer driver io size callbacks d0) as Heq.
    cbv zeta in Heq. rewrite Heq. now apply single_call_no_set. }
  pose proof Run_sampleRates_probed as Hrates.
  intros previous. rewrite Run_eq. cbv zeta.
  destruct (result_of (Init driver d)); [|apply Hinit].
  destruct (_ && _).
  { cbn [calls_of snd]. apply probed_before_set_app; auto. }
  destruct (result_of (GetBufferSize driver _)).
  2:{ cbn [calls_of snd].
      repeat (apply probed_before_set_app; [auto | intros ?]). auto. }
  cbv zeta.
  destruct (negb _).
  { cbn [calls_of snd].
    repeat (apply probed_before_set_app; [auto | intros ?]). auto. }
  destruct (_ =? _)%nat; cbn [calls_of snd];
    repeat (apply probed_before_set_app; [auto | intros ?]); auto.
Qed.

Lemma probed_before_set_split (pre post : list Event)
    (sampleRate : double) (error : ASIOError) :
  forall previous,
    probed_before_set previous
      (pre ++ CallSetSampleRate sampleRate error :: post)%list ->
    (pre = [] /\ previous = Some (CallCanSampleRate sampleRate ASE_OK))
    \/ exists pre' : list Event,
         pre = (pre' ++ [CallCanSampleRate sampleRate ASE_OK])%list.
Proof.
  induction pre as [|ev pre IH]; intros previous Hcalls.
  - destruct Hcalls as [Hev _]. now left.
  - destruct Hcalls as [_ Hrest]. right.
    destruct (IH _ Hrest) as [[-> Hev]|[pre' ->]].
    + exists []. cbn. congruence.
    + now exists (ev :: pre').
Qed.

(** X9.  In a run the driver is asked to set a sample rate only as the very
    next call after it accepted the probe of that same rate. *)
Theorem Run_sets_only_probed_rates (d : D) (pre post : list Event)
    (sampleRate : double) (error : ASIOError) :
  calls_of (Run driver d)
  = (pre ++ CallSetSampleRate sampleRate error :: post)%list ->
  exists pre' : list Event,
    pre = (pre' ++ [CallCanSampleRate sampleRate ASE_OK])%list.
Proof.
  intros Hcalls.
  pose proof (Run_probed d None) as Hprobed. rewrite Hcalls in Hprobed.
  apply probed_before_set_split in Hprobed.
  destruct Hprobed as [[_ Hnone]|Hpre]; [discriminate | exact Hpre].
Qed.

Lemma Run_checkSampleRate_passed_calls (sampleRate : Z) (d : D) :
  result_of (Run_checkSampleRate driver sampleRate d) = true ->
  exists (error : ASIOError) (rate : double),
    calls_of (Run_checkSampleRate driver sampleRate d)
    = [CallCanSampleRate (double_of_int sampleRate) ASE_OK;
       CallSetSampleRate (double_of_int sampleRate) ASE_OK;
       CallGetSampleRate error rate].
Proof.
  intros Hpassed. apply Run_checkSampleRate_true in Hpassed.
  destruct Hpassed as (d1 & d2 & rate & Hcan & Hset & Hget & _).
  rewrite Run_checkSampleRate_calls. cbv zeta.
  rewrite Hcan. cbn [fst snd]. rewrite Hset. cbn [fst snd].
  rewrite !Z.eqb_refl. cbn [firstn]. eauto.
Qed.

Lemma Run_sampleRates_passed_calls (d : D) :
  result_of (Run_sampleRates driver [44100; 96000; 192000; 48000] d) = true ->
  exists (pre : list Event) (error : ASIOError) (rate : double),
    calls_of (Run_sampleRates driver [44100; 96000; 192000; 48000] d)
    = (pre ++ [CallCanSampleRate (double_of_int 48000) ASE_OK;
               CallSetSampleRate (double_of_int 48000) ASE_OK;
               CallGetSampleRate error rate])%list.
Proof.
  rewrite Run_sampleRates_eq. cbv zeta. cbn [result_of calls_of fst snd].
  intros Hpassed. apply Run_checkSampleRate_passed_calls in Hpassed.
  destruct Hpassed as (error & rate & ->).
  match goal with
  | |- context [(?c1 ++ ?c2 ++ ?c3 ++ _)%list] =>
      exists (c1 ++ c2 ++ c3)%list, error, rate
  end.
  now rewrite <- !app_assoc.
Qed.

(** X10.  A run that passes creates the buffers with 48000 as the rate set
    last: the set of 48000 is answered with [ASE_OK], the buffer creation
    comes after it and is answered with [ASE_OK], and no rate is set after
    the set of 48000. *)
Theorem Run_creates_buffers_at_48000 (d : D) :
  result_of (Run driver d) = true ->
  exists (pre between post : list Event)
         (bufferInfos : list ASIOBufferInfo) (numChannels bufferSize : Z)
         (callbacks : ASIOCallbacks),
    calls_of (Run driver d)
    = (pre ++ CallSetSampleRate (double_of_int 48000) ASE_OK
         :: between
         ++ CallCreateBuffers bufferInfos numChannels bufferSize callbacks
              ASE_OK
         :: post)%list
    /\ Forall sets_no_rate between
    /\ Forall sets_no_rate post.
Proof.
  rewrite Run_eq. cbv zeta.
  destruct (result_of (Init driver d)); [|discriminate].
  destruct (_ && _); [discriminate|].
  destruct (result_of (GetBufferSize driver _)) as [bufferSize|];
    [|discriminate].
  cbv zeta.
  destruct (result_of (Run_sampleRates driver _ _)) eqn:Hrates;
    cbn [negb]; [|discriminate].
  destruct (_ =? _)%nat eqn:Hcreated; [discriminate|].
  intros _. cbn [calls_of snd].
  apply Run_sampleRates_passed_calls in Hrates.
  destruct Hrates as (rates & error & rate & ->).
  match goal with
  | |- context [calls_of (CreateBuffers driver ?io ?size ?cb ?d0)] =>
      pose proof (CreateBuffers_answer driver io size cb d0) as Hcreate;
      cbv zeta in Hcreate; rewrite Hcreate in Hcreated |- *
  end.
  cbn [result_of calls_of fst snd] in Hcreated |- *.
  match type of Hcreated with
  | context [if ?e =? ASE_OK then _ else _] =>
      destruct (Z.eqb_spec e ASE_OK) as [->|_]; [|discriminate]
  end.
  match goal with
  | |- context [(?init ++ ?channels ++ ?size ++ ?rate0
                 ++ (rates ++ [?can; _; ?get]) ++ ?ready ++ ?infos
                 ++ [CallCreateBuffers ?request ?n ?bs ?cb _]
                 ++ ?rate1 ++ ?infos1)%list] =>
      exists (init ++ channels ++ size ++ rate0 ++ rates ++ [can])%list,
        (get :: ready ++ infos)%list, (rate1 ++ infos1)%list,
        request, n, bs, cb
  end.
  split; [|split].
  - rewrite <- !app_assoc. cbn [List.app]. now rewrite <- !app_assoc.
  - constructor; [exact I|]. apply Forall_app. split.
    + rewrite OutputReady_answer. repeat constructor.
    + apply GetAllChannelInfo_no_set.
  - apply Forall_app. split.
    + rewrite GetSampleRate_answer. repeat constructor.
    + apply GetAllChannelInfo_no_set.
Qed.
End RateTraceFacts.

Section RateTraceWitnesses.
Import FlexASIOTest Traces.

Lemma Run_sets_only_probed_rates_witness :
  let calls :=
    calls_of
      (@Run asio_sdk double (@capped_driver asio_sdk (2, 2) 96000) NaN) in
  exists pre' : list Event,
    firstn 5 calls
    = (pre' ++ [CallCanSampleRate (double_of_int 44100) (@ASE_OK asio_sdk)])
        %list.
Proof.
  intros calls.
  apply (@Run_sets_only_probed_rates asio_sdk double
           (@capped_driver asio_sdk (2, 2) 96000) NaN
           (firstn 5 calls) (skipn 6 calls)
           (double_of_int 44100) (@ASE_OK asio_sdk)).
  vm_compute. reflexivity.
Defined.

Lemma Run_creates_buffers_at_48000_witness :
  let calls :=
    calls_of
      (@Run asio_sdk double (@capped_driver asio_sdk (2, 2) 96000) NaN) in
  exists (pre between post : list Event)
         (bufferInfos : list ASIOBufferInfo) (numChannels bufferSize : Z)
         (callbacks : ASIOCallbacks),
    calls
    = (pre ++ CallSetSampleRate (double_of_int 48000) (@ASE_OK asio_sdk)
         :: between
         ++ CallCreateBuffers bufferInfos numChannels bufferSize callbacks
              (@ASE_OK asio_sdk)
         :: post)%list
    /\ Forall sets_no_rate between
    /\ Forall sets_no_rate post.
Proof.
  intros calls.
  apply (@Run_creates_buffers_at_48000 asio_sdk double
           (@capped_driver asio_sdk (2, 2) 96000) NaN).
  vm_compute. reflexivity.
Defined.
End RateTraceWitnesses.
